(** * XStitch: capture and reconstruction pipeline

    A shallow embedding of the parts of the XStitch browser extension that
    decide how captured designs are reconstructed, stored, renamed and
    announced:

    - [background.ts]: [scheduleNotification], the [chrome.runtime.onMessage]
      listener, the side-panel port listener, [saveSingleImageDesign] and
      [processZipData];
    - [content.ts]: [handleExportTrigger];
    - [ExportCard.tsx], [App.tsx], [preview.tsx]: the rename handlers;
    - further on, for the further properties: the download and tab
      listeners of [background.ts], the start-up test and the notification
      of [content.ts], the delete, clear and preview handlers of the side
      panel, the age label of a card, the editor and the storage listener
      of the preview page, and the three places that show and write the
      settings.

    Modelling conventions.

    - A JavaScript string is a [string]: a sequence of code units, here the
      code units below 256.  Every regular expression of the source mentions
      ASCII characters only, so its meaning on such strings is written out as
      a structural function.
    - A JavaScript number that holds an integer (identifiers of tabs and
      windows, counts, millisecond clock readings) is a [Z].
    - [undefined]/[null] is [None]; truthiness tests of the source
      ([if (x)], [x || d], [!x]) are written out with [truthy_*] functions.
    - [Set<number>] and [Map<number, number>] are [gset Z] and [gmap Z Z];
      the [Record<string, ...>] that groups archive entries is an
      association list in insertion order, because [Object.entries] exposes
      that order.  The object is a plain object literal, so a lookup
      [folders[k]] that finds no own property falls through to
      [Object.prototype]: to its built-in members, and to the [html] and
      [image] properties the code itself adds to it when an archive has
      files in a folder named [__proto__].  The [World] carries these two
      properties of [Object.prototype]; they last as long as the worker.
    - The browser is an explicit [World]: the module-level variables of the
      service worker, the stored collection, the pending timers and the log
      of API calls the code issued.  [Date.now()], [Math.random()], the ZIP
      codec and the tab queries are answered by an [Env] of oracles.
    - An [async] function runs to completion when it is called, and the
      completion callbacks of [chrome.storage.local.get] and
      [chrome.sidePanel.setOptions] run as soon as the call is issued: the
      interleavings of the event loop are not modelled.  Timers are: a
      callback handed to [setTimeout] runs when time is advanced past its
      due time.  [console.log] is left out; [console.error] is a call. *)

From Stdlib Require Import ZArith Ascii String List Lia DecimalString.
From stdpp Require Import base option list gmap strings.

Local Open Scope Z_scope.

(** ** JavaScript string primitives used by the source *)

Module Js.

(** [x || d] on an optional string: [undefined] and [""] are falsy. *)
Definition truthy_string (s : string) : bool :=
  match s with "" => false | _ => true end.

Definition or_default (o : option string) (d : string) : string :=
  match o with
  | Some s => if truthy_string s then s else d
  | None => d
  end.

(** [if (x)] on an optional object: only [undefined]/[null] is falsy. *)
Definition defined {A} (o : option A) : bool :=
  match o with Some _ => true | None => false end.

(** [if (n)] on an optional number: [undefined] and [0] are falsy. *)
Definition truthy_number (o : option Z) : bool :=
  match o with Some n => negb (n =? 0) | None => false end.

(** [s.split(sep)] for a one-character separator; never empty. *)
Fixpoint split (sep : ascii) (s : string) : list string :=
  match s with
  | "" => [""]
  | String c rest =>
      if Ascii.eqb c sep then "" :: split sep rest
      else match split sep rest with
           | [] => [String c ""]
           | h :: t => String c h :: t
           end
  end.

(** [parts.join(sep)]. *)
Fixpoint join (sep : string) (parts : list string) : string :=
  match parts with
  | [] => ""
  | [p] => p
  | p :: ps => p +:+ sep +:+ join sep ps
  end.

(** [parts.pop()]: the removed last element ([undefined] on []) and the
    array that is left. *)
Definition pop (parts : list string) : option string * list string :=
  (last parts, removelast parts).

(** [s.endsWith(suffix)]: [s] itself or one of its tails is [suffix]. *)
Fixpoint endsWith (suffix s : string) : bool :=
  String.eqb s suffix ||
  match s with
  | "" => false
  | String _ rest => endsWith suffix rest
  end.

Definition is_lower (c : ascii) : bool :=
  let n := nat_of_ascii c in ((97 <=? n) && (n <=? 122))%nat.
Definition is_upper (c : ascii) : bool :=
  let n := nat_of_ascii c in ((65 <=? n) && (n <=? 90))%nat.
Definition is_digit (c : ascii) : bool :=
  let n := nat_of_ascii c in ((48 <=? n) && (n <=? 57))%nat.

(** [\w]: ASCII letters, digits and the underscore. *)
Definition is_word (c : ascii) : bool :=
  is_lower c || is_upper c || is_digit c || Ascii.eqb c "_".

(** [\s], also what [trim()] removes: TAB, LF, VT, FF, CR, SP, NBSP. *)
Definition is_space (c : ascii) : bool :=
  match c with
  | "009" | "010" | "011" | "012" | "013" | " " | "160" => true
  | _ => false
  end%char.

(** [c.toUpperCase()] on a character matched by [\w]; also the
    canonicalisation of the [i] flag on the characters of this model. *)
Definition toUpperCase (c : ascii) : ascii :=
  if is_lower c then ascii_of_nat (nat_of_ascii c - 32) else c.

Definition toLowerCase (c : ascii) : ascii :=
  if is_upper c then ascii_of_nat (nat_of_ascii c + 32) else c.

Fixpoint map_chars (f : ascii -> ascii) (s : string) : string :=
  match s with
  | "" => ""
  | String c rest => String (f c) (map_chars f rest)
  end.

Fixpoint filter_chars (keep : ascii -> bool) (s : string) : string :=
  match s with
  | "" => ""
  | String c rest =>
      if keep c then String c (filter_chars keep rest)
      else filter_chars keep rest
  end.

Fixpoint trimStart (s : string) : string :=
  match s with
  | "" => ""
  | String c rest => if is_space c then trimStart rest else s
  end.

Fixpoint trimEnd (s : string) : string :=
  match s with
  | "" => ""
  | String c rest =>
      match trimEnd rest with
      | "" => if is_space c then "" else String c ""
      | kept => String c kept
      end
  end.

(** [s.trim()]. *)
Definition trim (s : string) : string := trimEnd (trimStart s).

(** [s.substr(start, len)]. *)
Definition substr (start len : nat) (s : string) : string :=
  substring start len s.

(** [n.toString()] of an integer. *)
Definition number_toString (n : Z) : string :=
  NilZero.string_of_int (Z.to_int n).

(** [s.includes(needle)]. *)
Fixpoint includes (needle s : string) : bool :=
  String.prefix needle s ||
  match s with
  | "" => false
  | String _ rest => includes needle rest
  end.

End Js.

(** ** Regular expressions of the source, written out *)

Module Re.

(** [/\.(png|jpg|jpeg|webp)$/i]: the string ends, ignoring ASCII case, in
    one of the four extensions. *)
Definition image_ext (fileName : string) : bool :=
  let f := Js.map_chars Js.toLowerCase fileName in
  Js.endsWith ".png" f || Js.endsWith ".jpg" f
  || Js.endsWith ".jpeg" f || Js.endsWith ".webp" f.

(** [replace(/_/g, ' ')]. *)
Definition underscores_to_spaces (s : string) : string :=
  Js.map_chars (fun c => if Ascii.eqb c "_" then " "%char else c) s.

(** [replace(/\b\w/g, l => l.toUpperCase())]: a word character is matched
    exactly when no word character stands before it. *)
Fixpoint upper_word_starts (after_word : bool) (s : string) : string :=
  match s with
  | "" => ""
  | String c rest =>
      String (if Js.is_word c && negb after_word then Js.toUpperCase c else c)
             (upper_word_starts (Js.is_word c) rest)
  end.

(** Matching a literal at the start, ignoring ASCII case; the rest of the
    subject on success. *)
Fixpoint strip_prefix_i (lit s : string) : option string :=
  match lit, s with
  | "", _ => Some s
  | String a lit', String c s' =>
      if Ascii.eqb (Js.toUpperCase a) (Js.toUpperCase c)
      then strip_prefix_i lit' s' else None
  | String _ _, "" => None
  end.

(** [replace(/^Stitch\s+/i, '')]. *)
Definition strip_vendor (s : string) : string :=
  match strip_prefix_i "Stitch" s with
  | Some (String c rest) =>
      if Js.is_space c then Js.trimStart rest else s
  | _ => s
  end.

(** The character class of the rename handlers: less-than, greater-than,
    colon, double quote, slash, backslash, bar, question mark, star. *)
Definition invalid_filename_char (c : ascii) : bool :=
  match c with
  | "<" | ">" | ":" | "034" | "/" | "\" | "|" | "?" | "*" => true
  | _ => false
  end%char.

(** [replace(/[...]/g, '')] with that class. *)
Definition strip_invalid (s : string) : string :=
  Js.filter_chars (fun c => negb (invalid_filename_char c)) s.

End Re.

(** ** Data model *)

Module CapturedItem.
(** [interface CapturedItem] of ExportCard.tsx; [initialTab] is the
    UI-only hint the preview hand-off adds. *)
Record t := mk {
  id : string;
  timestamp : Z;
  html : string;
  image : option string;
  sourceUrl : string;
  title : option string;
  initialTab : option string
}.

Definition with_title (v : option string) (it : t) : t :=
  mk (id it) (timestamp it) (html it) (image it) (sourceUrl it) v
     (initialTab it).
End CapturedItem.

Module ZipObject.
(** An entry of a loaded archive as the source uses it: [file.name],
    [file.dir], and the results of [file.async("string")] and
    [file.async("base64")], [None] when the promise rejects. *)
Record t := mk {
  name : string;
  dir : bool;
  async_string : option string;
  async_base64 : option string
}.
End ZipObject.

(** An object with the two properties the grouping of an archive reads
    and writes, [html] and [image], each absent or a file of an archive:
    the objects that [folders[folderPath] = {}] creates, and
    [Object.prototype] as far as the code can change it. *)
Module Folder.
Record t := mk { html : option ZipObject.t; image : option ZipObject.t }.
Definition empty : t := mk None None.
Definition set_html (f : ZipObject.t) (g : t) : t := mk (Some f) (image g).
Definition set_image (f : ZipObject.t) (g : t) : t := mk (html g) (Some f).
End Folder.

(** [chrome.storage.local], the two keys the modelled code touches. *)
Record Storage := {
  capturedItems : option (list CapturedItem.t);
  previewData : option CapturedItem.t
}.

(** Messages the service worker sends to a tab. *)
Inductive TabMessage :=
| SHOW_XSTITCH_NOTIFICATION (count : Z)
| SIDE_PANEL_STATE (isOpen : bool).

(** The [payload] of a [STITCH_EXPORT_FULL] message. *)
Record Payload := {
  payload_html : string;
  payload_image : option string;
  payload_sourceUrl : string;
  payload_title : string
}.

(** Messages received by [chrome.runtime.onMessage] of the service worker,
    by their [type]. *)
Inductive Request :=
| BLOB_DATA_CAPTURED (url data : string)
| OPEN_SIDE_PANEL
| TOGGLE_SIDE_PANEL
| FETCH_IMAGE_BASE64 (url : string)
| STITCH_EXPORT_FULL (payload : Payload)
| OTHER_REQUEST (type : string).

(** [sender.tab?.id] and [sender.tab?.windowId]. *)
Record Sender := {
  sender_tab_id : option Z;
  sender_tab_windowId : option Z
}.

(** Browser API calls issued by the service worker, in the order issued. *)
Inductive Call :=
| sidePanel_open (windowId : Z)
| sidePanel_setOptions (tabId : Z) (enabled : bool) (path : option string)
| tabs_sendMessage (tabId : Z) (msg : TabMessage)
| storage_local_set (items : list CapturedItem.t)
| fetch (url : string)
| console_error (what : string).

(** Functions handed to [setTimeout].  A timer handle is an integer greater
    than zero, so [if (notificationTimeout)] asks whether one is stored. *)
Inductive Callback :=
| flush_notification
| reenable_panel (tabId windowId : Z) (isStuck : bool).

Record Timer := { handle : positive; due : Z; callback : Callback }.

(** [notificationBatch]. *)
Record Batch := { count : Z; tabId : option Z }.

(** What the code cannot compute by itself. *)
Record Env := {
  (** the n-th evaluation of [Date.now()] *)
  dateNow : nat -> Z;
  (** the n-th evaluation of [Math.random().toString(36)] *)
  mathRandom36 : nat -> string;
  (** [JSZip.loadAsync(data, {base64: true})] followed by the enumeration
      of [zip.forEach]; [None] when loading rejects *)
  loadAsync : option string -> option (list ZipObject.t);
  (** [chrome.tabs.query({active: true, ...})] asked at a given time, for a
      window or ([None]) for the current window: the [id] of each tab *)
  tabsQuery : Z -> option Z -> list (option Z)
}.

(** The service worker and the browser around it. *)
Record World := {
  openSidePanels : gset Z;
  lastToggleTimes : gmap Z Z;
  notificationBatch : option Batch;
  notificationTimeout : option positive;
  storage : Storage;
  now : Z;
  timers : list Timer;
  nextHandle : positive;
  clockReads : nat;
  randomReads : nat;
  calls : list Call;
  (** the [html] and [image] properties of [Object.prototype] in the
      service worker: absent when the worker starts, set when a file is
      grouped under the folder path [__proto__], and then inherited by
      every object until the worker is restarted *)
  objectPrototype : Folder.t
}.

Definition set_openSidePanels (v : gset Z) (w : World) : World :=
  {| openSidePanels := v; lastToggleTimes := lastToggleTimes w;
     notificationBatch := notificationBatch w;
     notificationTimeout := notificationTimeout w; storage := storage w;
     now := now w; timers := timers w; nextHandle := nextHandle w;
     clockReads := clockReads w; randomReads := randomReads w;
     calls := calls w; objectPrototype := objectPrototype w |}.

Definition set_lastToggleTimes (v : gmap Z Z) (w : World) : World :=
  {| openSidePanels := openSidePanels w; lastToggleTimes := v;
     notificationBatch := notificationBatch w;
     notificationTimeout := notificationTimeout w; storage := storage w;
     now := now w; timers := timers w; nextHandle := nextHandle w;
     clockReads := clockReads w; randomReads := randomReads w;
     calls := calls w; objectPrototype := objectPrototype w |}.

Definition set_notificationBatch (v : option Batch) (w : World) : World :=
  {| openSidePanels := openSidePanels w;
     lastToggleTimes := lastToggleTimes w; notificationBatch := v;
     notificationTimeout := notificationTimeout w; storage := storage w;
     now := now w; timers := timers w; nextHandle := nextHandle w;
     clockReads := clockReads w; randomReads := randomReads w;
     calls := calls w; objectPrototype := objectPrototype w |}.

Definition set_notificationTimeout (v : option positive) (w : World) : World :=
  {| openSidePanels := openSidePanels w;
     lastToggleTimes := lastToggleTimes w;
     notificationBatch := notificationBatch w; notificationTimeout := v;
     storage := storage w; now := now w; timers := timers w;
     nextHandle := nextHandle w; clockReads := clockReads w;
     randomReads := randomReads w; calls := calls w; objectPrototype := objectPrototype w |}.

Definition set_storage (v : Storage) (w : World) : World :=
  {| openSidePanels := openSidePanels w;
     lastToggleTimes := lastToggleTimes w;
     notificationBatch := notificationBatch w;
     notificationTimeout := notificationTimeout w; storage := v;
     now := now w; timers := timers w; nextHandle := nextHandle w;
     clockReads := clockReads w; randomReads := randomReads w;
     calls := calls w; objectPrototype := objectPrototype w |}.

Definition set_now (v : Z) (w : World) : World :=
  {| openSidePanels := openSidePanels w;
     lastToggleTimes := lastToggleTimes w;
     notificationBatch := notificationBatch w;
     notificationTimeout := notificationTimeout w; storage := storage w;
     now := v; timers := timers w; nextHandle := nextHandle w;
     clockReads := clockReads w; randomReads := randomReads w;
     calls := calls w; objectPrototype := objectPrototype w |}.

Definition set_timers (v : list Timer) (n : positive) (w : World) : World :=
  {| openSidePanels := openSidePanels w;
     lastToggleTimes := lastToggleTimes w;
     notificationBatch := notificationBatch w;
     notificationTimeout := notificationTimeout w; storage := storage w;
     now := now w; timers := v; nextHandle := n;
     clockReads := clockReads w; randomReads := randomReads w;
     calls := calls w; objectPrototype := objectPrototype w |}.

Definition set_reads (c r : nat) (w : World) : World :=
  {| openSidePanels := openSidePanels w;
     lastToggleTimes := lastToggleTimes w;
     notificationBatch := notificationBatch w;
     notificationTimeout := notificationTimeout w; storage := storage w;
     now := now w; timers := timers w; nextHandle := nextHandle w;
     clockReads := c; randomReads := r; calls := calls w; objectPrototype := objectPrototype w |}.

Definition set_calls (v : list Call) (w : World) : World :=
  {| openSidePanels := openSidePanels w;
     lastToggleTimes := lastToggleTimes w;
     notificationBatch := notificationBatch w;
     notificationTimeout := notificationTimeout w; storage := storage w;
     now := now w; timers := timers w; nextHandle := nextHandle w;
     clockReads := clockReads w; randomReads := randomReads w;
     calls := v; objectPrototype := objectPrototype w |}.

Definition set_objectPrototype (v : Folder.t) (w : World) : World :=
  {| openSidePanels := openSidePanels w;
     lastToggleTimes := lastToggleTimes w;
     notificationBatch := notificationBatch w;
     notificationTimeout := notificationTimeout w; storage := storage w;
     now := now w; timers := timers w; nextHandle := nextHandle w;
     clockReads := clockReads w; randomReads := randomReads w;
     calls := calls w; objectPrototype := v |}.

(** The service worker right after start-up, with a given stored
    collection and clock; [Object.prototype] is as the engine made it. *)
Definition fresh_world (st : Storage) (t : Z) : World :=
  {| openSidePanels := ∅; lastToggleTimes := ∅; notificationBatch := None;
     notificationTimeout := None; storage := st; now := t; timers := [];
     nextHandle := 1%positive; clockReads := 0; randomReads := 0;
     calls := []; objectPrototype := Folder.empty |}.

(** ** Effects: state, exceptions, promises *)

Inductive Outcome (A : Type) :=
| Returned (a : A)
| Thrown (err : string).
Arguments Returned {A} a.
Arguments Thrown {A} err.

(** A computation of the service worker: it runs on a world, changes it,
    and returns or throws.  What was done before a throw stays done. *)
Definition M (A : Type) : Type := World -> Outcome A * World.

Definition ret {A} (a : A) : M A := fun w => (Returned a, w).

Definition bind {A B} (m : M A) (k : A -> M B) : M B :=
  fun w =>
    match m w with
    | (Returned a, w') => k a w'
    | (Thrown e, w') => (Thrown e, w')
    end.

Definition throw {A} (err : string) : M A := fun w => (Thrown err, w).

(** [try { body } catch (err) { handler(err) }]. *)
Definition try_catch {A} (body : M A) (handler : string -> M A) : M A :=
  fun w =>
    match body w with
    | (Returned a, w') => (Returned a, w')
    | (Thrown e, w') => handler e w'
    end.

(** The computations are written with stdpp's monad notations
    [x ← m; k] and [m;; k]. *)
#[global] Instance M_ret : MRet M := @ret.
#[global] Instance M_bind : MBind M := fun A B k m => bind m k.

Definition gets {A} (f : World -> A) : M A := fun w => (Returned (f w), w).
Definition modify (f : World -> World) : M unit :=
  fun w => (Returned tt, f w).

(** [await p] for a promise that resolved ([Some]) or rejected ([None]). *)
Definition await {A} (p : option A) (err : string) : M A :=
  match p with Some a => ret a | None => throw err end.

Definition issue (c : Call) : M unit :=
  modify (fun w => set_calls (calls w ++ [c]) w).

Definition when (b : bool) (m : M unit) : M unit :=
  if b then m else ret tt.

Definition final {A} (m : M A) (w : World) : World := snd (m w).
Definition outcome {A} (m : M A) (w : World) : Outcome A := fst (m w).

(** ** The grouping object of [processZipData] *)

(** [const folders: Record<string, { html?, image? }> = {}]: the own
    properties of [folders], in creation order. *)
Definition Folders : Type := list (string * Folder.t).

(** The own property [k] of [folders], if there is one. *)
Fixpoint own_property (k : string) (fs : Folders) : option Folder.t :=
  match fs with
  | [] => None
  | (k', g) :: rest => if String.eqb k k' then Some g else own_property k rest
  end.

(** The methods [Object.prototype] has from the start.  Beside them it has
    the accessor [__proto__], whose getter returns the prototype of the
    object it is read from. *)
Definition prototype_methods : list string :=
  ["constructor"; "__defineGetter__"; "__defineSetter__"; "hasOwnProperty";
   "__lookupGetter__"; "__lookupSetter__"; "isPrototypeOf";
   "propertyIsEnumerable"; "toString"; "valueOf"; "toLocaleString"].

(** What [folders[k]] evaluates to when it is not [undefined]; each is an
    object, so truthy. *)
Inductive FolderRef :=
(** an own property: one of the objects made by [folders[k] = {}] *)
| own_folder (g : Folder.t)
(** [folders[k]] for the key [__proto__]: [Object.prototype] itself *)
| the_prototype
(** another inherited member: a method of [Object.prototype], or the file
    that [Object.prototype.html] or [Object.prototype.image] holds *)
| inherited_value.

(** [k] names a member that [folders] inherits, [__proto__] apart. *)
Definition inherited_key (proto : Folder.t) (k : string) : bool :=
  bool_decide (k ∈ prototype_methods)
  || (String.eqb k "html" && Js.defined (Folder.html proto))
  || (String.eqb k "image" && Js.defined (Folder.image proto)).

(** [folders[k]]: the own property, or else the member inherited from
    [Object.prototype], whose [html] and [image] are [proto]. *)
Definition folders_get (proto : Folder.t) (k : string) (fs : Folders)
  : option FolderRef :=
  match own_property k fs with
  | Some g => Some (own_folder g)
  | None =>
      if String.eqb k "__proto__" then Some the_prototype
      else if inherited_key proto k then Some inherited_value
      else None
  end.

(** [obj.html] and [obj.image] of an object made by an object literal, as a
    read sees them: its own property, or else that of [Object.prototype]. *)
Definition inherit (proto g : Folder.t) : Folder.t :=
  Folder.mk
    (match Folder.html g with Some f => Some f | None => Folder.html proto end)
    (match Folder.image g with
     | Some f => Some f
     | None => Folder.image proto
     end).

Fixpoint folders_alter (f : Folder.t -> Folder.t) (k : string) (fs : Folders)
  : Folders :=
  match fs with
  | [] => []
  | (k', g) :: rest =>
      if String.eqb k k' then (k', f g) :: rest
      else (k', g) :: folders_alter f k rest
  end.

(** [if (!folders[folderPath]) folders[folderPath] = {}] *)
Definition folders_ensure (proto : Folder.t) (k : string) (fs : Folders)
  : Folders :=
  match folders_get proto k fs with
  | Some _ => fs
  | None => fs ++ [(k, Folder.empty)]
  end.

(** The test of the first branch of the callback of [zip.forEach]. *)
Definition is_html_name (fileName : string) : bool :=
  String.eqb fileName "index.html" || String.eqb fileName "code.html"
  || Js.endsWith ".html" fileName.

(** [relativePath.split('/')], [parts.pop()], [parts.join('/')]. *)
Definition fileName_of (relativePath : string) : string :=
  default "" (fst (Js.pop (Js.split "/" relativePath))).
Definition folderPath_of (relativePath : string) : string :=
  Js.join "/" (snd (Js.pop (Js.split "/" relativePath))).

(** The callback of [zip.forEach]; at the root of an archive the relative
    path of an entry is its name.  The callback works on [folders] and,
    through it, on [Object.prototype]: the state is the pair of the [html]
    and [image] of [Object.prototype] and the own properties of [folders].

    When [folders[folderPath]] is an [inherited_value], the assignments
    [folders[folderPath].html = file] and [.image = file] add a property to
    a method of [Object.prototype] or to a file object.  Such an object is
    never an own property of [folders] and nothing reads these two
    properties of it but the guard of this same assignment, so the model
    does not record them. *)
Definition forEach_callback (state : Folder.t * Folders) (file : ZipObject.t)
  : Folder.t * Folders :=
  let '(proto, folders) := state in
  if ZipObject.dir file then state
  else
    let relativePath := ZipObject.name file in
    let fileName := fileName_of relativePath in
    let folderPath := folderPath_of relativePath in
    let folders := folders_ensure proto folderPath folders in
    if is_html_name fileName then
      (* folders[folderPath].html = file *)
      match folders_get proto folderPath folders with
      | Some (own_folder _) =>
          (proto, folders_alter (Folder.set_html file) folderPath folders)
      | Some the_prototype => (Folder.set_html file proto, folders)
      | _ => (proto, folders)
      end
    else if Re.image_ext fileName then
      (* if (!folders[folderPath].image) folders[folderPath].image = file *)
      match folders_get proto folderPath folders with
      | Some (own_folder g) =>
          if Js.defined (Folder.image (inherit proto g)) then (proto, folders)
          else
            (proto, folders_alter (Folder.set_image file) folderPath folders)
      | Some the_prototype =>
          if Js.defined (Folder.image proto) then (proto, folders)
          else (Folder.set_image file proto, folders)
      | _ => (proto, folders)
      end
    else (proto, folders).

(** [zip.forEach(...)] on an empty [folders], in a worker whose
    [Object.prototype] holds [proto]: what [Object.prototype] holds
    afterwards, and the own properties of [folders]. *)
Definition group_files (proto : Folder.t) (zip : list ZipObject.t)
  : Folder.t * Folders :=
  foldl forEach_callback (proto, []) zip.

(** [Object.entries]: keys that are array indices come first, in ascending
    numeric order, then the other keys in creation order. *)
Fixpoint digits_value (acc : N) (s : string) : option N :=
  match s with
  | "" => Some acc
  | String c rest =>
      if Js.is_digit c
      then digits_value (acc * 10 + (N_of_ascii c - 48))%N rest
      else None
  end.

Definition array_index (k : string) : option N :=
  match k with
  | "" => None
  | "0" => Some 0%N
  | String "0" _ => None
  | _ =>
      match digits_value 0 k with
      | Some n => if (n <? 4294967295)%N then Some n else None
      | None => None
      end
  end.

Fixpoint insert_by_index {A} (n : N) (x : A) (l : list (N * A))
  : list (N * A) :=
  match l with
  | [] => [(n, x)]
  | (m, y) :: rest =>
      if (n <? m)%N then (n, x) :: l else (m, y) :: insert_by_index n x rest
  end.

Definition Object_entries (fs : Folders) : Folders :=
  let indexed :=
    foldl (fun acc e =>
             match array_index (fst e) with
             | Some n => insert_by_index n e acc
             | None => acc
             end) [] fs in
  let named :=
    List.filter (fun e => negb (Js.defined (array_index (fst e)))) fs in
  map snd indexed ++ named.

(** ** background.ts *)

(** The double quote, for the HTML templates. *)
Definition dq : string := String "034" "".

(** The wrapper document of [saveSingleImageDesign]. *)
Definition single_image_document (title base64Data : string) : string :=
  "<!DOCTYPE html><html><head><title>" +:+ title
  +:+ "</title></head><body style=" +:+ dq
  +:+ "margin:0;display:flex;justify-content:center;align-items:center;background:#f0f0f0;"
  +:+ dq +:+ "><img src=" +:+ dq +:+ base64Data +:+ dq +:+ " style=" +:+ dq
  +:+ "max-width:100%;box-shadow:0 4px 6px rgba(0,0,0,0.1);" +:+ dq
  +:+ " /></body></html>".

(** The wrapper document of [processZipData]; its argument is what the
    source splices in, [files.image.name]. *)
Definition wrapper_document (imageName : string) : string :=
  "<!DOCTYPE html><html><head><title>Design</title></head><body style=" +:+ dq
  +:+ "margin:0;display:flex;justify-content:center;align-items:center;"
  +:+ dq +:+ "><img src=" +:+ dq +:+ imageName +:+ dq +:+ " style=" +:+ dq
  +:+ "max-width:100%;" +:+ dq +:+ " /></body></html>".

(** The title clean-up of [processZipData]. *)
Definition derive_title (folderPath : string) : string :=
  let pathParts := Js.split "/" folderPath in
  let title := default "" (pathParts !! (length pathParts - 1)%nat) in
  let title :=
    if String.eqb title "_canvas_screen" && (1 <? length pathParts)%nat
    then default "" (pathParts !! (length pathParts - 2)%nat)
    else title in
  let title := Re.upper_word_starts false (Re.underscores_to_spaces title) in
  Re.strip_vendor title.

(** [const ext = files.image.name.split('.').pop()] and the data URL. *)
Definition image_data_url (imageName imgData : string) : string :=
  let ext := default "" (fst (Js.pop (Js.split "." imageName))) in
  "data:image/" +:+ ext +:+ ";base64," +:+ imgData.

Section Background.

Variable env : Env.

Definition Date_now : M Z :=
  fun w => (Returned (dateNow env (clockReads w)),
            set_reads (S (clockReads w)) (randomReads w) w).

Definition Math_random36 : M string :=
  fun w => (Returned (mathRandom36 env (randomReads w)),
            set_reads (clockReads w) (S (randomReads w)) w).

(** [Date.now().toString() + Math.random().toString(36).substr(2, 9)] *)
Definition fresh_id : M string :=
  t ← Date_now;
  r ← Math_random36;
  mret (Js.number_toString t +:+ Js.substr 2 9 r).

Definition setTimeout (cb : Callback) (delay : Z) : M positive :=
  fun w =>
    let h := nextHandle w in
    (Returned h,
     set_timers
       (timers w ++ [{| handle := h; due := now w + delay; callback := cb |}])
       (Pos.succ h) w).

Definition clearTimeout (h : positive) : M unit :=
  modify (fun w =>
    set_timers
      (List.filter (fun t => negb (handle t =? h)%positive) (timers w))
      (nextHandle w) w).

(** [chrome.tabs.sendMessage] to the first tab of a query answer, when it
    has a truthy [id]. *)
Definition send_to_first (tabs : list (option Z)) (msg : TabMessage)
  : M unit :=
  match tabs with
  | Some id :: _ =>
      when (Js.truthy_number (Some id)) (issue (tabs_sendMessage id msg))
  | _ => mret tt
  end.

Definition broadcastSidePanelState (windowId : Z) (isOpen : bool) : M unit :=
  t ← gets now;
  send_to_first (tabsQuery env t (Some windowId)) (SIDE_PANEL_STATE isOpen).

(** *** Side-panel port: [chrome.runtime.onConnect] *)

(** [msg.type === 'INIT']: returns the [winId] the port remembers. *)
Definition port_INIT (windowId : option Z) : M (option Z) :=
  match windowId with
  | Some id =>
      when (Js.truthy_number windowId)
        (modify (fun w => set_openSidePanels ({[ id ]} ∪ openSidePanels w) w);;
         broadcastSidePanelState id true);;
      mret windowId
  | None => mret windowId
  end.

Definition port_onDisconnect (winId : option Z) : M unit :=
  match winId with
  | Some id =>
      when (Js.truthy_number winId)
        (modify (fun w => set_openSidePanels (openSidePanels w ∖ {[ id ]}) w);;
         broadcastSidePanelState id false)
  | None => mret tt
  end.

(** *** Notification batching *)

(** The function [scheduleNotification] hands to [setTimeout]. *)
Definition flush_notification_callback : M unit :=
  batch ← gets notificationBatch;
  match batch with
  | Some b =>
      modify (set_notificationBatch None);;
      modify (set_notificationTimeout None);;
      let msg := SHOW_XSTITCH_NOTIFICATION (count b) in
      match tabId b with
      | Some id =>
          if Js.truthy_number (Some id)
          then issue (tabs_sendMessage id msg)
          else t ← gets now; send_to_first (tabsQuery env t None) msg
      | None => t ← gets now; send_to_first (tabsQuery env t None) msg
      end
  | None => mret tt
  end.

Definition scheduleNotification (count_ : Z) (tabId_ : option Z) : M unit :=
  timeout ← gets notificationTimeout;
  match timeout with
  | Some h => clearTimeout h
  | None => mret tt
  end;;
  batch ← gets notificationBatch;
  match batch with
  | Some b =>
      modify (set_notificationBatch
                (Some {| count := count b + count_;
                         tabId := if Js.truthy_number tabId_
                                  then tabId_ else tabId b |}))
  | None =>
      modify (set_notificationBatch
                (Some {| count := count_; tabId := tabId_ |}))
  end;;
  h ← setTimeout flush_notification 1000;
  modify (set_notificationTimeout (Some h)).

(** *** Timers *)

Definition run_callback (cb : Callback) : M unit :=
  match cb with
  | flush_notification => flush_notification_callback
  | reenable_panel tabId_ windowId isStuck =>
      issue (sidePanel_setOptions tabId_ true (Some "index.html"));;
      when isStuck (broadcastSidePanelState windowId false)
  end.

(** The pending timer that fires next: the earliest due time, and among
    equal due times the one registered first. *)
Fixpoint next_timer (ts : list Timer) : option Timer :=
  match ts with
  | [] => None
  | t :: rest =>
      match next_timer rest with
      | Some t' => if due t' <? due t then Some t' else Some t
      | None => Some t
      end
  end.

(** Letting time pass until [t]: every timer due by then fires, in order.
    No callback of this program registers a timer, so the number of
    pending timers bounds the number of rounds. *)
Fixpoint fire_due (rounds : nat) (t : Z) : M unit :=
  match rounds with
  | O => mret tt
  | S rounds' =>
      ts ← gets timers;
      match next_timer ts with
      | Some tm =>
          if due tm <=? t then
            clearTimeout (handle tm);;
            modify (fun w => set_now (Z.max (now w) (due tm)) w);;
            run_callback (callback tm);;
            fire_due rounds' t
          else mret tt
      | None => mret tt
      end
  end.

Definition advance (t : Z) : M unit :=
  ts ← gets timers;
  fire_due (length ts) t;;
  modify (fun w => set_now (Z.max (now w) t) w).

(** *** Storage *)

(** [chrome.storage.local.get(['capturedItems'], result => { ... set })]
    with the callback run at once: prepend to [result.capturedItems || []]
    and write the whole collection back. *)
Definition storage_prepend (newItems : list CapturedItem.t) : M unit :=
  st ← gets storage;
  let currentItems := default [] (capturedItems st) in
  let updatedItems := newItems ++ currentItems in
  modify (set_storage {| capturedItems := Some updatedItems;
                         previewData := previewData st |});;
  issue (storage_local_set updatedItems).

(** *** [saveSingleImageDesign] *)

Definition single_image_title (filename : string) : string :=
  let base := default "" (fst (Js.pop (Js.split "/" filename))) in
  Js.or_default (Js.split "." base !! 0%nat) "Captured Image".

Definition saveSingleImageDesign (base64Data sourceUrl_ filename : string)
  : M unit :=
  let title_ := single_image_title filename in
  id_ ← fresh_id;
  timestamp_ ← Date_now;
  let newItem :=
    CapturedItem.mk id_ timestamp_
      (single_image_document title_ base64Data)
      (Some base64Data) sourceUrl_ (Some title_) None in
  storage_prepend [newItem].

(** *** [processZipData] *)

(** One round of the loop over [Object.entries(folders)]: the item the
    round pushes, if any. *)
Definition reconstruct_group (sourceUrl_ : string)
    (entry : string * Folder.t) : M (option CapturedItem.t) :=
  let '(folderPath, own) := entry in
  proto ← gets objectPrototype;
  (* files.html and files.image are read through the prototype chain *)
  let files := inherit proto own in
  if Js.defined (Folder.html files) || Js.defined (Folder.image files) then
    htmlContent ←
      match Folder.html files with
      | Some f => await (ZipObject.async_string f) "async(string) rejected"
      | None => mret ""
      end;
    imageBase64 ←
      match Folder.image files with
      | Some f =>
          imgData ← await (ZipObject.async_base64 f) "async(base64) rejected";
          mret (Some (image_data_url (ZipObject.name f) imgData))
      | None => mret None
      end;
    let htmlContent :=
      if negb (Js.truthy_string htmlContent) && Js.defined imageBase64
      then wrapper_document
             (default "" (ZipObject.name <$> Folder.image files))
      else htmlContent in
    let title_ := derive_title folderPath in
    id_ ← fresh_id;
    timestamp_ ← Date_now;
    mret (Some (CapturedItem.mk id_ timestamp_ htmlContent imageBase64
                  sourceUrl_ (Some title_) None))
  else mret None.

Fixpoint reconstruct_groups (sourceUrl_ : string) (entries : Folders)
  : M (list CapturedItem.t) :=
  match entries with
  | [] => mret []
  | entry :: rest =>
      item ← reconstruct_group sourceUrl_ entry;
      items ← reconstruct_groups sourceUrl_ rest;
      mret (option_list item ++ items)
  end.

(** The body of the [try] block up to the filled [newItems]. *)
Definition reconstruct (base64DataUrl sourceUrl_ : string)
  : M (list CapturedItem.t) :=
  let base64Data := Js.split "," base64DataUrl !! 1%nat in
  zip ← await (loadAsync env base64Data) "loadAsync rejected";
  proto ← gets objectPrototype;
  let '(proto', folders) := group_files proto zip in
  modify (set_objectPrototype proto');;
  reconstruct_groups sourceUrl_ (Object_entries folders).

Definition processZipData (base64DataUrl sourceUrl_ : string)
    (tabId_ : option Z) : M unit :=
  try_catch
    (newItems ← reconstruct base64DataUrl sourceUrl_;
     when (0 <? length newItems)%nat
       (storage_prepend newItems;;
        scheduleNotification (Z.of_nat (length newItems)) tabId_))
    (fun err => issue (console_error "[XStitch] Failed to process zip:")).

(** *** The [chrome.runtime.onMessage] listener *)

(** The listener returns [true] when it will answer asynchronously. *)
Definition onMessage (request : Request) (sender : Sender) : M bool :=
  match request with
  | BLOB_DATA_CAPTURED url data =>
      processZipData data url (sender_tab_id sender);;
      mret false
  | OPEN_SIDE_PANEL =>
      match sender_tab_windowId sender with
      | Some windowId =>
          when (Js.truthy_number (Some windowId))
            (issue (sidePanel_open windowId))
      | None => mret tt
      end;;
      mret false
  | TOGGLE_SIDE_PANEL =>
      match sender_tab_windowId sender, sender_tab_id sender with
      | Some windowId, Some tabId_ =>
          when (Js.truthy_number (Some windowId)
                && Js.truthy_number (Some tabId_))
            (now_ ← Date_now;
             times ← gets lastToggleTimes;
             let lastToggle := default 0 (times !! tabId_) in
             modify (set_lastToggleTimes (<[tabId_ := now_]> times));;
             open_ ← gets openSidePanels;
             let isOpen := bool_decide (windowId ∈ open_) in
             let isStuck := negb isOpen && (now_ - lastToggle <? 1000) in
             if isOpen || isStuck then
               (* the completion callback of setOptions is run at once *)
               issue (sidePanel_setOptions tabId_ false None);;
               h ← setTimeout (reenable_panel tabId_ windowId isStuck) 10;
               mret tt
             else
               issue (sidePanel_setOptions tabId_ true (Some "index.html"));;
               issue (sidePanel_open windowId))
      | _, _ => mret tt
      end;;
      mret false
  | FETCH_IMAGE_BASE64 url =>
      issue (fetch url);;
      mret true
  | STITCH_EXPORT_FULL _ => mret false
  | OTHER_REQUEST _ => mret false
  end.

End Background.

(** ** content.ts: the export trigger of the Bridge *)

Module Content.

Inductive Toast :=
| SelectedCodeCaptured
| Analyzing
| VisibleCodeCaptured
| SourceCodeCaptured
| NoDesignOrCodeFound
| ImageCaptured
| ExportFailed.

Inductive Action :=
| runtime_sendMessage (request : Request)
| showToast (t : Toast).

(** What [handleExportTrigger] reads from the page. *)
Record Page := {
  (** [window.getSelection()], as its [toString()] *)
  selection : option string;
  (** [window.location.href] *)
  href : string;
  (** [Date.now()] and [lastMouseMoveTime] *)
  page_now : Z;
  lastMouseMoveTime : Z;
  (** what [tryGetCodeFromEditor()] resolves to *)
  codeFromEditor : option string;
  (** the design node under the last right click or the cursor, if any,
      as the results of [getCleanWrapper] and [getHighResImage] on it;
      [Some None] when one of them throws *)
  targetNode : option (option (string * option string))
}.

(** Strategy 2 of [handleExportTrigger]: the visual capture. *)
Definition visual_capture (p : Page) : list Action :=
  match targetNode p with
  | None => [showToast NoDesignOrCodeFound]
  | Some None => [showToast ExportFailed]
  | Some (Some (cleanWrapper, imageUrl)) =>
      [ runtime_sendMessage
          (STITCH_EXPORT_FULL
             {| payload_html := cleanWrapper;
                payload_image := imageUrl;
                payload_sourceUrl := href p;
                payload_title := "Visual Capture" |});
        showToast ImageCaptured ]
  end.

Definition handleExportTrigger (p : Page) : list Action :=
  let selected :=
    match selection p with
    | Some s => (50 <? String.length s)%nat
    | None => false
    end in
  if selected then
    [ runtime_sendMessage
        (STITCH_EXPORT_FULL
           {| payload_html := default "" (selection p);
              payload_image := None;
              payload_sourceUrl := href p;
              payload_title := "Selected Code" |});
      showToast SelectedCodeCaptured ]
  else if 2000 <? page_now p - lastMouseMoveTime p then []
  else
    showToast Analyzing ::
    match codeFromEditor p with
    | Some codeContent =>
        if Js.truthy_string codeContent then
          [ runtime_sendMessage
              (STITCH_EXPORT_FULL
                 {| payload_html := codeContent;
                    payload_image := None;
                    payload_sourceUrl := href p;
                    payload_title := "Source Code" |});
            showToast
              (if Js.includes "<!-- NOTE: Captured VISIBLE code only"
                    codeContent
               then VisibleCodeCaptured else SourceCodeCaptured) ]
        else visual_capture p
    | None => visual_capture p
    end.

End Content.

(** ** The rename handlers of the user interface *)

(** [replace(/[...]/g, '').trim()], shared by both handlers. *)
Definition sanitize_title (input : string) : string :=
  Js.trim (Re.strip_invalid input).

(** [items.map(item => item.id === id ? { ...item, title } : item)] *)
Definition retitle (id_ title_ : string) (items : list CapturedItem.t)
  : list CapturedItem.t :=
  map (fun item =>
         if String.eqb (CapturedItem.id item) id_
         then CapturedItem.with_title (Some title_) item else item)
      items.

Module App.
(** The side panel: its [items] state and the store. *)
Record State := { items : list CapturedItem.t; store : Storage }.

Definition handleRename (id_ newTitle : string) (s : State) : State :=
  let newItems := retitle id_ newTitle (items s) in
  {| items := newItems;
     store := {| capturedItems := Some newItems;
                 previewData := previewData (store s) |} |}.
End App.

Module ExportCard.
Record State := { newTitle : string; isEditing : bool }.

(** [handleSaveTitle] of a card showing [item]; [onRename] is
    [App.handleRename]. *)
Definition handleSaveTitle (item : CapturedItem.t) (s : State)
    (app : App.State) : State * App.State :=
  let sanitized := sanitize_title (newTitle s) in
  if Js.truthy_string sanitized then
    ({| newTitle := sanitized; isEditing := false |},
     App.handleRename (CapturedItem.id item) sanitized app)
  else
    ({| newTitle := Js.or_default (CapturedItem.title item) "Untitled Design";
        isEditing := false |},
     app).
End ExportCard.

Module PreviewApp.
Record State := {
  data : option CapturedItem.t;
  titleInput : string;
  isEditingTitle : bool
}.

Definition handleSaveTitle (s : State) (st : Storage) : State * Storage :=
  match data s with
  | None => (s, st)
  | Some d =>
      let sanitized := sanitize_title (titleInput s) in
      let finalTitle :=
        if Js.truthy_string sanitized then sanitized
        else "Untitled Design" in
      let newData := CapturedItem.with_title (Some finalTitle) d in
      let items := default [] (capturedItems st) in
      let updatedItems := retitle (CapturedItem.id d) finalTitle items in
      ({| data := Some newData; titleInput := finalTitle;
          isEditingTitle := false |},
       {| capturedItems := Some updatedItems; previewData := Some newData |})
  end.
End PreviewApp.

(** ** Vocabulary of the properties *)

(** The last character of a string. *)
Fixpoint last_char (s : string) : option ascii :=
  match s with
  | "" => None
  | String c "" => Some c
  | String _ rest => last_char rest
  end.

(** An enumerated entry belongs to the directory group [k]. *)
Definition in_group (k : string) (f : ZipObject.t) : bool :=
  negb (ZipObject.dir f) && String.eqb (folderPath_of (ZipObject.name f)) k.

(** ... and is named [index.html], [code.html] or [*.html]. *)
Definition html_entry (k : string) (f : ZipObject.t) : bool :=
  in_group k f && is_html_name (fileName_of (ZipObject.name f)).

(** ... and has a raster-image extension. *)
Definition image_entry (k : string) (f : ZipObject.t) : bool :=
  in_group k f && Re.image_ext (fileName_of (ZipObject.name f)).

Definition first_entry (p : ZipObject.t -> bool) (zip : list ZipObject.t)
  : option ZipObject.t := List.find p zip.

Definition last_entry (p : ZipObject.t -> bool) (zip : list ZipObject.t)
  : option ZipObject.t := last (List.filter p zip).

(** What a group ends up holding. *)
Definition chosen_html (k : string) (fs : Folders) : option ZipObject.t :=
  own_property k fs ≫= Folder.html.
Definition chosen_image (k : string) (fs : Folders) : option ZipObject.t :=
  own_property k fs ≫= Folder.image.

(** A file directly in a folder named [__proto__]: the object it is
    grouped under is [Object.prototype]. *)
Definition pollutes (f : ZipObject.t) : bool := in_group "__proto__" f.

(** [k] names a group: a folder path for which the callback creates an own
    property of [folders]. *)
Definition names_group (proto : Folder.t) (k : string) : bool :=
  negb (String.eqb k "__proto__") && negb (inherited_key proto k).

(** The own properties of [folders] as the second loop reads them, with
    what each inherits. *)
Definition as_read (proto : Folder.t) (fs : Folders) : Folders :=
  map (fun e => (fst e, inherit proto (snd e))) fs.

Definition prototype_image (proto : Folder.t) (zip : list ZipObject.t)
  : option ZipObject.t :=
  match Folder.image proto with
  | Some f => Some f
  | None => first_entry (image_entry "__proto__") zip
  end.

(** The image entry a group takes as its own: its first one, if it is
    enumerated while [Object.prototype] has no image. *)
Definition taken_image (proto : Folder.t) (k : string)
    (zip : list ZipObject.t) : option ZipObject.t :=
  if Js.defined (Folder.image proto) then None
  else
    match
      first_entry (fun f => image_entry k f || image_entry "__proto__" f) zip
    with
    | Some f => if in_group k f then Some f else None
    | None => None
    end.

(** An entry that neither branch of the grouping callback takes. *)
Definition non_matching (f : ZipObject.t) : bool :=
  ZipObject.dir f
  || (negb (is_html_name (fileName_of (ZipObject.name f)))
      && negb (Re.image_ext (fileName_of (ZipObject.name f)))).



(** The characters a rename strips, as the specification lists them. *)
Definition invalid_chars : list ascii :=
  ["<"; ">"; ":"; "034"; "/"; "\"; "|"; "?"; "*"]%char.

(** Removing every occurrence of the listed characters, and nothing else. *)
Fixpoint remove_chars (cs : list ascii) (s : string) : string :=
  match s with
  | "" => ""
  | String c rest =>
      if bool_decide (c ∈ cs) then remove_chars cs rest
      else String c (remove_chars cs rest)
  end.

(** The stored title of the item with a given id, if it is stored. *)
Definition stored_title (id_ : string) (st : Storage)
  : option (option string) :=
  CapturedItem.title <$>
    List.find (fun it => String.eqb (CapturedItem.id it) id_)
              (default [] (capturedItems st)).

(** The notifications among the calls. *)
Definition notifications (cs : list Call) : list (Z * Z) :=
  omap (fun c => match c with
                 | tabs_sendMessage t (SHOW_XSTITCH_NOTIFICATION n) => Some (t, n)
                 | _ => None
                 end) cs.

(** The tab a flushed batch is delivered to: the remembered tab, or the
    first active tab of the current window. *)
Definition delivery_target (env : Env) (t : Z) (remembered : option Z)
  : option Z :=
  if Js.truthy_number remembered then remembered
  else match tabsQuery env t None with
       | Some id :: _ => if Js.truthy_number (Some id) then Some id else None
       | _ => None
       end.

(** The tab remembered after events carrying [a] then [b]. *)
Definition remember (a b : option Z) : option Z :=
  if Js.truthy_number b then b else a.

Definition is_open_call (c : Call) : bool :=
  match c with sidePanel_open _ => true | _ => false end.

(** Cleaning a title: underscores to spaces, each word capitalised, the
    vendor prefix stripped. *)
Definition clean_title (segment : string) : string :=
  Re.strip_vendor
    (Re.upper_word_starts false (Re.underscores_to_spaces segment)).

(** The last segment of a path. *)
Definition last_segment (path : string) : string :=
  default "" (last (Js.split "/" path)).

Definition first_char (s : string) : option ascii :=
  match s with "" => None | String c _ => Some c end.

Fixpoint all_space (s : string) : bool :=
  match s with
  | "" => true
  | String c rest => Js.is_space c && all_space rest
  end.

(** No white space at either end. *)
Definition trimmed (s : string) : Prop :=
  (forall c, first_char s = Some c -> Js.is_space c = false)
  /\ (forall c, last_char s = Some c -> Js.is_space c = false).

(** A world that differs from another in the oracle positions only. *)
Definition reads_only (w w' : World) : Prop :=
  exists c r, w' = set_reads c r w.

(** ... or in the oracle positions and in [Object.prototype] only. *)
Definition grouped_only (w w' : World) : Prop :=
  exists c r p, w' = set_reads c r (set_objectPrototype p w).


(** The batch after one more event. *)
Definition merged (b : option Batch) (c : Z) (t : option Z) : Batch :=
  match b with
  | Some b => {| count := count b + c; tabId := remember (tabId b) t |}
  | None => {| count := c; tabId := t |}
  end.

(** The timers left by [clearTimeout] of the stored handle. *)
Definition uncleared (w : World) : list Timer :=
  match notificationTimeout w with
  | Some h => List.filter (fun t => negb (handle t =? h)%positive) (timers w)
  | None => timers w
  end.

(** No batch is open and no timer is pending. *)
Definition idle (w : World) : Prop :=
  notificationBatch w = None /\ timers w = [].

(** A batch is open and its flush is the one pending timer. *)
Definition armed (w : World) (b : Batch) (d : Z) : Prop :=
  notificationBatch w = Some b
  /\ exists h, notificationTimeout w = Some h
              /\ timers w = [{| handle := h; due := d;
                                callback := flush_notification |}].

(** What a flush of batch [b] at time [t] sends. *)
Definition delivery (env : Env) (t : Z) (b : Batch) : list Call :=
  match delivery_target env t (tabId b) with
  | Some id => [tabs_sendMessage id (SHOW_XSTITCH_NOTIFICATION (count b))]
  | None => []
  end.

(** Three ingestion events at times [t1], [t2], [t3], each a call of
    [scheduleNotification], and then time passing until [T]. *)
Definition three_events (env : Env)
    (t1 c1 : Z) (tab1 : option Z) (t2 c2 : Z) (tab2 : option Z)
    (t3 c3 : Z) (tab3 : option Z) (T : Z) : M unit :=
  advance env t1;; scheduleNotification c1 tab1;;
  advance env t2;; scheduleNotification c2 tab2;;
  advance env t3;; scheduleNotification c3 tab3;;
  advance env T.

(** The sender of a message from a tab. *)
Definition tab_sender (tabId_ windowId : Z) : Sender :=
  {| sender_tab_id := Some tabId_; sender_tab_windowId := Some windowId |}.

(** ** Concrete inputs *)

Module Sample.

Definition no_storage : Storage :=
  {| capturedItems := None; previewData := None |}.

Definition start : World := fresh_world no_storage 0.

Definition entry (name_ text base64 : string) : ZipObject.t :=
  ZipObject.mk name_ false (Some text) (Some base64).

(** Two HTML entries in one folder. *)
Definition index_html : ZipObject.t :=
  entry "Screen/index.html" "<h1>first</h1>" "PGgxPmZpcnN0PC9oMT4=".
Definition code_html : ZipObject.t :=
  entry "Screen/code.html" "<h1>second</h1>" "PGgxPnNlY29uZDwvaDE+".
Definition two_html : list ZipObject.t := [index_html; code_html].

(** A folder that holds only a preview image. *)
Definition preview_png : ZipObject.t :=
  entry "Screen/preview.png" "" "iVBORw0KGgo=".
Definition image_only : list ZipObject.t := [preview_png].


(** The folders of the title examples. *)
Definition titled : list ZipObject.t :=
  [ entry "Home_Page/_canvas_screen/code.html" "<p>a</p>" "PHA+YTwvcD4=";
    entry "My_Button/index.html" "<p>b</p>" "PHA+YjwvcD4=";
    entry "Stitch_Landing/index.html" "<p>c</p>" "PHA+YzwvcD4=" ].

(** A browser whose codec answers with a fixed archive for the payload
    [ok] and rejects everything else, and which has no active tab. *)
Definition browser (zip : list ZipObject.t) : Env :=
  {| dateNow := fun n => 1700000000000 + Z.of_nat n;
     mathRandom36 := fun _ => "0.4fzyo82mvyr";
     loadAsync := fun d =>
       match d with
       | Some "ok" => Some zip
       | _ => None
       end;
     tabsQuery := fun _ _ => [] |}.

Definition data_url : string := "data:application/zip;base64,ok".
Definition junk_url : string := "data:application/zip;base64,junk".

(** An archive with an HTML file directly in a folder named [__proto__],
    and an archive with nothing the grouping takes. *)
Definition proto_html : ZipObject.t :=
  entry "__proto__/index.html" "<h1>kept</h1>" "PGgxPmtlcHQ8L2gxPg==".
Definition prototype_folder : list ZipObject.t := [proto_html].
Definition readme : ZipObject.t :=
  entry "docs/readme.txt" "notes" "bm90ZXM=".
Definition notes_only : list ZipObject.t := [readme].

(** A browser whose codec answers the payload [ok] with one archive and
    the payload [next] with another. *)
Definition browser_of_two (zip zip' : list ZipObject.t) : Env :=
  {| dateNow := fun n => 1700000000000 + Z.of_nat n;
     mathRandom36 := fun _ => "0.4fzyo82mvyr";
     loadAsync := fun d =>
       match d with
       | Some "ok" => Some zip
       | Some "next" => Some zip'
       | _ => None
       end;
     tabsQuery := fun _ _ => [] |}.
Definition next_url : string := "data:application/zip;base64,next".
Definition source : string := "blob:https://stitch.withgoogle.com/1".

(** A page with a selection of 55 characters. *)
Definition selecting : Content.Page :=
  {| Content.selection :=
       Some "<main><h1>Landing</h1><p>Welcome to the page</p></main>";
     Content.href := "https://stitch.withgoogle.com/projects/1";
     Content.page_now := 1700000000000;
     Content.lastMouseMoveTime := 1700000000000;
     Content.codeFromEditor := None;
     Content.targetNode := None |}.

(** A stored item titled [Login], and the side panel showing it. *)
Definition login : CapturedItem.t :=
  CapturedItem.mk "1700000000000abc" 1700000000000 "<form></form>" None
    source (Some "Login") None.
Definition panel : App.State :=
  {| App.items := [login];
     App.store := {| capturedItems := Some [login]; previewData := None |} |}.

End Sample.

(** * Further parts of the extension *)

(** ** Runs of ingestion events *)

(** An ingestion event: when it arrives, how many items it saved, and the
    tab it came from. *)
Record Arrival := {
  arrival_time : Z;
  arrival_count : Z;
  arrival_tab : option Z
}.

(** The events of a list arrive one after the other; each is a call of
    [scheduleNotification] at its arrival time. *)
Fixpoint arrivals (env : Env) (evs : list Arrival) : M unit :=
  match evs with
  | [] => mret tt
  | e :: rest =>
      advance env (arrival_time e);;
      scheduleNotification (arrival_count e) (arrival_tab e);;
      arrivals env rest
  end.

(** Each event arrives less than one second after the one before. *)
Fixpoint chained (prev : Z) (evs : list Arrival) : Prop :=
  match evs with
  | [] => True
  | e :: rest =>
      prev <= arrival_time e < prev + 1000 /\ chained (arrival_time e) rest
  end.

Definition last_arrival (first : Arrival) (rest : list Arrival) : Z :=
  List.last (map arrival_time rest) (arrival_time first).

Definition total_count (evs : list Arrival) : Z :=
  foldr (fun e n => arrival_count e + n) 0 evs.

(** The tab of the latest event that has one. *)
Definition latest_tab (first : Arrival) (rest : list Arrival) : option Z :=
  foldl (fun t e => remember t (arrival_tab e)) (arrival_tab first) rest.

(** ** Vocabulary for groups and paths *)

(** A character occurs in a string. *)
Fixpoint contains_char (c : ascii) (s : string) : bool :=
  match s with
  | "" => false
  | String d rest => Ascii.eqb d c || contains_char c rest
  end.

(** A group holds an HTML entry or an image entry. *)
Definition has_entry (e : string * Folder.t) : bool :=
  Js.defined (Folder.html (snd e)) || Js.defined (Folder.image (snd e)).

(** The entries a group holds can be decoded: [async("string")] of the
    HTML entry and [async("base64")] of the image entry resolve. *)
Definition decodes (e : string * Folder.t) : bool :=
  match Folder.html (snd e) with
  | Some f => Js.defined (ZipObject.async_string f)
  | None => true
  end
  && match Folder.image (snd e) with
     | Some f => Js.defined (ZipObject.async_base64 f)
     | None => true
     end.

(** What is known of an item before it is emitted: its title and its
    source. *)
Definition label_of (it : CapturedItem.t) : option string * string :=
  (CapturedItem.title it, CapturedItem.sourceUrl it).

Definition group_label (src : string) (e : string * Folder.t)
  : option string * string :=
  (Some (derive_title (fst e)), src).

(** The folder keys in the order in which they are first met. *)
Fixpoint first_seen (seen ks : list string) : list string :=
  match ks with
  | [] => []
  | k :: rest =>
      if bool_decide (k ∈ seen) then first_seen seen rest
      else k :: first_seen (seen ++ [k]) rest
  end.

(** The folder of every enumerated file, directories left out. *)
Definition file_folders (zip : list ZipObject.t) : list string :=
  map (fun f => folderPath_of (ZipObject.name f))
      (List.filter (fun f => negb (ZipObject.dir f)) zip).

(** ** background.ts: downloads and tab visibility *)

(** [s.startsWith(prefix)]. *)
Definition startsWith (prefix s : string) : bool := String.prefix prefix s.

Module Settings.
(** The [settings] record of [chrome.storage.local]; a toggle that was
    never written is [undefined]. *)
Record t := mk {
  cancelDownloads : option bool;
  experimentalMode : option bool
}.
End Settings.

(** [settings?.field] as a condition. *)
Definition setting (field : Settings.t -> option bool)
    (settings : option Settings.t) : bool :=
  match settings with
  | Some s => default false (field s)
  | None => false
  end.

Definition STITCH_DOMAINS : list string :=
  ["stitch.withgoogle.com"; "appspot.com"].

(** content.ts, the callback of [chrome.storage.local.get(['settings'])]
    at the start of the content script: whether [runContentScript] is
    called on the page at [href]. *)
Definition content_script_runs (settings : option Settings.t)
    (href : string) : bool :=
  let experimental := setting Settings.experimentalMode settings in
  let isStitch :=
    existsb (fun d => Js.includes d href)
      ["stitch.withgoogle.com"; "appspot.com"] in
  experimental || isStitch.

Definition isStitchUrl (url : option string) : bool :=
  match url with
  | Some u =>
      Js.truthy_string u && existsb (fun d => Js.includes d u) STITCH_DOMAINS
  | None => false
  end.

(** The argument of [chrome.tabs.onUpdated]. *)
Record ChangeInfo := {
  change_status : option string;
  change_url : option string
}.

Module DownloadItem.
Record t := mk {
  id : Z;
  filename : string;
  mime : string;
  url : string;
  referrer : option string
}.
End DownloadItem.

(** [isStitchOrigin] of the download listener. *)
Definition isStitchOrigin (d : DownloadItem.t) : bool :=
  match DownloadItem.referrer d with
  | Some r =>
      Js.truthy_string r
      && (Js.includes "stitch.withgoogle.com" r || Js.includes "appspot.com" r)
  | None => false
  end
  || (Js.truthy_string (DownloadItem.url d)
      && (Js.includes "stitch.withgoogle.com" (DownloadItem.url d)
          || Js.includes "appspot.com" (DownloadItem.url d))).

Definition is_zip_download (d : DownloadItem.t) : bool :=
  String.eqb (DownloadItem.mime d) "application/zip"
  || Js.endsWith ".zip" (DownloadItem.filename d).

Definition is_image_download (d : DownloadItem.t) : bool :=
  startsWith "image/" (DownloadItem.mime d)
  || Re.image_ext (DownloadItem.filename d).

Section Downloads.

Variable env : Env.

(** [fetch(url)], [response.blob()] and [FileReader.readAsDataURL]: the
    data URL the reader ends with, [None] when the fetch rejects. *)
Variable fetchDataUrl : string -> option string.

Definition updateSidePanelVisibility (settings : option Settings.t)
    (tabId_ : Z) (url : option string) : M unit :=
  if isStitchUrl url || setting Settings.experimentalMode settings
  then issue (sidePanel_setOptions tabId_ true (Some "index.html"))
  else issue (sidePanel_setOptions tabId_ false None).

(** The [chrome.tabs.onUpdated] listener. *)
Definition onUpdated (settings : option Settings.t) (tabId_ : Z)
    (changeInfo : ChangeInfo) (tab_url : option string) : M unit :=
  if match change_status changeInfo with
     | Some s => String.eqb s "complete"
     | None => false
     end
     || Js.truthy_string (default "" (change_url changeInfo))
  then updateSidePanelVisibility settings tabId_ tab_url
  else mret tt.

(** The [chrome.tabs.onActivated] listener; [tab] is what
    [chrome.tabs.get] resolves to, [None] when it rejects. *)
Definition onActivated (settings : option Settings.t) (tabId_ : Z)
    (tab : option (option string)) : M unit :=
  match tab with
  | Some tab_url => updateSidePanelVisibility settings tabId_ tab_url
  | None => mret tt
  end.

(** [try { fetch ...; reader.onloadend = () => use(data) } catch (e)
    { console.error(message, e) }] under [if (url.startsWith('http'))]. *)
Definition fetch_then (url : string) (use : string -> M unit)
    (message : string) : M unit :=
  if startsWith "http" url then
    issue (fetch url);;
    match fetchDataUrl url with
    | Some base64data => use base64data
    | None => issue (console_error message)
    end
  else mret tt.

(** The [chrome.downloads.onCreated] listener, given the stored settings;
    it returns the downloads it cancels. *)
Definition onCreated (settings : option Settings.t) (d : DownloadItem.t)
  : M (list Z) :=
  let shouldCancel := setting Settings.cancelDownloads settings in
  let cancelled := if shouldCancel then [DownloadItem.id d] else [] in
  if negb (isStitchOrigin d) then mret []
  else if is_zip_download d then
    fetch_then (DownloadItem.url d)
      (fun base64data => processZipData env base64data (DownloadItem.url d) None)
      "[XStitch] Failed to fetch download URL:";;
    mret cancelled
  else if is_image_download d then
    fetch_then (DownloadItem.url d)
      (fun base64data =>
         saveSingleImageDesign env base64data (DownloadItem.url d)
           (DownloadItem.filename d))
      "[XStitch] Failed to fetch image URL:";;
    mret cancelled
  else mret [].

End Downloads.

(** What [broadcastSidePanelState] sends at time [t]. *)
Definition broadcast (env : Env) (t windowId : Z) (isOpen : bool)
  : list Call :=
  match tabsQuery env t (Some windowId) with
  | Some id :: _ =>
      if Js.truthy_number (Some id)
      then [tabs_sendMessage id (SIDE_PANEL_STATE isOpen)] else []
  | _ => []
  end.

(** The life of a side panel that is closed with the overlay button: the
    panel connects, the button is clicked, time passes until [T], and the
    port of the closed panel disconnects. *)
Definition panel_session (env : Env) (windowId tabId_ T : Z) : M unit :=
  winId ← port_INIT env (Some windowId);
  onMessage env TOGGLE_SIDE_PANEL (tab_sender tabId_ windowId);;
  advance env T;;
  port_onDisconnect env winId.

(** ** content.ts: the notification of the page *)

Module Notice.

(** An element of class [xstitch-notification]: [count] is the number its
    text announces. *)
Record Element := { element_id : nat; count : Z }.

(** A pending [window.setTimeout] of the content script: it removes the
    element [target]. *)
Record PageTimer := { handle : positive; due : Z; target : nat }.

Record State := {
  (** [window === window.top] *)
  isTopFrame : bool;
  lastNotificationTime : Z;
  notificationTimeout : option positive;
  (** [document.querySelectorAll('.xstitch-notification')] *)
  elements : list Element;
  timers : list PageTimer;
  nextHandle : positive;
  nextElement : nat
}.

(** The content script of a frame when it has just run. *)
Definition loaded (top : bool) : State :=
  {| isTopFrame := top; lastNotificationTime := 0;
     notificationTimeout := None; elements := []; timers := [];
     nextHandle := 1%positive; nextElement := 0%nat |}.

(** [showXStitchNotification(count)] when [Date.now()] is [now_]. *)
Definition showXStitchNotification (count_ now_ : Z) (s : State) : State :=
  if negb (isTopFrame s) then s
  else if now_ - lastNotificationTime s <? 2000 then s
  else
    let cleared :=
      match notificationTimeout s with
      | Some h =>
          List.filter (fun t => negb (handle t =? h)%positive) (timers s)
      | None => timers s
      end in
    let notification := {| element_id := nextElement s; count := count_ |} in
    let h := nextHandle s in
    {| isTopFrame := isTopFrame s;
       lastNotificationTime := now_;
       notificationTimeout := Some h;
       elements := [notification];
       timers := cleared ++ [{| handle := h; due := now_ + 10000;
                                target := nextElement s |}];
       nextHandle := Pos.succ h;
       nextElement := S (nextElement s) |}.

(** The message listener on [SHOW_XSTITCH_NOTIFICATION]:
    [showXStitchNotification(request.count || 1)]. *)
Definition onMessage (msg : TabMessage) (now_ : Z) (s : State) : State :=
  match msg with
  | SHOW_XSTITCH_NOTIFICATION n =>
      showXStitchNotification (if Js.truthy_number (Some n) then n else 1)
        now_ s
  | SIDE_PANEL_STATE _ => s
  end.

(** [notification.remove()]. *)
Definition remove (e : nat) (s : State) : State :=
  {| isTopFrame := isTopFrame s;
     lastNotificationTime := lastNotificationTime s;
     notificationTimeout := notificationTimeout s;
     elements :=
       List.filter (fun n => negb (Nat.eqb (element_id n) e)) (elements s);
     timers := timers s;
     nextHandle := nextHandle s;
     nextElement := nextElement s |}.

(** A click on the close button of element [e]. *)
Definition click_close (e : nat) (s : State) : State := remove e s.

(** The callback of the timer: [notification.remove();
    notificationTimeout = null]. *)
Definition expire (t : PageTimer) (s : State) : State :=
  let s1 := remove (target t) s in
  {| isTopFrame := isTopFrame s1;
     lastNotificationTime := lastNotificationTime s1;
     notificationTimeout := None;
     elements := elements s1;
     timers :=
       List.filter (fun t' => negb (handle t' =? handle t)%positive)
                   (timers s1);
     nextHandle := nextHandle s1;
     nextElement := nextElement s1 |}.

(** The pending timer that fires next. *)
Fixpoint next_timer (ts : list PageTimer) : option PageTimer :=
  match ts with
  | [] => None
  | t :: rest =>
      match next_timer rest with
      | Some t' => if due t' <? due t then Some t' else Some t
      | None => Some t
      end
  end.

Fixpoint fire_due (rounds : nat) (t : Z) (s : State) : State :=
  match rounds with
  | O => s
  | S rounds' =>
      match next_timer (timers s) with
      | Some tm =>
          if due tm <=? t then fire_due rounds' t (expire tm s) else s
      | None => s
      end
  end.

(** Time passes until [t]. *)
Definition advance (t : Z) (s : State) : State :=
  fire_due (length (timers s)) t s.

(** What happens to the page. *)
Inductive Event :=
| Message (msg : TabMessage)
| CloseClicked (e : nat).

Definition handle_event (ev : Event) (now_ : Z) (s : State) : State :=
  match ev with
  | Message msg => onMessage msg now_ s
  | CloseClicked e => click_close e s
  end.

(** A history: each event with the time at which it happens. *)
Fixpoint play (history : list (Z * Event)) (s : State) : State :=
  match history with
  | [] => s
  | (t, ev) :: rest => play rest (handle_event ev t (advance t s))
  end.

(** What [request.count || 1] announces. *)
Definition announced (n : Z) : Z :=
  if Js.truthy_number (Some n) then n else 1.

(** The bookkeeping of the page is in order: at most one timer is pending,
    it is the one [notificationTimeout] names, it is due ten seconds after
    the last notification was shown, and the only element there can be is
    the one it removes. *)
Definition tidy (s : State) : Prop :=
  match timers s with
  | [] => notificationTimeout s = None /\ elements s = []
  | [t] =>
      notificationTimeout s = Some (handle t)
      /\ due t = lastNotificationTime s + 10000
      /\ (elements s = []
          \/ exists c, elements s = [{| element_id := target t; count := c |}])
  | _ => False
  end.

End Notice.

(** ** App.tsx and ExportCard.tsx: the other handlers of the side panel *)

Definition App_handleDelete (id_ : string) (s : App.State) : App.State :=
  let newItems :=
    List.filter (fun item => negb (String.eqb (CapturedItem.id item) id_))
                (App.items s) in
  {| App.items := newItems;
     App.store := {| capturedItems := Some newItems;
                     previewData := previewData (App.store s) |} |}.

Definition App_clearAll (s : App.State) : App.State :=
  {| App.items := [];
     App.store := {| capturedItems := Some [];
                     previewData := previewData (App.store s) |} |}.

(** The two overlay buttons of a card:
    [previewData: { ...item, initialTab }]. *)
Definition ExportCard_openPreview (tab : string) (item : CapturedItem.t)
    (st : Storage) : Storage :=
  {| capturedItems := capturedItems st;
     previewData :=
       Some (CapturedItem.mk (CapturedItem.id item)
               (CapturedItem.timestamp item) (CapturedItem.html item)
               (CapturedItem.image item) (CapturedItem.sourceUrl item)
               (CapturedItem.title item) (Some tab)) |}.

(** [getRelativeTime(timestamp)] when [Date.now()] is [now_]. *)
Definition plural (n : Z) (unit_ : string) : string :=
  Js.number_toString n +:+ " " +:+ unit_
  +:+ (if 1 <? n then "s" else "") +:+ " ago".

Definition getRelativeTime (now_ timestamp_ : Z) : string :=
  let seconds := (now_ - timestamp_) / 1000 in
  if seconds <? 60 then "just now"
  else
    let minutes := seconds / 60 in
    if minutes <? 60 then plural minutes "minute"
    else
      let hours := minutes / 60 in
      if hours <? 24 then plural hours "hour"
      else plural (hours / 24) "day".

(** ** PreviewApp: the editor and the sync with the side panel *)

Definition with_html (v : string) (it : CapturedItem.t) : CapturedItem.t :=
  CapturedItem.mk (CapturedItem.id it) (CapturedItem.timestamp it) v
    (CapturedItem.image it) (CapturedItem.sourceUrl it)
    (CapturedItem.title it) (CapturedItem.initialTab it).

Module Editor.

(** The preview page with its editor: [hasUnsavedChanges] beside the state
    of the title. *)
Record State := {
  page : PreviewApp.State;
  hasUnsavedChanges : bool
}.

(** The effect that loads [previewData] when the page opens. *)
Definition loadData (st : Storage) (s : State) : State :=
  match previewData st with
  | Some d =>
      {| page :=
           {| PreviewApp.data := Some d;
              PreviewApp.titleInput :=
                Js.or_default (CapturedItem.title d)
                  (PreviewApp.titleInput (page s));
              PreviewApp.isEditingTitle := PreviewApp.isEditingTitle (page s) |};
         hasUnsavedChanges := hasUnsavedChanges s |}
  | None => s
  end.

(** The state of [useState] before anything is loaded. *)
Definition opened : State :=
  {| page := {| PreviewApp.data := None; PreviewApp.titleInput := "";
                PreviewApp.isEditingTitle := false |};
     hasUnsavedChanges := false |}.

Definition handleEditorChange (value : option string) (s : State) : State :=
  match value, PreviewApp.data (page s) with
  | Some v, Some d =>
      {| page :=
           {| PreviewApp.data := Some (with_html v d);
              PreviewApp.titleInput := PreviewApp.titleInput (page s);
              PreviewApp.isEditingTitle := PreviewApp.isEditingTitle (page s) |};
         hasUnsavedChanges := true |}
  | _, _ => s
  end.

(** [items.map(item => item.id === data.id ? { ...item, html: data.html }
    : item)] *)
Definition rehtml (id_ html_ : string) (items : list CapturedItem.t)
  : list CapturedItem.t :=
  map (fun item =>
         if String.eqb (CapturedItem.id item) id_
         then with_html html_ item else item)
      items.

Definition handleSaveCode (s : State) (st : Storage) : State * Storage :=
  match PreviewApp.data (page s) with
  | None => (s, st)
  | Some d =>
      ({| page := page s; hasUnsavedChanges := false |},
       {| capturedItems :=
            Some (rehtml (CapturedItem.id d) (CapturedItem.html d)
                    (default [] (capturedItems st)));
          previewData := Some d |})
  end.

(** The [chrome.storage.onChanged] listener of the preview page, for a
    change of [capturedItems] in the local area with new value
    [updatedItems]. *)
Definition handleStorageChange (updatedItems : list CapturedItem.t)
    (s : State) (st : Storage) : State * Storage :=
  match previewData st with
  | Some pd =>
      if Js.truthy_string (CapturedItem.id pd) then
        match List.find
                (fun item =>
                   String.eqb (CapturedItem.id item) (CapturedItem.id pd))
                updatedItems with
        | Some currentItem =>
            ({| page :=
                  {| PreviewApp.data :=
                       CapturedItem.with_title (CapturedItem.title currentItem)
                         <$> PreviewApp.data (page s);
                     PreviewApp.titleInput :=
                       Js.or_default (CapturedItem.title currentItem)
                         "Untitled Design";
                     PreviewApp.isEditingTitle :=
                       PreviewApp.isEditingTitle (page s) |};
                hasUnsavedChanges := hasUnsavedChanges s |},
             {| capturedItems := capturedItems st;
                previewData :=
                  Some (CapturedItem.with_title
                          (CapturedItem.title currentItem) pd) |})
        | None => (s, st)
        end
      else (s, st)
  | None => (s, st)
  end.

End Editor.

(** ** Vocabulary of the further properties *)

(** The payloads of the messages among the actions of the export
    trigger. *)
Definition sent (actions : list Content.Action) : list Payload :=
  omap (fun a => match a with
                 | Content.runtime_sendMessage (STITCH_EXPORT_FULL payload) =>
                     Some payload
                 | _ => None
                 end) actions.

(** The toasts that report a capture. *)
Definition success_toast (t : Content.Toast) : bool :=
  match t with
  | Content.SelectedCodeCaptured | Content.VisibleCodeCaptured
  | Content.SourceCodeCaptured | Content.ImageCaptured => true
  | _ => false
  end.

(** None of the characters a rename strips occurs in the string. *)
Definition valid_filename (s : string) : Prop :=
  Forall (fun c => contains_char c s = false) invalid_chars.

(** ** The service worker as a whole *)

(** What can happen to the service worker.  A download comes with what
    fetching its URL gives, a disconnect with the window its port
    remembers. *)
Inductive WorkerEvent :=
| message (request : Request) (sender : Sender)
| download (settings : option Settings.t) (d : DownloadItem.t)
    (fetched : option string)
| tab_updated (settings : option Settings.t) (tabId_ : Z)
    (changeInfo : ChangeInfo) (url : option string)
| tab_activated (settings : option Settings.t) (tabId_ : Z)
    (tab : option (option string))
| port_init (windowId : option Z)
| port_disconnect (winId : option Z)
| time_passes (t : Z).

Definition worker_step (env : Env) (ev : WorkerEvent) : M unit :=
  match ev with
  | message request sender => onMessage env request sender;; mret tt
  | download settings d fetched =>
      onCreated env (fun _ => fetched) settings d;; mret tt
  | tab_updated settings tabId_ changeInfo url =>
      onUpdated settings tabId_ changeInfo url
  | tab_activated settings tabId_ tab => onActivated settings tabId_ tab
  | port_init windowId => port_INIT env windowId;; mret tt
  | port_disconnect winId => port_onDisconnect env winId
  | time_passes t => advance env t
  end.

(** A history of the service worker; every listener runs to its end before
    the next event is handled. *)
Fixpoint worker_run (env : Env) (history : list WorkerEvent) (w : World)
  : World :=
  match history with
  | [] => w
  | ev :: rest => worker_run env rest (final (worker_step env ev) w)
  end.

(** Every notification sent went to a tab with a real id and announced at
    least one item, and so will the batch that is open. *)
Definition announces_items (w : World) : Prop :=
  (forall b, notificationBatch w = Some b -> 1 <= count b)
  /\ Forall (fun n => fst n <> 0 /\ 1 <= snd n) (notifications (calls w)).

(** The stored collection has only grown at its front, and the preview
    data is as it was. *)
Definition grown (st st' : Storage) : Prop :=
  (exists new,
      default [] (capturedItems st') = new ++ default [] (capturedItems st))
  /\ previewData st' = previewData st.

(** What every step of the service worker keeps. *)
Definition keeps (w w' : World) : Prop :=
  (announces_items w -> announces_items w')
  /\ grown (storage w) (storage w').

(** ** The settings and the three places that show them *)

Module SettingsViews.

(** The stored [settings], the [cancelDownloads] state of the side panel,
    the [checked] state of the switch in the overlay of the page, and the
    [experimental] state of the options page. *)
Record State := {
  stored : option Settings.t;
  panel_cancelDownloads : bool;
  overlay_checked : bool;
  options_experimental : bool
}.

(** [result.settings || {}]. *)
Definition currentSettings (st : option Settings.t) : Settings.t :=
  default (Settings.mk None None) st.

(** The three effects that read the settings when a view is created. *)
Definition mounted (st : option Settings.t) : State :=
  {| stored := st;
     (* if (result.settings?.cancelDownloads) setCancelDownloads(...) *)
     panel_cancelDownloads :=
       match st with
       | Some s =>
           match Settings.cancelDownloads s with
           | Some true => true
           | _ => false
           end
       | None => false
       end;
     (* result.settings?.cancelDownloads ?? false *)
     overlay_checked :=
       match st with
       | Some s => default false (Settings.cancelDownloads s)
       | None => false
       end;
     (* result.settings?.experimentalMode || false *)
     options_experimental :=
       match st with
       | Some s =>
           match Settings.experimentalMode s with
           | Some true => true
           | _ => false
           end
       | None => false
       end |}.

(** The [chrome.storage.onChanged] listeners of the side panel and of the
    overlay, on a change of [settings] to [newValue]. *)
Definition onChanged (newValue : option Settings.t) (s : State) : State :=
  {| stored := stored s;
     (* if (newSettings.cancelDownloads !== undefined) setCancelDownloads *)
     panel_cancelDownloads :=
       match Settings.cancelDownloads (currentSettings newValue) with
       | Some b => b
       | None => panel_cancelDownloads s
       end;
     (* newValue?.cancelDownloads ?? false; updateUI when it differs *)
     overlay_checked :=
       let newValue_ :=
         match newValue with
         | Some n => default false (Settings.cancelDownloads n)
         | None => false
         end in
       if Bool.eqb (overlay_checked s) newValue_ then overlay_checked s
       else newValue_;
     options_experimental := options_experimental s |}.

(** [chrome.storage.local.set({ settings })], with the listeners run. *)
Definition write (v : Settings.t) (s : State) : State :=
  onChanged (Some v)
    {| stored := Some v;
       panel_cancelDownloads := panel_cancelDownloads s;
       overlay_checked := overlay_checked s;
       options_experimental := options_experimental s |}.

(** [toggleCancelDownloads] of the side panel. *)
Definition toggleCancelDownloads (s : State) : State :=
  let newValue := negb (panel_cancelDownloads s) in
  let s1 := {| stored := stored s; panel_cancelDownloads := newValue;
               overlay_checked := overlay_checked s;
               options_experimental := options_experimental s |} in
  write (Settings.mk (Some newValue)
           (Settings.experimentalMode (currentSettings (stored s)))) s1.

(** The [change] handler of the switch in the overlay, after the user has
    flipped it. *)
Definition overlay_change (s : State) : State :=
  let newValue := negb (overlay_checked s) in
  let s1 := {| stored := stored s;
               panel_cancelDownloads := panel_cancelDownloads s;
               overlay_checked := newValue;
               options_experimental := options_experimental s |} in
  write (Settings.mk (Some newValue)
           (Settings.experimentalMode (currentSettings (stored s)))) s1.

(** [handleChange] of the options page, for the new state of the box. *)
Definition handleChange (newValue : bool) (s : State) : State :=
  let s1 := {| stored := stored s;
               panel_cancelDownloads := panel_cancelDownloads s;
               overlay_checked := overlay_checked s;
               options_experimental := newValue |} in
  write (Settings.mk (Settings.cancelDownloads (currentSettings (stored s)))
           (Some newValue)) s1.

Inductive Event :=
| PanelToggled
| OverlayFlipped
| OptionsChanged (newValue : bool).

Definition step (ev : Event) (s : State) : State :=
  match ev with
  | PanelToggled => toggleCancelDownloads s
  | OverlayFlipped => overlay_change s
  | OptionsChanged v => handleChange v s
  end.

Definition play (history : list Event) (s : State) : State :=
  foldl (fun s ev => step ev s) s history.

(** Every view shows what is stored. *)
Definition in_sync (s : State) : Prop :=
  panel_cancelDownloads s = setting Settings.cancelDownloads (stored s)
  /\ overlay_checked s = setting Settings.cancelDownloads (stored s)
  /\ options_experimental s = setting Settings.experimentalMode (stored s).

End SettingsViews.

(** The four raster extensions, in lower case. *)
Definition raster_extensions : list string := ["png"; "jpg"; "jpeg"; "webp"].

(** What the image entry of a group can be: a file of the archive with a
    raster extension. *)
Definition image_from (zip : list ZipObject.t) (e : string * Folder.t)
  : Prop :=
  forall f, Folder.image (snd e) = Some f ->
    f ∈ zip /\ ZipObject.dir f = false
    /\ Re.image_ext (fileName_of (ZipObject.name f)) = true.

(** The image that [Object.prototype] holds, if it holds one, is named like
    a raster image. *)
Definition prototype_image_named (w : World) : Prop :=
  forall f, Folder.image (objectPrototype w) = Some f ->
    Re.image_ext (fileName_of (ZipObject.name f)) = true.

(** * Properties *)

(** * Grouping of archive entries *)

Section Grouping.

Implicit Types (k : string) (fs : Folders) (f : ZipObject.t)
  (p : Folder.t).

Lemma own_property_alter h k k' fs :
  own_property k (folders_alter h k' fs)
  = if String.eqb k k' then h <$> own_property k fs else own_property k fs.
Proof.
  induction fs as [|[k0 g] fs IH]; simpl.
  - by destruct (String.eqb k k').
  - destruct (String.eqb_spec k' k0) as [->|Hne]; simpl.
    + destruct (String.eqb_spec k k0) as [->|Hk]; done.
    + rewrite IH.
      destruct (String.eqb_spec k k0) as [->|Hk]; [|done].
      destruct (String.eqb_spec k0 k'); [congruence|done].
Qed.

Lemma own_property_snoc k k' g fs :
  own_property k (fs ++ [(k', g)])
  = match own_property k fs with
    | Some x => Some x
    | None => if String.eqb k k' then Some g else None
    end.
Proof.
  induction fs as [|[k0 g0] fs IH]; simpl; [done|].
  by destruct (String.eqb k k0).
Qed.

(** [folders[k]] is [undefined] exactly when [k] is no own property and
    names a group. *)
Lemma folders_get_None p k fs :
  folders_get p k fs = None
  <-> own_property k fs = None /\ names_group p k = true.
Proof.
  unfold folders_get, names_group.
  destruct (own_property k fs); [by split; [|intros []]|].
  destruct (String.eqb k "__proto__"); cbn; [by split; [|intros []]|].
  destruct (inherited_key p k); cbn; by split; [|intros []].
Qed.

Lemma own_property_ensure p k k' fs :
  own_property k (folders_ensure p k' fs)
  = match own_property k fs with
    | Some x => Some x
    | None =>
        if String.eqb k k' && names_group p k' then Some Folder.empty
        else None
    end.
Proof.
  unfold folders_ensure.
  destruct (folders_get p k' fs) as [r|] eqn:Hk'.
  - destruct (own_property k fs) eqn:Hk; [done|].
    destruct (String.eqb_spec k k') as [->|]; [|done]. cbn.
    destruct (names_group p k') eqn:Hn; [|done].
    assert (folders_get p k' fs = None) by (by apply folders_get_None).
    congruence.
  - apply folders_get_None in Hk' as [_ ->]. rewrite andb_true_r.
    apply own_property_snoc.
Qed.

Lemma group_files_snoc p zip f :
  group_files p (zip ++ [f]) = forEach_callback (group_files p zip) f.
Proof. unfold group_files. by rewrite foldl_app. Qed.

Lemma chosen_html_ensure p k k' fs :
  chosen_html k (folders_ensure p k' fs) = chosen_html k fs.
Proof.
  unfold chosen_html. rewrite own_property_ensure.
  destruct (own_property k fs); [done|]. by destruct (_ && _).
Qed.

Lemma chosen_image_ensure p k k' fs :
  chosen_image k (folders_ensure p k' fs) = chosen_image k fs.
Proof.
  unfold chosen_image. rewrite own_property_ensure.
  destruct (own_property k fs); [done|]. by destruct (_ && _).
Qed.

(** *** Names: HTML names and image names are disjoint *)

Lemma endsWith_cons suffix c s :
  Js.endsWith suffix (String c s)
  = String.eqb (String c s) suffix || Js.endsWith suffix s.
Proof. reflexivity. Qed.

Lemma endsWith_nonempty suffix s :
  Js.endsWith suffix s = true -> suffix <> "" -> s <> "".
Proof. destruct s; [|done]. by destruct suffix. Qed.

Lemma endsWith_last_char suffix s :
  suffix <> "" -> Js.endsWith suffix s = true ->
  last_char s = last_char suffix.
Proof.
  intros Hne. induction s as [|c s IH].
  - by destruct suffix.
  - rewrite endsWith_cons.
    destruct (String.eqb_spec (String c s) suffix) as [<-|_]; [done|].
    intros H. specialize (IH H).
    pose proof (endsWith_nonempty _ _ H Hne). by destruct s.
Qed.

Lemma last_char_map_chars g s :
  last_char (Js.map_chars g s) = g <$> last_char s.
Proof.
  induction s as [|c s IH]; [done|].
  simpl. destruct s as [|c' s]; [done|]. exact IH.
Qed.

Lemma is_html_name_endsWith n :
  is_html_name n = true -> Js.endsWith ".html" n = true.
Proof.
  unfold is_html_name. intros H.
  apply orb_true_iff in H as [H|H]; [|done].
  apply orb_true_iff in H as [H|H]; apply String.eqb_eq in H; by subst.
Qed.

Lemma html_name_not_image n :
  is_html_name n = true -> Re.image_ext n = false.
Proof.
  intros H%is_html_name_endsWith.
  apply endsWith_last_char in H; [|done]. simpl in H.
  unfold Re.image_ext.
  assert (Hl : last_char (Js.map_chars Js.toLowerCase n) = Some "l"%char).
  { by rewrite last_char_map_chars, H. }
  repeat match goal with
  | |- context [Js.endsWith ?suf ?x] =>
      let E := fresh in
      destruct (Js.endsWith suf x) eqn:E;
      [apply endsWith_last_char in E; [|done]; rewrite Hl in E; done|]
  end.
  done.
Qed.

(** *** One step of [zip.forEach] *)

(** What [folders[folderPath]] is after the first line of the callback. *)
Lemma folders_get_ensure p k fs :
  folders_get p k (folders_ensure p k fs)
  = match own_property k fs with
    | Some g => Some (own_folder g)
    | None =>
        if String.eqb k "__proto__" then Some the_prototype
        else if inherited_key p k then Some inherited_value
             else Some (own_folder Folder.empty)
    end.
Proof.
  unfold folders_get at 1. rewrite own_property_ensure.
  rewrite String.eqb_refl. unfold names_group.
  destruct (own_property k fs); [done|].
  destruct (String.eqb k "__proto__"); [done|]. cbn.
  by destruct (inherited_key p k).
Qed.

End Grouping.

(** The cases of one call of the callback, by what [folders[folderPath]]
    is. *)
Ltac callback_cases p fp fs :=
  rewrite folders_get_ensure;
  destruct (own_property fp fs) as [g|] eqn:Hg;
    [|destruct (String.eqb fp "__proto__") eqn:Hproto;
      [|destruct (inherited_key p fp) eqn:Hinherited]];
  repeat match goal with
         | |- context [if Js.defined ?x then _ else _] =>
             destruct (Js.defined x) eqn:?
         end;
  cbn [fst snd].

Section Enumeration.

Implicit Types (k : string) (fs : Folders) (f : ZipObject.t)
  (p : Folder.t).

(** The key [__proto__] is never an own property: [folders[k]] is never
    [undefined] for it. *)
Lemma forEach_callback_no_proto_key p fs f :
  own_property "__proto__" fs = None ->
  own_property "__proto__" (snd (forEach_callback (p, fs) f)) = None.
Proof.
  intros Hfs. unfold forEach_callback.
  destruct (ZipObject.dir f); [done|].
  set (fp := folderPath_of (ZipObject.name f)).
  assert (He : own_property "__proto__" (folders_ensure p fp fs) = None).
  { rewrite own_property_ensure, Hfs. unfold names_group.
    destruct (String.eqb_spec "__proto__" fp) as [<-|]; [|done].
    by rewrite String.eqb_refl. }
  assert (Ha : forall h,
             own_property "__proto__"
               (folders_alter h fp (folders_ensure p fp fs)) = None).
  { intros h. rewrite own_property_alter, He. by destruct (String.eqb _ _). }
  destruct (is_html_name _); [|destruct (Re.image_ext _); [|done]];
    callback_cases p fp fs; auto.
Qed.

Lemma group_files_no_proto_key p zip :
  own_property "__proto__" (snd (group_files p zip)) = None.
Proof.
  induction zip as [|f zip IH] using rev_ind; [done|].
  rewrite group_files_snoc. destruct (group_files p zip) as [p' fs].
  by apply forEach_callback_no_proto_key.
Qed.

(** *** What the callback does to [Object.prototype] *)

Lemma forEach_callback_prototype_html p fs f :
  own_property "__proto__" fs = None ->
  Folder.html (fst (forEach_callback (p, fs) f))
  = if html_entry "__proto__" f then Some f else Folder.html p.
Proof.
  intros Hfs. unfold forEach_callback, html_entry, in_group.
  destruct (ZipObject.dir f); [done|]. cbn [negb andb].
  set (fp := folderPath_of (ZipObject.name f)).
  destruct (is_html_name _) eqn:Hh;
    [|destruct (Re.image_ext _); [|by rewrite andb_false_r]];
    callback_cases p fp fs; rewrite ?andb_false_r, ?andb_true_r; try done.
  all: destruct (String.eqb_spec fp "__proto__") as [E|];
    [rewrite E in Hg; congruence|done].
Qed.

Lemma forEach_callback_prototype_image p fs f :
  own_property "__proto__" fs = None ->
  Folder.image (fst (forEach_callback (p, fs) f))
  = match Folder.image p with
    | Some x => Some x
    | None => if image_entry "__proto__" f then Some f else None
    end.
Proof.
  intros Hfs. unfold forEach_callback, image_entry, in_group.
  destruct (ZipObject.dir f); [cbn; by destruct (Folder.image p)|].
  cbn [negb andb].
  set (fp := folderPath_of (ZipObject.name f)).
  destruct (is_html_name _) eqn:Hh;
    [rewrite (html_name_not_image _ Hh); callback_cases p fp fs
    |destruct (Re.image_ext _); [callback_cases p fp fs|]];
    rewrite ?andb_false_r, ?andb_true_r;
    try (by destruct (Folder.image p)).
  all: try (cbn; by destruct (Folder.image p)).
  all: destruct (String.eqb_spec fp "__proto__") as [E|];
    [rewrite E in Hg; congruence|by destruct (Folder.image p)].
Qed.

(** A file that is not directly in a folder named [__proto__] leaves
    [Object.prototype] as it is. *)
Lemma forEach_callback_keeps_prototype p fs f :
  pollutes f = false -> fst (forEach_callback (p, fs) f) = p.
Proof.
  unfold pollutes, in_group, forEach_callback.
  destruct (ZipObject.dir f); [done|]. cbn [negb andb].
  set (fp := folderPath_of (ZipObject.name f)). intros Hfp.
  destruct (is_html_name _); [|destruct (Re.image_ext _); [|done]];
    callback_cases p fp fs; congruence.
Qed.

Lemma group_files_keeps_prototype p zip :
  Forall (fun f => pollutes f = false) zip -> fst (group_files p zip) = p.
Proof.
  induction zip as [|f zip IH] using rev_ind; [done|].
  intros [Hzip Hf]%Forall_app. apply Forall_inv in Hf.
  rewrite group_files_snoc. specialize (IH Hzip).
  destruct (group_files p zip) as [p' fs]. cbn in IH. subst p'.
  by apply forEach_callback_keeps_prototype.
Qed.

(** What [Object.prototype] holds only grows: a key that names a group at
    the end of a step named one at its start. *)
Lemma forEach_callback_names_group p fs f k :
  own_property "__proto__" fs = None ->
  names_group (fst (forEach_callback (p, fs) f)) k = true ->
  names_group p k = true.
Proof.
  intros Hfs. unfold names_group, inherited_key.
  rewrite forEach_callback_prototype_html, forEach_callback_prototype_image
    by done.
  destruct (String.eqb k "__proto__"); [done|]. cbn [negb andb].
  destruct (bool_decide _); [done|]. cbn [orb].
  destruct (Folder.html p), (Folder.image p); cbn;
    rewrite ?andb_true_r, ?andb_false_r, ?orb_false_r, ?orb_true_r;
    try done;
    repeat match goal with
           | |- context [if ?b then _ else _] => destruct b
           end; cbn;
    rewrite ?andb_true_r, ?andb_false_r, ?orb_false_r, ?orb_true_r;
    try done.
  all: by destruct (String.eqb k "html"), (String.eqb k "image").
Qed.

(** A folder path that names no group never becomes an own property. *)
Lemma forEach_callback_no_group p k fs f :
  names_group p k = false ->
  own_property k fs = None ->
  own_property k (snd (forEach_callback (p, fs) f)) = None.
Proof.
  intros Hk Hfs. unfold forEach_callback.
  destruct (ZipObject.dir f); [done|].
  set (fp := folderPath_of (ZipObject.name f)).
  assert (He : own_property k (folders_ensure p fp fs) = None).
  { rewrite own_property_ensure, Hfs.
    destruct (String.eqb_spec k fp) as [<-|]; [|done]. by rewrite Hk. }
  assert (Ha : forall h,
             own_property k (folders_alter h fp (folders_ensure p fp fs))
             = None).
  { intros h. rewrite own_property_alter, He. by destruct (String.eqb _ _). }
  destruct (is_html_name _); [|destruct (Re.image_ext _); [|done]];
    callback_cases p fp fs; auto.
Qed.

(** *** What the callback does to a group *)

Lemma chosen_html_step p k fs f :
  names_group p k = true ->
  chosen_html k (snd (forEach_callback (p, fs) f))
  = if html_entry k f then Some f else chosen_html k fs.
Proof.
  intros Hk. unfold forEach_callback, html_entry, in_group.
  destruct (ZipObject.dir f); [done|]. cbn [negb andb].
  set (fp := folderPath_of (ZipObject.name f)).
  set (fn := fileName_of (ZipObject.name f)).
  pose proof Hk as Hk'. unfold names_group in Hk'.
  apply andb_true_iff in Hk' as [Hkp%negb_true_iff Hki%negb_true_iff].
  destruct (String.eqb_spec fp k) as [->|Hfk]; cbn [andb].
  - (* the file is in the folder [k] *)
    assert (Hsame : forall h,
               chosen_html k (folders_alter h k (folders_ensure p k fs))
               = Folder.html (h (default Folder.empty (own_property k fs)))).
    { intros h. unfold chosen_html.
      rewrite own_property_alter, String.eqb_refl.
      rewrite own_property_ensure, String.eqb_refl, Hk.
      by destruct (own_property k fs). }
    destruct (is_html_name fn) eqn:Hh;
      [|destruct (Re.image_ext fn)];
      [callback_cases p k fs..|]; try congruence; cbn [snd];
      rewrite ?Hsame, ?chosen_html_ensure; try done;
      unfold chosen_html; by rewrite Hg.
  - (* the file is in another folder *)
    assert (Hother : forall h,
               chosen_html k (folders_alter h fp (folders_ensure p fp fs))
               = chosen_html k fs).
    { intros h. unfold chosen_html at 1. rewrite own_property_alter.
      destruct (String.eqb_spec k fp); [congruence|].
      apply chosen_html_ensure. }
    destruct (is_html_name fn); [|destruct (Re.image_ext fn)];
      [callback_cases p fp fs..|]; cbn [snd];
      by rewrite ?Hother, ?chosen_html_ensure.
Qed.

Lemma chosen_image_step p k fs f :
  names_group p k = true ->
  chosen_image k (snd (forEach_callback (p, fs) f))
  = match chosen_image k fs with
    | Some x => Some x
    | None =>
        if image_entry k f && negb (Js.defined (Folder.image p)) then Some f
        else None
    end.
Proof.
  intros Hk. unfold forEach_callback, image_entry, in_group.
  destruct (ZipObject.dir f);
    [cbn [snd negb andb]; by destruct (chosen_image k fs)|].
  cbn [negb andb].
  set (fp := folderPath_of (ZipObject.name f)).
  set (fn := fileName_of (ZipObject.name f)).
  pose proof Hk as Hk'. unfold names_group in Hk'.
  apply andb_true_iff in Hk' as [Hkp%negb_true_iff Hki%negb_true_iff].
  assert (Hkeep : forall fs',
             chosen_image k fs' = chosen_image k fs ->
             chosen_image k fs'
             = match chosen_image k fs with
               | Some x => Some x
               | None => None
               end).
  { intros fs' ->. by destruct (chosen_image k fs). }
  destruct (String.eqb_spec fp k) as [->|Hfk]; cbn [andb].
  - (* the file is in the folder [k] *)
    assert (Hsame : forall h,
               chosen_image k (folders_alter h k (folders_ensure p k fs))
               = Folder.image (h (default Folder.empty (own_property k fs)))).
    { intros h. unfold chosen_image.
      rewrite own_property_alter, String.eqb_refl.
      rewrite own_property_ensure, String.eqb_refl, Hk.
      by destruct (own_property k fs). }
    assert (Hc : chosen_image k fs
                 = Folder.image (default Folder.empty (own_property k fs))).
    { unfold chosen_image. by destruct (own_property k fs). }
    destruct (is_html_name fn) eqn:Hh;
      [rewrite (html_name_not_image _ Hh)|destruct (Re.image_ext fn) eqn:Hi];
      cbn [andb].
    + callback_cases p k fs; try congruence; rewrite Hsame, Hc; cbn;
        by destruct (Folder.image _).
    + rewrite folders_get_ensure, Hkp, Hki.
      replace (match own_property k fs with
               | Some g => Some (own_folder g)
               | None => Some (own_folder Folder.empty)
               end)
        with (Some (own_folder (default Folder.empty (own_property k fs))))
        by (by destruct (own_property k fs)).
      set (g := default Folder.empty (own_property k fs)) in *.
      unfold inherit. cbn [Folder.image].
      destruct (Folder.image g) as [x|] eqn:Hgx; cbn [Js.defined snd].
      * by rewrite chosen_image_ensure, Hc.
      * destruct (Folder.image p); cbn [Js.defined snd negb].
        -- by rewrite chosen_image_ensure, Hc.
        -- by rewrite Hsame, Hc.
    + apply Hkeep, chosen_image_ensure.
  - (* the file is in another folder *)
    assert (Hother : forall h,
               chosen_image k (folders_alter h fp (folders_ensure p fp fs))
               = chosen_image k fs).
    { intros h. unfold chosen_image at 1. rewrite own_property_alter.
      destruct (String.eqb_spec k fp); [congruence|].
      apply chosen_image_ensure. }
    destruct (is_html_name fn); [|destruct (Re.image_ext fn)];
      [callback_cases p fp fs..|]; cbn [snd]; apply Hkeep;
      by rewrite ?Hother, ?chosen_image_ensure.
Qed.

Lemma first_entry_snoc q zip f :
  first_entry q (zip ++ [f])
  = match first_entry q zip with
    | Some x => Some x
    | None => if q f then Some f else None
    end.
Proof.
  unfold first_entry. induction zip as [|x zip IH]; simpl; [done|].
  by destruct (q x).
Qed.

Lemma last_entry_snoc q zip f :
  last_entry q (zip ++ [f])
  = if q f then Some f else last_entry q zip.
Proof.
  unfold last_entry. rewrite List.filter_app. simpl.
  destruct (q f); [apply last_snoc|by rewrite app_nil_r].
Qed.

(** *** The whole enumeration *)


Lemma group_files_prototype_image p zip :
  Folder.image (fst (group_files p zip)) = prototype_image p zip.
Proof.
  unfold prototype_image.
  induction zip as [|f zip IH] using rev_ind;
    [unfold group_files; cbn; by destruct (Folder.image p)|].
  rewrite group_files_snoc, first_entry_snoc.
  pose proof (group_files_no_proto_key p zip) as Hno.
  destruct (group_files p zip) as [p' fs]. cbn [fst snd] in *.
  rewrite forEach_callback_prototype_image, IH by done.
  by destruct (Folder.image p).
Qed.

Lemma group_files_names_group p zip f k :
  names_group (fst (group_files p (zip ++ [f]))) k = true ->
  names_group (fst (group_files p zip)) k = true.
Proof.
  rewrite group_files_snoc.
  pose proof (group_files_no_proto_key p zip) as Hno.
  destruct (group_files p zip) as [p' fs]. cbn [fst snd] in *.
  by apply forEach_callback_names_group.
Qed.

Lemma group_files_names_group_start p zip k :
  names_group (fst (group_files p zip)) k = true -> names_group p k = true.
Proof.
  induction zip as [|f zip IH] using rev_ind; [done|].
  intros H. by apply IH, (group_files_names_group p zip f).
Qed.

Lemma chosen_html_last p k zip :
  names_group (fst (group_files p zip)) k = true ->
  chosen_html k (snd (group_files p zip)) = last_entry (html_entry k) zip.
Proof.
  induction zip as [|f zip IH] using rev_ind; [done|].
  intros Hk. pose proof (group_files_names_group p zip f k Hk) as Hk'.
  rewrite group_files_snoc, last_entry_snoc, <- (IH Hk').
  destruct (group_files p zip) as [p' fs]. cbn [fst snd] in *.
  by apply chosen_html_step.
Qed.

Lemma first_entry_None_weaken (q q' : ZipObject.t -> bool) zip :
  (forall f, q' f = true -> q f = true) ->
  first_entry q zip = None -> first_entry q' zip = None.
Proof.
  intros Hq. unfold first_entry.
  induction zip as [|x zip IH]; simpl; [done|].
  destruct (q x) eqn:Hx; [done|]. intros H.
  destruct (q' x) eqn:Hx'; [|by apply IH].
  apply Hq in Hx'. congruence.
Qed.

Lemma first_entry_Some q zip x :
  first_entry q zip = Some x -> q x = true.
Proof. unfold first_entry. by intros [_ H]%List.find_some. Qed.

Lemma first_entry_is_Some (q q' : ZipObject.t -> bool) zip x :
  first_entry q zip = Some x -> q' x = true ->
  is_Some (first_entry q' zip).
Proof.
  unfold first_entry. intros [Hin _]%List.find_some Hx.
  destruct (List.find q' zip) eqn:Hf; [by eexists|].
  pose proof (List.find_none _ _ Hf x Hin). congruence.
Qed.

Lemma in_group_inj k k' f :
  in_group k f = true -> in_group k' f = true -> k = k'.
Proof.
  unfold in_group.
  intros [_ <-%String.eqb_eq]%andb_true_iff [_ <-%String.eqb_eq]%andb_true_iff.
  done.
Qed.

Lemma taken_image_snoc p k zip f :
  k <> "__proto__" ->
  taken_image p k (zip ++ [f])
  = match taken_image p k zip with
    | Some x => Some x
    | None =>
        if image_entry k f && negb (Js.defined (prototype_image p zip))
        then Some f else None
    end.
Proof.
  intros Hk. unfold taken_image, prototype_image.
  destruct (Folder.image p) as [i|]; cbn [Js.defined];
    [by rewrite andb_false_r|].
  rewrite first_entry_snoc.
  set (q := fun f => image_entry k f || image_entry "__proto__" f).
  destruct (first_entry q zip) as [x|] eqn:Hx.
  - destruct (in_group k x) eqn:Hkx; [done|].
    assert (Hp : image_entry "__proto__" x = true).
    { apply first_entry_Some in Hx. unfold q in Hx.
      apply orb_true_iff in Hx as [Hx|Hx]; [|done].
      unfold image_entry in Hx. by rewrite Hkx in Hx. }
    destruct (first_entry_is_Some q (image_entry "__proto__") zip x Hx Hp)
      as [y ->].
    by rewrite andb_false_r.
  - rewrite (first_entry_None_weaken q (image_entry "__proto__") zip)
      by (intros x Hxq; unfold q; by rewrite Hxq, orb_true_r) || done.
    cbn [Js.defined negb]. rewrite andb_true_r. unfold q.
    destruct (image_entry k f) eqn:Hkf; cbn [orb].
    + unfold image_entry in Hkf. apply andb_true_iff in Hkf as [-> _]. done.
    + destruct (image_entry "__proto__" f) eqn:Hpf; [|done].
      destruct (in_group k f) eqn:Hkf'; [|done].
      unfold image_entry in Hpf. apply andb_true_iff in Hpf as [Hpf _].
      by pose proof (in_group_inj _ _ _ Hkf' Hpf).
Qed.

Lemma names_group_not_proto p k :
  names_group p k = true -> k <> "__proto__".
Proof.
  unfold names_group. intros [H _]%andb_true_iff.
  by apply String.eqb_neq, negb_true_iff.
Qed.

Lemma chosen_image_taken p k zip :
  names_group (fst (group_files p zip)) k = true ->
  chosen_image k (snd (group_files p zip)) = taken_image p k zip.
Proof.
  induction zip as [|f zip IH] using rev_ind.
  - intros _. unfold taken_image. by destruct (Js.defined _).
  - intros Hk. pose proof (group_files_names_group p zip f k Hk) as Hk'.
    rewrite taken_image_snoc by (by eapply names_group_not_proto).
    rewrite group_files_snoc, <- (IH Hk'), <- group_files_prototype_image.
    destruct (group_files p zip) as [p' fs]. cbn [fst snd] in *.
    by apply chosen_image_step.
Qed.

(** In an archive with no file directly in a folder named [__proto__] a
    group takes its first image entry. *)
Lemma taken_image_first p k zip :
  Forall (fun f => pollutes f = false) zip ->
  taken_image p k zip
  = if Js.defined (Folder.image p) then None
    else first_entry (image_entry k) zip.
Proof.
  intros Hzip. unfold taken_image. destruct (Js.defined _); [done|].
  unfold first_entry. induction Hzip as [|x zip Hx _ IH]; simpl; [done|].
  unfold pollutes in Hx.
  assert (Hp : image_entry "__proto__" x = false)
    by (unfold image_entry; by rewrite Hx).
  rewrite Hp, orb_false_r.
  destruct (image_entry k x) eqn:Hkx; [|done].
  unfold image_entry in Hkx. by apply andb_true_iff in Hkx as [-> _].
Qed.

Lemma group_files_no_group p k zip :
  names_group p k = false ->
  own_property k (snd (group_files p zip)) = None.
Proof.
  intros Hk. induction zip as [|f zip IH] using rev_ind; [done|].
  rewrite group_files_snoc.
  assert (Hk' : names_group (fst (group_files p zip)) k = false).
  { destruct (names_group (fst (group_files p zip)) k) eqn:H; [|done].
    apply group_files_names_group_start in H. congruence. }
  destruct (group_files p zip) as [p' fs]. cbn [fst snd] in *.
  by apply forEach_callback_no_group.
Qed.

End Enumeration.

(** * Running computations *)

Ltac run :=
  unfold mbind, M_bind, mret, M_ret, bind, ret, throw, try_catch, await, when,
    issue, modify, gets, final, outcome in *;
  cbn [fst snd] in *.

Lemma reads_only_refl w : reads_only w w.
Proof. exists (clockReads w), (randomReads w). by destruct w. Qed.

Lemma reads_only_trans w1 w2 w3 :
  reads_only w1 w2 -> reads_only w2 w3 -> reads_only w1 w3.
Proof. intros (c & r & ->) (c' & r' & ->). by exists c', r'. Qed.

Lemma reads_only_set_reads c r w : reads_only w (set_reads c r w).
Proof. by exists c, r. Qed.

Lemma reads_only_prototype w w' :
  reads_only w w' -> objectPrototype w' = objectPrototype w.
Proof. by intros (c & r & ->). Qed.

Lemma reads_only_grouped w w' : reads_only w w' -> grouped_only w w'.
Proof.
  intros (c & r & ->). exists c, r, (objectPrototype w). by destruct w.
Qed.

Lemma set_objectPrototype_same w : set_objectPrototype (objectPrototype w) w = w.
Proof. by destruct w. Qed.

(** The cases of one round of the loop, by what the group is read as. *)
Ltac group_cases w g :=
  unfold reconstruct_group; run; generalize (inherit (objectPrototype w) g);
  intros [[[hn hd [hs|] hb]|] [[im imd is_ [ib|]]|]];
  unfold fresh_id, Date_now, Math_random36; run; cbn.

Section Reconstruction.

Variable env : Env.
Implicit Types (w : World) (files g : Folder.t).

Lemma reconstruct_group_reads src e w :
  reads_only w (snd (reconstruct_group env src e w)).
Proof.
  destruct e as [k g]. group_cases w g;
    solve [apply reads_only_refl | eexists _, _; reflexivity].
Qed.

Lemma reconstruct_groups_reads src entries w :
  reads_only w (snd (reconstruct_groups env src entries w)).
Proof.
  revert w. induction entries as [|e entries IH]; intros w.
  - apply reads_only_refl.
  - cbn [reconstruct_groups]. run.
    pose proof (reconstruct_group_reads src e w) as H1.
    destruct (reconstruct_group env src e w) as [[item|err] w1]; [|done].
    pose proof (IH w1) as H2.
    destruct (reconstruct_groups env src entries w1) as [[items|err] w2];
      eauto using reads_only_trans.
Qed.

Lemma reconstruct_run data src w :
  reconstruct env data src w
  = match loadAsync env (Js.split "," data !! 1%nat) with
    | Some zip =>
        reconstruct_groups env src
          (Object_entries (snd (group_files (objectPrototype w) zip)))
          (set_objectPrototype (fst (group_files (objectPrototype w) zip)) w)
    | None => (Thrown "loadAsync rejected", w)
    end.
Proof.
  unfold reconstruct. run. destruct (loadAsync env _) as [zip|]; [|done].
  run. by destruct (group_files (objectPrototype w) zip).
Qed.

(** The reconstruction changes the oracle positions and what
    [Object.prototype] holds, and nothing else. *)
Lemma reconstruct_grouped data src w :
  grouped_only w (snd (reconstruct env data src w)).
Proof.
  rewrite reconstruct_run.
  destruct (loadAsync env _) as [zip|];
    [|apply reads_only_grouped, reads_only_refl].
  match goal with
  | |- context [reconstruct_groups env src ?es ?v] =>
      destruct (reconstruct_groups_reads src es v) as (c & r & ->)
  end.
  by eexists _, _, _.
Qed.

Lemma reconstruct_prototype data src w :
  objectPrototype (snd (reconstruct env data src w))
  = match loadAsync env (Js.split "," data !! 1%nat) with
    | Some zip => fst (group_files (objectPrototype w) zip)
    | None => objectPrototype w
    end.
Proof.
  rewrite reconstruct_run. destruct (loadAsync env _) as [zip|]; [|done].
  match goal with
  | |- context [reconstruct_groups env src ?es ?v] =>
      by rewrite (reads_only_prototype _ _ (reconstruct_groups_reads src es v))
  end.
Qed.

(** A group with no entry of either kind, own or inherited, emits
    nothing. *)
Lemma reconstruct_group_empty src k g w :
  inherit (objectPrototype w) g = Folder.empty ->
  reconstruct_group env src (k, g) w = (Returned None, w).
Proof. intros H. unfold reconstruct_group. run. by rewrite H. Qed.

Lemma reconstruct_groups_empty src entries w :
  Forall (fun e => inherit (objectPrototype w) (snd e) = Folder.empty)
    entries ->
  reconstruct_groups env src entries w = (Returned [], w).
Proof.
  induction 1 as [|[k g] entries Hg _ IH]; [done|].
  simpl in Hg. cbn [reconstruct_groups]. run.
  rewrite reconstruct_group_empty by done. by rewrite IH.
Qed.




(** *** [Object.entries] only reorders *)

Lemma insert_by_index_elem {A} n (x : A) l e :
  e ∈ insert_by_index n x l -> e = (n, x) \/ e ∈ l.
Proof.
  induction l as [|[m y] l IH]; cbn.
  - intros ->%list_elem_of_singleton. by left.
  - destruct (n <? m)%N.
    + intros [->|H]%elem_of_cons; [by left|by right].
    + intros [->|H]%elem_of_cons; [right; apply list_elem_of_here|].
      destruct (IH H) as [->|H']; [by left|].
      right. by apply list_elem_of_further.
Qed.

Lemma Object_entries_elem e fs : e ∈ Object_entries fs -> e ∈ fs.
Proof.
  unfold Object_entries. intros [H|H]%elem_of_app.
  - apply list_elem_of_In, in_map_iff in H as ([n e'] & <- & H).
    apply list_elem_of_In in H. cbn.
    assert (G : forall l acc,
               (n, e') ∈ foldl (fun acc e =>
                                  match array_index (fst e) with
                                  | Some n => insert_by_index n e acc
                                  | None => acc
                                  end) acc l ->
               (n, e') ∈ acc \/ e' ∈ l).
    { clear. induction l as [|x l IH]; cbn; intros acc H; [by left|].
      destruct (IH _ H) as [H'|H']; [|right; by apply list_elem_of_further].
      destruct (array_index (fst x)); [|by left].
      apply insert_by_index_elem in H' as [[= _ ->]|H']; [right|by left].
      apply list_elem_of_here. }
    destruct (G _ _ H) as [H'|H']; [|done].
    by apply elem_of_nil in H'.
  - apply list_elem_of_In, List.filter_In in H as [H _].
    by apply list_elem_of_In.
Qed.

(** *** Archives without matching entries *)

Lemma forEach_callback_non_matching p fs f :
  non_matching f = true ->
  Forall (fun e => snd e = Folder.empty) fs ->
  fst (forEach_callback (p, fs) f) = p
  /\ Forall (fun e => snd e = Folder.empty) (snd (forEach_callback (p, fs) f)).
Proof.
  unfold non_matching, forEach_callback. intros H Hfs.
  destruct (ZipObject.dir f); [done|]. rewrite orb_false_l in H.
  apply andb_true_iff in H as [->%negb_true_iff ->%negb_true_iff].
  split; [done|]. cbn [snd].
  unfold folders_ensure. destruct (folders_get _ _ fs); [done|].
  apply Forall_app. split; [done|]. by constructor.
Qed.

Lemma group_files_non_matching p zip :
  Forall (fun f => non_matching f = true) zip ->
  fst (group_files p zip) = p
  /\ Forall (fun e => snd e = Folder.empty) (snd (group_files p zip)).
Proof.
  induction zip as [|f zip IH] using rev_ind; [by split; [|constructor]|].
  intros [Hzip Hf]%Forall_app. rewrite group_files_snoc.
  destruct (IH Hzip) as [Hp Hfs].
  destruct (group_files p zip) as [p' fs]. cbn [fst snd] in *. subst p'.
  apply forEach_callback_non_matching; [by inversion Hf|done].
Qed.

End Reconstruction.

(** * Batching and storing *)

Lemma scheduleNotification_run c t w :
  scheduleNotification c t w
  = (Returned tt,
     set_notificationTimeout (Some (nextHandle w))
       (set_timers
          (uncleared w ++ [{| handle := nextHandle w; due := now w + 1000;
                              callback := flush_notification |}])
          (Pos.succ (nextHandle w))
          (set_notificationBatch (Some (merged (notificationBatch w) c t)) w))).
Proof.
  unfold scheduleNotification, setTimeout, clearTimeout, uncleared, merged,
    remember.
  run. destruct w as [o l [b|] [h|] st n ts nh cr rr cs]; reflexivity.
Qed.

Lemma storage_prepend_run items w :
  storage_prepend items w
  = (Returned tt,
     let updated := items ++ default [] (capturedItems (storage w)) in
     set_calls (calls w ++ [storage_local_set updated])
       (set_storage {| capturedItems := Some updated;
                       previewData := previewData (storage w) |} w)).
Proof. reflexivity. Qed.

Section Processing.

Variable env : Env.

Lemma processZipData_run data src tab w :
  processZipData env data src tab w
  = match reconstruct env data src w with
    | (Returned items, w1) =>
        if (0 <? length items)%nat
        then (storage_prepend items;;
              scheduleNotification (Z.of_nat (length items)) tab) w1
        else (Returned tt, w1)
    | (Thrown _, w1) =>
        (Returned tt,
         set_calls
           (calls w1 ++ [console_error "[XStitch] Failed to process zip:"])
           w1)
    end.
Proof.
  unfold processZipData. run.
  destruct (reconstruct env data src w) as [[items|err] w1]; [|done].
  destruct (0 <? length items)%nat; [|done].
  rewrite storage_prepend_run. cbn zeta.
  by rewrite scheduleNotification_run.
Qed.

(** [processZipData] never throws. *)
Lemma processZipData_returns data src tab w :
  fst (processZipData env data src tab w) = Returned tt.
Proof.
  rewrite processZipData_run.
  destruct (reconstruct env data src w) as [[items|err] w1]; [|done].
  destruct (0 <? length items)%nat; [|done].
  run. rewrite storage_prepend_run. cbn zeta.
  by rewrite scheduleNotification_run.
Qed.

(** The stored collection after [processZipData]. *)
Lemma processZipData_storage data src tab w :
  storage (snd (processZipData env data src tab w))
  = match fst (reconstruct env data src w) with
    | Returned (it :: items) =>
        {| capturedItems :=
             Some ((it :: items) ++ default [] (capturedItems (storage w)));
           previewData := previewData (storage w) |}
    | _ => storage w
    end.
Proof.
  rewrite processZipData_run.
  pose proof (reconstruct_grouped env data src w) as (c & r & p & Hw).
  destruct (reconstruct env data src w) as [[items|err] w1];
    cbn [fst snd] in *; subst w1; [|done].
  destruct items as [|it items]; [done|].
  cbn [length Nat.ltb Nat.leb]. run.
  rewrite storage_prepend_run. cbn zeta.
  by rewrite scheduleNotification_run.
Qed.

End Processing.

(** * Two runs of the reconstruction *)

Section TwoRuns.

Variable env : Env.




(** The outcome depends on the world through the oracle positions and
    [Object.prototype] only. *)
Lemma reconstruct_group_reads_eq src e w1 w2 :
  objectPrototype w1 = objectPrototype w2 ->
  clockReads w1 = clockReads w2 -> randomReads w1 = randomReads w2 ->
  fst (reconstruct_group env src e w1) = fst (reconstruct_group env src e w2)
  /\ clockReads (snd (reconstruct_group env src e w1))
     = clockReads (snd (reconstruct_group env src e w2))
  /\ randomReads (snd (reconstruct_group env src e w1))
     = randomReads (snd (reconstruct_group env src e w2)).
Proof.
  intros Hp Hc Hr. destruct e as [k g]. unfold reconstruct_group. run.
  rewrite <- Hp. generalize (inherit (objectPrototype w1) g).
  intros [[[hn hd [hs|] hb]|] [[im imd is_ [ib|]]|]];
    unfold fresh_id, Date_now, Math_random36;
    run; cbn; rewrite ?Hc, ?Hr; done.
Qed.

Lemma reconstruct_groups_reads_eq src entries w1 w2 :
  objectPrototype w1 = objectPrototype w2 ->
  clockReads w1 = clockReads w2 -> randomReads w1 = randomReads w2 ->
  fst (reconstruct_groups env src entries w1)
  = fst (reconstruct_groups env src entries w2).
Proof.
  revert w1 w2. induction entries as [|e entries IH]; intros w1 w2 Hp Hc Hr;
    [done|].
  cbn [reconstruct_groups]. run.
  destruct (reconstruct_group_reads_eq src e w1 w2 Hp Hc Hr)
    as (Ho & Hc' & Hr').
  pose proof (reads_only_prototype _ _ (reconstruct_group_reads env src e w1))
    as H1.
  pose proof (reads_only_prototype _ _ (reconstruct_group_reads env src e w2))
    as H2.
  destruct (reconstruct_group env src e w1) as [[i1|e1] v1],
           (reconstruct_group env src e w2) as [[i2|e2] v2];
    cbn in Ho, Hc', Hr', H1, H2 |- *; simplify_eq; [|done].
  assert (Hv : objectPrototype v1 = objectPrototype v2) by congruence.
  specialize (IH v1 v2 Hv Hc' Hr').
  destruct (reconstruct_groups env src entries v1) as [[l1|x1] u1],
           (reconstruct_groups env src entries v2) as [[l2|x2] u2];
    cbn in IH |- *; by simplify_eq.
Qed.

Lemma reconstruct_reads_eq data src w1 w2 :
  objectPrototype w1 = objectPrototype w2 ->
  clockReads w1 = clockReads w2 -> randomReads w1 = randomReads w2 ->
  fst (reconstruct env data src w1) = fst (reconstruct env data src w2).
Proof.
  intros Hp Hc Hr. rewrite !reconstruct_run, Hp.
  destruct (loadAsync env _) as [zip|]; [|done].
  by apply reconstruct_groups_reads_eq.
Qed.

End TwoRuns.

(** * The notification batcher *)

Section Batcher.

Variable env : Env.

Lemma schedule_idle c t w :
  idle w ->
  let w' := snd (scheduleNotification c t w) in
  armed w' {| count := c; tabId := t |} (now w + 1000)
  /\ calls w' = calls w /\ now w' = now w.
Proof.
  intros [Hb Ht]. rewrite scheduleNotification_run. cbn.
  unfold armed, uncleared. cbn. rewrite Hb, Ht. cbn.
  split; [|done]. split; [done|]. exists (nextHandle w).
  by destruct (notificationTimeout w).
Qed.

Lemma schedule_armed c t w b d :
  armed w b d ->
  let w' := snd (scheduleNotification c t w) in
  armed w'
    {| count := count b + c; tabId := remember (tabId b) t |}
    (now w + 1000)
  /\ calls w' = calls w /\ now w' = now w.
Proof.
  intros (Hb & h & Hh & Ht). rewrite scheduleNotification_run. cbn.
  unfold armed, uncleared. cbn. rewrite Hb, Hh, Ht. cbn.
  rewrite Pos.eqb_refl. cbn. split; [|done]. split; [done|].
  by exists (nextHandle w).
Qed.

Lemma advance_early t w b d :
  armed w b d -> t < d ->
  advance env t w = (Returned tt, set_now (Z.max (now w) t) w).
Proof.
  intros (Hb & h & Hh & Ht) Hlt. unfold advance. run.
  rewrite Ht. cbn [length fire_due]. run. rewrite Ht. cbn.
  destruct (Z.leb_spec d t); [lia|done].
Qed.

Lemma advance_idle t w :
  timers w = [] ->
  advance env t w = (Returned tt, set_now (Z.max (now w) t) w).
Proof. intros Ht. unfold advance. run. by rewrite Ht. Qed.

Lemma send_to_first_run tabs msg w :
  send_to_first tabs msg w
  = (Returned tt,
     match tabs with
     | Some id :: _ =>
         if Js.truthy_number (Some id)
         then set_calls (calls w ++ [tabs_sendMessage id msg]) w else w
     | _ => w
     end).
Proof.
  destruct tabs as [|[id|] tabs]; try done.
  unfold send_to_first. by destruct (Js.truthy_number (Some id)).
Qed.

Lemma flush_run w b :
  notificationBatch w = Some b ->
  flush_notification_callback env w
  = (Returned tt,
     set_calls (calls w ++ delivery env (now w) b)
       (set_notificationTimeout None (set_notificationBatch None w))).
Proof.
  intros Hb. unfold flush_notification_callback, delivery, delivery_target.
  run. rewrite Hb. cbn.
  destruct (tabId b) as [id|]; cbn.
  - destruct (negb (id =? 0)); [done|]. run. cbn.
    rewrite send_to_first_run. cbn.
    destruct (tabsQuery env (now w) None) as [|[i|] ?]; cbn;
      rewrite ?app_nil_r; try by destruct w.
    destruct (negb (i =? 0)); cbn; rewrite ?app_nil_r; by destruct w.
  - rewrite send_to_first_run. cbn.
    destruct (tabsQuery env (now w) None) as [|[i|] ?]; cbn;
      rewrite ?app_nil_r; try by destruct w.
    destruct (negb (i =? 0)); cbn; rewrite ?app_nil_r; by destruct w.
Qed.

Lemma advance_flush t w b d :
  armed w b d -> d <= t ->
  exists w',
    advance env t w = (Returned tt, w')
    /\ idle w'
    /\ calls w' = calls w ++ delivery env (Z.max (now w) d) b
    /\ now w' = Z.max (Z.max (now w) d) t.
Proof.
  intros (Hb & h & Hh & Ht) Hle. unfold advance. run.
  rewrite Ht. cbn [length fire_due]. run. rewrite Ht. cbn [next_timer due].
  destruct (Z.leb_spec d t); [|lia].
  unfold clearTimeout. run. cbn [handle callback run_callback].
  rewrite (flush_run _ b) by done.
  cbn. rewrite Ht. cbn. rewrite Pos.eqb_refl. cbn.
  eexists. split; [reflexivity|]. by cbn.
Qed.

End Batcher.

Lemma scheduleNotification_pair c t w :
  scheduleNotification c t w = (Returned tt, snd (scheduleNotification c t w)).
Proof. by rewrite scheduleNotification_run. Qed.

Lemma idle_set_now t w : idle w -> idle (set_now t w).
Proof. by intros [? ?]. Qed.

Lemma armed_set_now t w b d : armed w b d -> armed (set_now t w) b d.
Proof. by intros (? & ? & ? & ?); split; eauto. Qed.


(** * The side-panel toggle *)

Section Toggle.

Variable env : Env.

(** The first request: whatever it does to the panel, it records its time
    and leaves the set of open panels alone. *)
Lemma toggle_records tabId_ windowId w :
  windowId <> 0 -> tabId_ <> 0 ->
  let w1 := final (onMessage env TOGGLE_SIDE_PANEL
                     (tab_sender tabId_ windowId)) w in
  lastToggleTimes w1 !! tabId_ = Some (dateNow env (clockReads w))
  /\ openSidePanels w1 = openSidePanels w
  /\ clockReads w1 = S (clockReads w).
Proof.
  intros Hw Ht. unfold onMessage, tab_sender, Date_now, setTimeout. run. cbn.
  destruct (Z.eqb_spec windowId 0); [done|].
  destruct (Z.eqb_spec tabId_ 0); [done|]. cbn.
  destruct (_ || _); cbn; by rewrite lookup_insert_eq.
Qed.

(** A request that finds the panel believed closed less than a second
    after the recorded toggle. *)
Lemma toggle_stuck tabId_ windowId w last :
  windowId <> 0 -> tabId_ <> 0 ->
  windowId ∉ openSidePanels w ->
  lastToggleTimes w !! tabId_ = Some last ->
  dateNow env (clockReads w) - last < 1000 ->
  let w2 := final (onMessage env TOGGLE_SIDE_PANEL
                     (tab_sender tabId_ windowId)) w in
  calls w2 = calls w ++ [sidePanel_setOptions tabId_ false None]
  /\ timers w2
     = timers w ++ [{| handle := nextHandle w; due := now w + 10;
                       callback := reenable_panel tabId_ windowId true |}].
Proof.
  intros Hw Ht Hclosed Hlast Hlt.
  unfold onMessage, tab_sender, Date_now, setTimeout. run. cbn.
  destruct (Z.eqb_spec windowId 0); [done|].
  destruct (Z.eqb_spec tabId_ 0); [done|]. cbn.
  rewrite Hlast. cbn. rewrite bool_decide_eq_false_2 by done. cbn.
  destruct (Z.ltb_spec (dateNow env (clockReads w) - last) 1000); [|lia].
  done.
Qed.

(** The timer of the forced close re-enables the panel and opens
    nothing. *)
Lemma reenable_run tabId_ windowId isStuck v :
  exists rest,
    calls (final (run_callback env (reenable_panel tabId_ windowId isStuck)) v)
    = calls v ++ sidePanel_setOptions tabId_ true (Some "index.html") :: rest
    /\ Forall (fun c => is_open_call c = false) rest.
Proof.
  unfold run_callback, broadcastSidePanelState. run. cbn.
  destruct isStuck; cbn; [|by exists []].
  rewrite send_to_first_run. cbn.
  destruct (tabsQuery env (now v) (Some windowId)) as [|[i|] ?]; cbn;
    try by exists [].
  destruct (negb (i =? 0)); cbn; [|by exists []].
  eexists [_]. rewrite <- app_assoc. split; [done|]. by repeat constructor.
Qed.

End Toggle.

(** * Sanitising a title *)

Section Sanitize.

Lemma invalid_filename_char_listed c :
  Re.invalid_filename_char c = bool_decide (c ∈ invalid_chars).
Proof. destruct c as [[] [] [] [] [] [] [] []]; vm_compute; reflexivity. Qed.

Lemma strip_invalid_remove_chars s :
  Re.strip_invalid s = remove_chars invalid_chars s.
Proof.
  unfold Re.strip_invalid. induction s as [|c s IH]; [done|].
  cbn [Js.filter_chars remove_chars].
  rewrite invalid_filename_char_listed, IH.
  by destruct (bool_decide _).
Qed.

Lemma trimStart_split s :
  exists l, s = l +:+ Js.trimStart s /\ all_space l = true.
Proof.
  induction s as [|c s (l & Hl & Hs)]; [by exists ""|].
  cbn [Js.trimStart]. destruct (Js.is_space c) eqn:Hc.
  - exists (String c l).
    split; [exact (f_equal (String c) Hl)|cbn; by rewrite Hc].
  - by exists "".
Qed.

Lemma trimStart_first s c :
  first_char (Js.trimStart s) = Some c -> Js.is_space c = false.
Proof.
  induction s as [|c' s IH]; [done|]. cbn [Js.trimStart].
  destruct (Js.is_space c') eqn:Hc; [done|]. by intros [= <-].
Qed.

Lemma trimEnd_split s :
  exists r, s = Js.trimEnd s +:+ r /\ all_space r = true.
Proof.
  induction s as [|c s (r & Hr & Hs)]; [by exists ""|].
  cbn [Js.trimEnd]. destruct (Js.trimEnd s) as [|k ks] eqn:Hk.
  - destruct (Js.is_space c) eqn:Hc.
    + exists (String c r).
      split; [exact (f_equal (String c) Hr)|cbn; by rewrite Hc].
    + exists r. split; [exact (f_equal (String c) Hr)|done].
  - exists r. split; [exact (f_equal (String c) Hr)|done].
Qed.

Lemma trimEnd_last s c :
  last_char (Js.trimEnd s) = Some c -> Js.is_space c = false.
Proof.
  induction s as [|c' s IH]; [done|]. cbn [Js.trimEnd].
  destruct (Js.trimEnd s) as [|k ks] eqn:Hk.
  - destruct (Js.is_space c') eqn:Hc; [done|]. by intros [= <-].
  - exact IH.
Qed.

Lemma trimEnd_first s c :
  first_char (Js.trimEnd s) = Some c -> first_char s = Some c.
Proof.
  destruct s as [|c' s]; [done|]. cbn [Js.trimEnd].
  destruct (Js.trimEnd s); [|done]. by destruct (Js.is_space c').
Qed.

(** [trim] removes white space at both ends and nothing else. *)
Lemma trim_spec s :
  trimmed (Js.trim s)
  /\ exists l r, s = l +:+ Js.trim s +:+ r
                 /\ all_space l = true /\ all_space r = true.
Proof.
  unfold Js.trim. split; [split|].
  - intros c H%trimEnd_first. by apply trimStart_first in H.
  - apply trimEnd_last.
  - destruct (trimStart_split s) as (l & Hl & Hls).
    destruct (trimEnd_split (Js.trimStart s)) as (r & Hr & Hrs).
    exists l, r. by rewrite <- Hr.
Qed.

End Sanitize.

(** * Renaming *)

Section Rename.

Lemma stored_title_retitle id_ t st st' :
  capturedItems st'
  = Some (retitle id_ t (default [] (capturedItems st))) ->
  stored_title id_ st' = (fun _ => Some t) <$> stored_title id_ st.
Proof.
  unfold stored_title. intros ->. cbn.
  induction (default [] (capturedItems st)) as [|it items IH]; [done|]. cbn.
  destruct (String.eqb_spec (CapturedItem.id it) id_) as [He|Hne]; cbn.
  - by rewrite He, String.eqb_refl.
  - destruct (String.eqb_spec (CapturedItem.id it) id_); [done|]. exact IH.
Qed.

End Rename.

(** * Titles *)

Section Titles.

Lemma split_cons sep s : exists h t, Js.split sep s = h :: t.
Proof.
  induction s as [|c s (h & t & IH)]; [by eexists _, _|].
  cbn [Js.split]. rewrite IH. destruct (Ascii.eqb c sep); by eexists _, _.
Qed.

Lemma split_append sep p q :
  Js.split sep (p +:+ String sep q) = Js.split sep p ++ Js.split sep q.
Proof.
  induction p as [|c p IH].
  - change ("" +:+ String sep q) with (String sep q).
    cbn [Js.split]. by rewrite Ascii.eqb_refl.
  - change (String c p +:+ String sep q) with (String c (p +:+ String sep q)).
    cbn [Js.split]. rewrite IH.
    destruct (Ascii.eqb c sep); [done|].
    by destruct (split_cons sep p) as (h & t & ->).
Qed.

(** A path that ends in the placeholder folder is titled after the
    segment before it. *)
Lemma derive_title_placeholder p :
  derive_title (p +:+ "/_canvas_screen") = clean_title (last_segment p).
Proof.
  unfold derive_title, clean_title, last_segment.
  change (p +:+ "/_canvas_screen") with (p +:+ String "/" "_canvas_screen").
  rewrite split_append.
  destruct (split_cons "/" p) as (h & t & ->).
  change (Js.split "/" "_canvas_screen") with ["_canvas_screen"].
  rewrite length_app. cbn [length].
  replace (S (length t) + 1 - 1)%nat with (length (h :: t) + 0)%nat
    by (cbn; lia).
  rewrite lookup_app_r by lia.
  replace (length (h :: t) + 0 - length (h :: t))%nat with 0%nat by lia.
  cbn [lookup list_lookup default].
  replace (1 <? S (length t) + 1)%nat with true
    by (symmetry; apply Nat.ltb_lt; lia).
  cbn [String.eqb Ascii.eqb Bool.eqb andb].
  replace (S (length t) + 1 - 2)%nat with (pred (length (h :: t)))
    by (cbn; lia).
  rewrite lookup_app_l by (cbn; lia).
  by rewrite <- last_lookup.
Qed.

Lemma is_word_listed c :
  Js.is_word c
  = bool_decide
      (c ∈ list_ascii_of_string
             ("abcdefghijklmnopqrstuvwxyz_0123456789"
              +:+ "ABCDEFGHIJKLMNOPQRSTUVWXYZ")).
Proof. destruct c as [[] [] [] [] [] [] [] []]; by vm_compute. Qed.

Lemma upper_word_starts_length b s :
  String.length (Re.upper_word_starts b s) = String.length s.
Proof.
  revert b. induction s as [|c s IH]; intros b; [done|].
  cbn. by rewrite IH.
Qed.

End Titles.

(** * The claims *)

(** C1, as amended.  In a worker whose [Object.prototype] has no [html]
    and no [image], and for an archive with no file directly in a folder
    named [__proto__], grouping leaves [Object.prototype] as it is, and
    within each directory group whose path is not the name of a member of
    [Object.prototype] the HTML source is the LAST enumerated non-directory
    entry named [index.html], [code.html] or [*.html] (every such entry
    replaces the one held before), and the image is the FIRST enumerated
    non-directory entry with a raster-image extension (later images of the
    group are ignored). *)
Theorem grouping_keeps_last_html_first_image zip k :
  Forall (fun f => pollutes f = false) zip ->
  names_group Folder.empty k = true ->
  fst (group_files Folder.empty zip) = Folder.empty
  /\ chosen_html k (snd (group_files Folder.empty zip))
     = last_entry (html_entry k) zip
  /\ chosen_image k (snd (group_files Folder.empty zip))
     = first_entry (image_entry k) zip.
Proof.
  intros Hzip Hk.
  pose proof (group_files_keeps_prototype Folder.empty zip Hzip) as Hp.
  split; [done|]. split.
  - apply chosen_html_last. by rewrite Hp.
  - rewrite chosen_image_taken by (by rewrite Hp).
    by rewrite taken_image_first.
Qed.

Lemma grouping_keeps_last_html_first_image_witness :
  chosen_html "Screen" (snd (group_files Folder.empty Sample.two_html))
  = last_entry (html_entry "Screen") Sample.two_html.
Proof.
  destruct (grouping_keeps_last_html_first_image Sample.two_html "Screen")
    as (_ & H & _).
  - repeat constructor.
  - reflexivity.
  - exact H.
Defined.

(** C1 as stated fails: with [Screen/index.html] enumerated before
    [Screen/code.html], the group keeps [code.html], which is not the first
    enumerated HTML entry of the group. *)
Lemma first_html_is_overwritten :
  first_entry (html_entry "Screen") Sample.two_html = Some Sample.index_html
  /\ chosen_html "Screen" (snd (group_files Folder.empty Sample.two_html))
     = Some Sample.code_html
  /\ chosen_html "Screen" (snd (group_files Folder.empty Sample.two_html))
     <> first_entry (html_entry "Screen") Sample.two_html.
Proof. repeat split; [reflexivity..|]. vm_compute. discriminate. Qed.

(** C2, the behaviour of the code on a folder that holds only
    [Screen/preview.png], in a worker whose [Object.prototype] has no
    [html] and no [image]: exactly one item is emitted, its [image] is the
    data URL of the entry and its [html] is not empty, but the [html] is the
    wrapper around the NAME of the entry; it contains neither the image data
    nor any data URL. *)
Theorem image_only_wrapper_names_entry w :
  objectPrototype w = Folder.empty ->
  exists it,
    fst (reconstruct (Sample.browser Sample.image_only)
           Sample.data_url Sample.source w) = Returned [it]
    /\ CapturedItem.image it = Some "data:image/png;base64,iVBORw0KGgo="
    /\ CapturedItem.html it = wrapper_document "Screen/preview.png"
    /\ Js.truthy_string (CapturedItem.html it) = true
    /\ Js.includes "Screen/preview.png" (CapturedItem.html it) = true
    /\ Js.includes "iVBORw0KGgo=" (CapturedItem.html it) = false
    /\ Js.includes "data:" (CapturedItem.html it) = false.
Proof.
  intros Hp. unfold reconstruct. run. cbn. rewrite Hp.
  eexists. split; [reflexivity|]. by vm_compute.
Qed.

Lemma image_only_wrapper_names_entry_witness :
  exists it,
    fst (reconstruct (Sample.browser Sample.image_only)
           Sample.data_url Sample.source Sample.start) = Returned [it]
    /\ CapturedItem.html it = wrapper_document "Screen/preview.png".
Proof.
  destruct (image_only_wrapper_names_entry Sample.start eq_refl)
    as (it & H1 & _ & H2 & _).
  by exists it.
Defined.




(** C4, the behaviour of the code: the export trigger of a page with a
    55-character selection sends a [STITCH_EXPORT_FULL] message titled
    [Selected Code], and the message listener of the service worker leaves
    the world as it is on every such message: nothing is stored. *)
Theorem export_full_is_dropped :
  (exists payload,
      Content.handleExportTrigger Sample.selecting
      = [Content.runtime_sendMessage (STITCH_EXPORT_FULL payload);
         Content.showToast Content.SelectedCodeCaptured]
      /\ Some (payload_html payload) = Content.selection Sample.selecting
      /\ payload_title payload = "Selected Code")
  /\ forall env payload sender w,
      onMessage env (STITCH_EXPORT_FULL payload) sender w = (Returned false, w).
Proof. split; [eexists; by vm_compute|done]. Qed.

(** C5, the behaviour of the code on an archive that holds only
    [docs/readme.txt], a file that is neither HTML nor a raster image, in a
    worker that ingested an archive with [__proto__/index.html] before.  The
    first archive stores nothing and leaves its HTML entry in
    [Object.prototype]; the second archive then yields one item, titled
    [Docs], whose [html] is the text of that entry: the item is stored and
    a notification for one item is scheduled. *)
Theorem inherited_html_is_stored :
  let env :=
    Sample.browser_of_two Sample.prototype_folder Sample.notes_only in
  let w1 :=
    final (processZipData env Sample.data_url Sample.source None)
      Sample.start in
  let w2 := final (processZipData env Sample.next_url Sample.source None) w1 in
  Forall (fun f => non_matching f = true) Sample.notes_only
  /\ storage w1 = Sample.no_storage
  /\ Folder.html (objectPrototype w1) = Some Sample.proto_html
  /\ (exists it,
        capturedItems (storage w2) = Some [it]
        /\ CapturedItem.title it = Some "Docs"
        /\ CapturedItem.html it = "<h1>kept</h1>"
        /\ CapturedItem.image it = None)
  /\ notificationBatch w2 = Some {| count := 1; tabId := None |}
  /\ length (timers w2) = 1%nat.
Proof.
  cbn zeta. split; [by repeat constructor|].
  do 2 (split; [reflexivity|]).
  split; [eexists; split; [reflexivity|]; by vm_compute|].
  split; reflexivity.
Qed.

(** C6.  The group [_canvas_screen/Home_Page] is titled [Home Page], and so
    is the group [Home_Page/_canvas_screen], where the last segment is the
    placeholder and the parent segment is used; in general a path that ends
    in the placeholder is titled after the segment before it, and the
    placeholder alone, which has no parent, is titled after itself.  The
    root folder [My_Button] is titled [My Button]: every underscore becomes
    a space and the first letter of every word is put in upper case, the
    other letters staying as they are; a word starts at an ASCII letter or
    digit that follows no ASCII letter, digit or underscore.  The title [Stitch Landing] is stored
    as [Landing]: the prefix is the word [Stitch] in any case followed by
    white space, and only at the start.  An archive with the three folders
    stores these three titles. *)
Theorem title_derivation_examples :
  derive_title "_canvas_screen/Home_Page" = "Home Page"
  /\ derive_title "Home_Page/_canvas_screen" = "Home Page"
  /\ (forall p,
        derive_title (p +:+ "/_canvas_screen") = clean_title (last_segment p))
  /\ derive_title "My_Button" = "My Button"
  /\ Re.strip_vendor "Stitch Landing" = "Landing"
  /\ derive_title "Stitch_Landing" = "Landing"
  /\ (forall w,
        objectPrototype w = Folder.empty ->
        CapturedItem.title <$>
          default []
            (capturedItems
               (storage (final (processZipData (Sample.browser Sample.titled)
                                  Sample.data_url Sample.source None) w)))
        = [Some "Home Page"; Some "My Button"; Some "Landing"]
          ++ (CapturedItem.title <$> default [] (capturedItems (storage w))))
  /\ (* the parent segment, and only when there is one *)
     derive_title "exports/home_page/_canvas_screen" = "Home Page"
  /\ derive_title "_canvas_screen" = " Canvas Screen"
  /\ derive_title "/_canvas_screen" = ""
  /\ derive_title "_canvas_screen/x" = "X"
  /\ (* every word is capitalised, and only its first letter *)
     derive_title "my_button" = "My Button"
  /\ derive_title "iPhone_mock" = "IPhone Mock"
  /\ derive_title "log-in_page" = "Log-In Page"
  /\ derive_title "2nd_screen_v2b" = "2nd Screen V2b"
  /\ Re.upper_word_starts false "a_b c" = "A_b C"
  /\ Js.map_chars Js.toUpperCase
       "abcdefghijklmnopqrstuvwxyz_0123456789ABCDEFGHIJKLMNOPQRSTUVWXYZ"
     = "ABCDEFGHIJKLMNOPQRSTUVWXYZ_0123456789ABCDEFGHIJKLMNOPQRSTUVWXYZ"
  /\ (forall c,
        Js.is_word c
        = bool_decide
            (c ∈ list_ascii_of_string
                   ("abcdefghijklmnopqrstuvwxyz_0123456789"
                    +:+ "ABCDEFGHIJKLMNOPQRSTUVWXYZ")))
  /\ (forall s,
        String.length (Re.upper_word_starts false s) = String.length s)
  /\ (* the vendor prefix *)
     derive_title "stitch_landing" = "Landing"
  /\ derive_title "STITCH__dashboard" = "Dashboard"
  /\ derive_title "Stitching_Demo" = "Stitching Demo"
  /\ derive_title "Stitch" = "Stitch"
  /\ derive_title "My_Stitch_Page" = "My Stitch Page"
  /\ derive_title "stitch_" = "".
Proof.
  do 2 (split; [reflexivity|]). split; [apply derive_title_placeholder|].
  do 3 (split; [reflexivity|]).
  split.
  { intros w Hp. unfold final. rewrite processZipData_storage.
    unfold reconstruct. run. cbn. rewrite Hp. reflexivity. }
  do 10 (split; [reflexivity|]).
  split; [apply is_word_listed|]. split; [apply upper_word_starts_length|].
  do 5 (split; [reflexivity|]). reflexivity.
Qed.

Lemma title_derivation_examples_witness :
  CapturedItem.title <$>
    default []
      (capturedItems
         (storage (final (processZipData (Sample.browser Sample.titled)
                            Sample.data_url Sample.source None) Sample.start)))
  = [Some "Home Page"; Some "My Button"; Some "Landing"].
Proof.
  destruct title_derivation_examples as (_ & _ & _ & _ & _ & _ & H & _).
  exact (H Sample.start eq_refl).
Defined.

(** C7, as amended.  The sanitised title is the input with exactly the
    characters of [invalid_chars] removed (less-than, greater-than, colon,
    double quote, slash, backslash, bar, question mark, star) and the white
    space at both ends trimmed.  The preview page stores it for the item it
    shows, and stores [Untitled Design] when it is empty.  The side-panel
    card stores it when it is not empty; when it is empty the card renames
    nothing, the stored collection stays as it is, and the edit field goes
    back to the title of the item. *)
Theorem rename_stores_sanitized_title input :
  let t := sanitize_title input in
  t = Js.trim (remove_chars invalid_chars input)
  /\ trimmed t
  /\ (exists l r,
        remove_chars invalid_chars input = l +:+ t +:+ r
        /\ all_space l = true /\ all_space r = true)
  /\ (forall d editing st,
        let final_ := if Js.truthy_string t then t else "Untitled Design" in
        let st' :=
          snd (PreviewApp.handleSaveTitle
                 {| PreviewApp.data := Some d;
                    PreviewApp.titleInput := input;
                    PreviewApp.isEditingTitle := editing |} st) in
        capturedItems st'
        = Some (retitle (CapturedItem.id d) final_
                  (default [] (capturedItems st)))
        /\ stored_title (CapturedItem.id d) st'
           = (fun _ => Some final_) <$> stored_title (CapturedItem.id d) st)
  /\ (forall item editing app,
        let app' :=
          snd (ExportCard.handleSaveTitle item
                 {| ExportCard.newTitle := input;
                    ExportCard.isEditing := editing |} app) in
        let card' :=
          fst (ExportCard.handleSaveTitle item
                 {| ExportCard.newTitle := input;
                    ExportCard.isEditing := editing |} app) in
        if Js.truthy_string t
        then App.store app'
             = {| capturedItems :=
                    Some (retitle (CapturedItem.id item) t (App.items app));
                  previewData := previewData (App.store app) |}
        else app' = app
             /\ ExportCard.newTitle card'
                = Js.or_default (CapturedItem.title item) "Untitled Design").
Proof.
  cbn zeta. unfold sanitize_title. rewrite strip_invalid_remove_chars.
  destruct (trim_spec (remove_chars invalid_chars input)) as [Ht Hsplit].
  do 3 (split; [done|]). split.
  - intros d editing st.
    set (final_ := if Js.truthy_string _ then _ else _).
    assert (Hcap :
      capturedItems
        (snd (PreviewApp.handleSaveTitle
                {| PreviewApp.data := Some d; PreviewApp.titleInput := input;
                   PreviewApp.isEditingTitle := editing |} st))
      = Some (retitle (CapturedItem.id d) final_
                (default [] (capturedItems st)))).
    { unfold PreviewApp.handleSaveTitle, sanitize_title.
      cbn [PreviewApp.data PreviewApp.titleInput snd capturedItems].
      by rewrite strip_invalid_remove_chars. }
    split; [exact Hcap|by apply stored_title_retitle].
  - intros item editing app. unfold ExportCard.handleSaveTitle, sanitize_title.
    cbn. rewrite strip_invalid_remove_chars.
    by destruct (Js.truthy_string _).
Qed.

(** C7 as stated fails for the side-panel card: saving the input [???] on
    the card of the stored item titled [Login] leaves the stored title
    [Login]; it does not become [Untitled Design]. *)
Lemma card_keeps_title_on_empty_input :
  sanitize_title "???" = ""
  /\ stored_title (CapturedItem.id Sample.login)
       (App.store
          (snd (ExportCard.handleSaveTitle Sample.login
                  {| ExportCard.newTitle := "???";
                     ExportCard.isEditing := true |} Sample.panel)))
     = Some (Some "Login")
  /\ stored_title (CapturedItem.id Sample.login)
       (App.store
          (snd (ExportCard.handleSaveTitle Sample.login
                  {| ExportCard.newTitle := "???";
                     ExportCard.isEditing := true |} Sample.panel)))
     <> Some (Some "Untitled Design").
Proof. repeat split; [reflexivity..|]. vm_compute. discriminate. Qed.

(** C8, as amended.  Let the batcher be idle, let three ingestion events
    arrive, each less than one second after the one before, and let at
    least one second pass after the third.  Then the batcher flushes once,
    one second after the third event, with the sum of the three counts; it
    sends that one notification to the tab remembered from the events, or
    to the first active tab of the current window, and sends nothing when
    neither exists.  Afterwards no batch is open and no timer is pending. *)
Theorem three_events_one_flush env w t1 c1 tab1 t2 c2 tab2 t3 c3 tab3 T :
  idle w -> now w <= t1 ->
  t1 <= t2 < t1 + 1000 -> t2 <= t3 < t2 + 1000 -> t3 + 1000 <= T ->
  let w' := final (three_events env t1 c1 tab1 t2 c2 tab2 t3 c3 tab3 T) w in
  calls w'
  = calls w ++
    match delivery_target env (t3 + 1000)
            (remember (remember tab1 tab2) tab3) with
    | Some id =>
        [tabs_sendMessage id (SHOW_XSTITCH_NOTIFICATION (c1 + c2 + c3))]
    | None => []
    end
  /\ notificationBatch w' = None /\ timers w' = [].
Proof.
  intros Hidle Hnow H12 H23 HT. unfold three_events. run.
  rewrite (advance_idle env t1 w) by apply Hidle. cbv beta iota.
  set (w1 := set_now _ w).
  assert (Hn1 : now w1 = t1) by (cbn; lia).
  rewrite (scheduleNotification_pair c1 tab1 w1). cbv beta iota.
  destruct (schedule_idle c1 tab1 w1 (idle_set_now _ _ Hidle))
    as (Ha2 & Hc2 & Hn2).
  set (w2 := snd (scheduleNotification c1 tab1 w1)) in *.
  rewrite (advance_early env t2 w2 _ _ Ha2) by lia. cbv beta iota.
  apply (armed_set_now (Z.max (now w2) t2)) in Ha2.
  set (w3 := set_now _ w2) in *.
  assert (Hn3 : now w3 = t2) by (cbn; lia).
  rewrite (scheduleNotification_pair c2 tab2 w3). cbv beta iota.
  destruct (schedule_armed c2 tab2 w3 _ _ Ha2) as (Ha4 & Hc4 & Hn4).
  set (w4 := snd (scheduleNotification c2 tab2 w3)) in *.
  rewrite (advance_early env t3 w4 _ _ Ha4) by lia. cbv beta iota.
  apply (armed_set_now (Z.max (now w4) t3)) in Ha4.
  set (w5 := set_now _ w4) in *.
  assert (Hn5 : now w5 = t3) by (cbn; lia).
  rewrite (scheduleNotification_pair c3 tab3 w5). cbv beta iota.
  destruct (schedule_armed c3 tab3 w5 _ _ Ha4) as (Ha6 & Hc6 & Hn6).
  set (w6 := snd (scheduleNotification c3 tab3 w5)) in *.
  destruct (advance_flush env T w6 _ _ Ha6) as (w7 & -> & [Hb7 Ht7] & Hc7 & _);
    [lia|].
  cbn [snd]. split; [|done].
  rewrite Hc7, Hc6. change (calls w5) with (calls w4).
  rewrite Hc4. change (calls w3) with (calls w2).
  rewrite Hc2. change (calls w1) with (calls w).
  unfold delivery. cbn [count tabId].
  replace (Z.max (now w6) (now w5 + 1000)) with (t3 + 1000) by lia.
  by destruct (delivery_target _ _ _).
Qed.

Lemma three_events_one_flush_witness :
  calls (final (three_events (Sample.browser []) 0 1 (Some 5) 400 2 None
                  800 3 None 1800) Sample.start)
  = [tabs_sendMessage 5 (SHOW_XSTITCH_NOTIFICATION 6)].
Proof.
  destruct (three_events_one_flush (Sample.browser []) Sample.start
              0 1 (Some 5) 400 2 None 800 3 None 1800) as [H _].
  - split; reflexivity.
  - simpl. lia.
  - lia.
  - lia.
  - lia.
  - exact H.
Defined.

(** C8 as stated fails: when none of the three events carries a tab and the
    current window has no active tab, the flush sends no notification. *)
Lemma no_target_no_notification :
  notifications
    (calls (final (three_events (Sample.browser []) 0 1 None 400 2 None
                     800 3 None 1800) Sample.start))
  = []
  /\ length (notifications
               (calls (final (three_events (Sample.browser []) 0 1 None
                                400 2 None 800 3 None 1800) Sample.start)))
     <> 1%nat.
Proof. split; [reflexivity|]. vm_compute. discriminate. Qed.

(** C9.  Let a tab send two toggle requests whose clock readings are less
    than one second apart, while the window of the tab is not in the set of
    open panels.  Then the second request does not open the panel: its
    one call disables the panel of the tab, and it starts the timer that,
    10 ms later, enables the panel again and announces it closed, without
    any call that opens a panel. *)
Theorem second_toggle_forces_close env w tabId_ windowId :
  windowId <> 0 -> tabId_ <> 0 ->
  windowId ∉ openSidePanels w ->
  dateNow env (S (clockReads w)) - dateNow env (clockReads w) < 1000 ->
  let toggle := onMessage env TOGGLE_SIDE_PANEL (tab_sender tabId_ windowId) in
  let w1 := final toggle w in
  let w2 := final toggle w1 in
  calls w2 = calls w1 ++ [sidePanel_setOptions tabId_ false None]
  /\ timers w2
     = timers w1 ++ [{| handle := nextHandle w1; due := now w1 + 10;
                        callback := reenable_panel tabId_ windowId true |}]
  /\ forall v, exists rest,
        calls (final (run_callback env (reenable_panel tabId_ windowId true)) v)
        = calls v ++ sidePanel_setOptions tabId_ true (Some "index.html") :: rest
        /\ Forall (fun c => is_open_call c = false) rest.
Proof.
  intros Hw Ht Hclosed Hlt toggle w1 w2.
  destruct (toggle_records env tabId_ windowId w Hw Ht) as (Hlast & Hopen & Hc).
  fold toggle in Hlast, Hopen, Hc. fold w1 in Hlast, Hopen, Hc.
  destruct (toggle_stuck env tabId_ windowId w1
              (dateNow env (clockReads w)) Hw Ht) as [Hcalls Htimers].
  - by rewrite Hopen.
  - exact Hlast.
  - by rewrite Hc.
  - split; [exact Hcalls|]. split; [exact Htimers|].
    intros v. apply reenable_run.
Qed.

Lemma second_toggle_forces_close_witness :
  let toggle :=
    onMessage (Sample.browser []) TOGGLE_SIDE_PANEL (tab_sender 7 2) in
  calls (final toggle (final toggle Sample.start))
  = [sidePanel_setOptions 7 true (Some "index.html"); sidePanel_open 2;
     sidePanel_setOptions 7 false None].
Proof.
  intros toggle.
  destruct (second_toggle_forces_close (Sample.browser []) Sample.start 7 2)
    as [H _].
  - lia.
  - lia.
  - apply not_elem_of_empty.
  - simpl. lia.
  - exact H.
Defined.




(** * Further properties *)

(** * Runs of ingestion events *)

Section Arrivals.

Variable env : Env.

Lemma foldl_remember_batch b rest :
  foldl (fun b e => merged (Some b) (arrival_count e) (arrival_tab e)) b rest
  = {| count := count b + total_count rest;
       tabId := foldl (fun t e => remember t (arrival_tab e)) (tabId b) rest |}.
Proof.
  revert b. induction rest as [|e rest IH]; intros b; cbn.
  - destruct b as [c t]. unfold total_count. cbn. by rewrite Z.add_0_r.
  - rewrite IH. unfold total_count. cbn. by rewrite Z.add_assoc.
Qed.

Lemma last_cons_default {A} (l : list A) z d :
  List.last (z :: l) d = List.last l z.
Proof.
  revert z d. induction l as [|x l IH]; intros z d; [done|].
  change (List.last (z :: x :: l) d) with (List.last (x :: l) d).
  by rewrite (IH x d), (IH x z).
Qed.

(** While the batch is open, every event that arrives in time joins it and
    moves the flush to one second after itself. *)
Lemma arrivals_armed rest :
  forall w b prev,
    armed w b (prev + 1000) -> now w = prev -> chained prev rest ->
    exists w',
      arrivals env rest w = (Returned tt, w')
      /\ armed w'
           (foldl (fun b e => merged (Some b) (arrival_count e) (arrival_tab e))
              b rest)
           (List.last (map arrival_time rest) prev + 1000)
      /\ now w' = List.last (map arrival_time rest) prev
      /\ calls w' = calls w.
Proof.
  induction rest as [|e rest IH]; intros w b prev Ha Hn Hch.
  - exists w. by cbn.
  - destruct Hch as [He Hch]. cbn [arrivals]. run.
    rewrite (advance_early env (arrival_time e) w _ _ Ha) by lia.
    cbv beta iota.
    apply (armed_set_now (Z.max (now w) (arrival_time e))) in Ha.
    set (w1 := set_now _ w) in *.
    assert (Hn1 : now w1 = arrival_time e) by (cbn; lia).
    rewrite (scheduleNotification_pair _ _ w1). cbv beta iota.
    destruct (schedule_armed (arrival_count e) (arrival_tab e) w1 _ _ Ha)
      as (Ha2 & Hc2 & Hn2).
    set (w2 := snd (scheduleNotification _ _ w1)) in *.
    rewrite Hn1 in Ha2.
    destruct (IH w2 _ (arrival_time e) Ha2) as (w' & Hrun & Ha' & Hn' & Hc');
      [lia|done|].
    exists w'. split; [exact Hrun|]. cbn [foldl map].
    replace (List.last (arrival_time e :: map arrival_time rest) prev)
      with (List.last (map arrival_time rest) (arrival_time e)).
    + split; [exact Ha'|]. split; [exact Hn'|]. by rewrite Hc', Hc2.
    + symmetry. apply last_cons_default.
Qed.

End Arrivals.

(** X1.  A burst of any length: when the batcher is idle and every event
    arrives less than one second after the one before, nothing is sent
    until one second after the last event; then one flush carries the sum
    of all counts to the tab of the latest event that has one (or to the
    active tab), and the batcher is idle again. *)
Theorem burst_is_one_flush env w first rest T :
  idle w -> now w <= arrival_time first ->
  chained (arrival_time first) rest ->
  last_arrival first rest + 1000 <= T ->
  let w' := final (arrivals env (first :: rest);; advance env T) w in
  calls w'
  = calls w ++
    match delivery_target env (last_arrival first rest + 1000)
            (latest_tab first rest) with
    | Some id =>
        [tabs_sendMessage id
           (SHOW_XSTITCH_NOTIFICATION (total_count (first :: rest)))]
    | None => []
    end
  /\ idle w'.
Proof.
  intros Hidle Hnow Hch HT. cbn [arrivals]. run.
  rewrite (advance_idle env (arrival_time first) w) by apply Hidle.
  cbv beta iota. set (w1 := set_now _ w).
  assert (Hn1 : now w1 = arrival_time first) by (cbn; lia).
  rewrite (scheduleNotification_pair _ _ w1). cbv beta iota.
  destruct (schedule_idle (arrival_count first) (arrival_tab first) w1
              (idle_set_now _ _ Hidle)) as (Ha2 & Hc2 & Hn2).
  set (w2 := snd (scheduleNotification _ _ w1)) in *.
  rewrite Hn1 in Ha2.
  destruct (arrivals_armed env rest w2 _ (arrival_time first) Ha2)
    as (w3 & -> & Ha3 & Hn3 & Hc3); [lia|done|].
  cbv beta iota. fold (last_arrival first rest) in Ha3, Hn3.
  destruct (advance_flush env T w3 _ _ Ha3) as (w4 & -> & Hi4 & Hc4 & _);
    [lia|].
  cbn [snd]. split; [|done].
  rewrite Hc4, Hc3, Hc2. change (calls w1) with (calls w).
  rewrite foldl_remember_batch. unfold delivery, latest_tab, total_count.
  cbn [count tabId foldr].
  replace (Z.max (now w3) (last_arrival first rest + 1000))
    with (last_arrival first rest + 1000) by lia.
  by destruct (delivery_target _ _ _).
Qed.

Lemma burst_is_one_flush_witness :
  calls (final (arrivals (Sample.browser [])
                  [ {| arrival_time := 0; arrival_count := 2;
                       arrival_tab := Some 4 |};
                    {| arrival_time := 900; arrival_count := 1;
                       arrival_tab := None |};
                    {| arrival_time := 1800; arrival_count := 3;
                       arrival_tab := Some 9 |};
                    {| arrival_time := 2700; arrival_count := 1;
                       arrival_tab := None |} ];;
                advance (Sample.browser []) 3700) Sample.start)
  = [tabs_sendMessage 9 (SHOW_XSTITCH_NOTIFICATION 7)].
Proof.
  destruct (burst_is_one_flush (Sample.browser []) Sample.start
              {| arrival_time := 0; arrival_count := 2; arrival_tab := Some 4 |}
              [ {| arrival_time := 900; arrival_count := 1;
                   arrival_tab := None |};
                {| arrival_time := 1800; arrival_count := 3;
                   arrival_tab := Some 9 |};
                {| arrival_time := 2700; arrival_count := 1;
                   arrival_tab := None |} ] 3700) as [H _].
  - split; reflexivity.
  - simpl. lia.
  - simpl. lia.
  - unfold last_arrival. simpl. lia.
  - exact H.
Defined.

(** X2.  Two events at least one second apart are announced separately:
    the first batch is flushed, with its own count and tab, before the
    second event opens a new batch, which does not inherit the tab of the
    first. *)
Theorem separate_events_two_flushes env w e1 e2 T :
  idle w -> now w <= arrival_time e1 ->
  arrival_time e1 + 1000 <= arrival_time e2 ->
  arrival_time e2 + 1000 <= T ->
  let w' := final (arrivals env [e1; e2];; advance env T) w in
  calls w'
  = calls w
    ++ delivery env (arrival_time e1 + 1000)
         {| count := arrival_count e1; tabId := arrival_tab e1 |}
    ++ delivery env (arrival_time e2 + 1000)
         {| count := arrival_count e2; tabId := arrival_tab e2 |}
  /\ idle w'.
Proof.
  intros Hidle Hnow H12 HT. cbn [arrivals]. run.
  rewrite (advance_idle env (arrival_time e1) w) by apply Hidle.
  cbv beta iota. set (w1 := set_now _ w).
  assert (Hn1 : now w1 = arrival_time e1) by (cbn; lia).
  rewrite (scheduleNotification_pair _ _ w1). cbv beta iota.
  destruct (schedule_idle (arrival_count e1) (arrival_tab e1) w1
              (idle_set_now _ _ Hidle)) as (Ha2 & Hc2 & Hn2).
  set (w2 := snd (scheduleNotification _ _ w1)) in *.
  destruct (advance_flush env (arrival_time e2) w2 _ _ Ha2)
    as (w3 & -> & Hi3 & Hc3 & Hn3); [lia|].
  cbv beta iota.
  rewrite (scheduleNotification_pair _ _ w3). cbv beta iota.
  destruct (schedule_idle (arrival_count e2) (arrival_tab e2) w3 Hi3)
    as (Ha4 & Hc4 & Hn4).
  set (w4 := snd (scheduleNotification _ _ w3)) in *.
  destruct (advance_flush env T w4 _ _ Ha4) as (w5 & -> & Hi5 & Hc5 & _);
    [lia|].
  cbn [snd]. split; [|done].
  rewrite Hc5, Hc4, Hc3, Hc2. change (calls w1) with (calls w).
  rewrite <- app_assoc. do 2 f_equal.
  - f_equal. lia.
  - f_equal. lia.
Qed.

Lemma separate_events_two_flushes_witness :
  calls (final (arrivals (Sample.browser [])
                  [ {| arrival_time := 0; arrival_count := 2;
                       arrival_tab := Some 4 |};
                    {| arrival_time := 1500; arrival_count := 3;
                       arrival_tab := Some 4 |} ];;
                advance (Sample.browser []) 2500) Sample.start)
  = [tabs_sendMessage 4 (SHOW_XSTITCH_NOTIFICATION 2);
     tabs_sendMessage 4 (SHOW_XSTITCH_NOTIFICATION 3)].
Proof.
  destruct (separate_events_two_flushes (Sample.browser []) Sample.start
              {| arrival_time := 0; arrival_count := 2; arrival_tab := Some 4 |}
              {| arrival_time := 1500; arrival_count := 3;
                 arrival_tab := Some 4 |} 2500) as [H _].
  - split; reflexivity.
  - simpl. lia.
  - simpl. lia.
  - simpl. lia.
  - exact H.
Defined.

(** * Folders in encounter order *)

Section Encounter.

Implicit Types (k : string) (fs : Folders) (f : ZipObject.t).

Lemma own_property_None k fs :
  own_property k fs = None <-> k ∉ map fst fs.
Proof.
  induction fs as [|[k' g] fs IH]; cbn.
  - split; [intros _; apply not_elem_of_nil|done].
  - rewrite not_elem_of_cons.
    destruct (String.eqb_spec k k') as [->|Hne]; [split; [done|tauto]|].
    rewrite IH. tauto.
Qed.

Lemma folders_alter_keys h k fs :
  map fst (folders_alter h k fs) = map fst fs.
Proof.
  induction fs as [|[k' g] fs IH]; [done|]. cbn.
  destruct (String.eqb k k'); cbn; [done|]. by rewrite IH.
Qed.

Lemma forEach_callback_keys p fs f :
  map fst (snd (forEach_callback (p, fs) f))
  = if ZipObject.dir f then map fst fs
    else map fst (folders_ensure p (folderPath_of (ZipObject.name f)) fs).
Proof.
  unfold forEach_callback. destruct (ZipObject.dir f); [done|].
  destruct (is_html_name _); [|destruct (Re.image_ext _); [|done]];
    repeat match goal with
           | |- context [match ?x with _ => _ end] => destruct x
           end; cbn [snd]; by rewrite ?folders_alter_keys.
Qed.

Lemma folders_ensure_keys p k fs :
  map fst (folders_ensure p k fs)
  = if names_group p k && negb (bool_decide (k ∈ map fst fs))
    then map fst fs ++ [k] else map fst fs.
Proof.
  unfold folders_ensure. destruct (folders_get p k fs) eqn:Hg.
  - destruct (names_group p k) eqn:Hn; [|done]. cbn [andb].
    rewrite bool_decide_eq_true_2; [done|].
    destruct (decide (k ∈ map fst fs)) as [|Hnot]; [done|].
    apply own_property_None in Hnot.
    assert (folders_get p k fs = None) by (by apply folders_get_None).
    congruence.
  - apply folders_get_None in Hg as [Hown ->].
    apply own_property_None in Hown.
    rewrite bool_decide_eq_false_2 by done. cbn. by rewrite map_app.
Qed.

Lemma foldl_forEach_keys p zip fs :
  Forall (fun f => pollutes f = false) zip ->
  map fst (snd (foldl forEach_callback (p, fs) zip))
  = map fst fs
    ++ first_seen (map fst fs)
         (List.filter (names_group p) (file_folders zip)).
Proof.
  intros Hzip. revert fs. induction Hzip as [|f zip Hf _ IH]; intros fs.
  - cbn. by rewrite app_nil_r.
  - cbn [foldl].
    pose proof (forEach_callback_keeps_prototype p fs f Hf) as Hp.
    pose proof (forEach_callback_keys p fs f) as Hkeys.
    destruct (forEach_callback (p, fs) f) as [p' fs']. cbn [fst snd] in *.
    subst p'. rewrite IH, Hkeys. unfold file_folders.
    cbn [List.filter]. destruct (ZipObject.dir f); cbn [negb map]; [done|].
    rewrite folders_ensure_keys. cbn [List.filter].
    destruct (names_group p _); cbn [andb first_seen]; [|done].
    destruct (bool_decide _); cbn [negb]; [done|]. by rewrite <- app_assoc.
Qed.

Lemma first_seen_fresh seen ks k :
  k ∈ first_seen seen ks -> k ∉ seen.
Proof.
  revert seen. induction ks as [|k' ks IH]; intros seen; cbn.
  - by intros ?%elem_of_nil.
  - case_bool_decide as Hk; [apply IH|].
    intros [->|Hin]%elem_of_cons; [done|].
    apply IH in Hin. set_solver.
Qed.

Lemma first_seen_NoDup seen ks : NoDup (first_seen seen ks).
Proof.
  revert seen. induction ks as [|k ks IH]; intros seen; cbn.
  - constructor.
  - case_bool_decide; [apply IH|]. constructor; [|apply IH].
    intros Hin%first_seen_fresh. set_solver.
Qed.

Lemma first_seen_complete seen ks k :
  k ∈ ks -> k ∈ seen \/ k ∈ first_seen seen ks.
Proof.
  revert seen. induction ks as [|k' ks IH]; intros seen; cbn.
  - by intros ?%elem_of_nil.
  - intros [->|Hin]%elem_of_cons.
    + case_bool_decide; [by left|right; apply list_elem_of_here].
    + case_bool_decide; [by apply IH|].
      destruct (IH (seen ++ [k']) Hin) as [[?| ->%list_elem_of_singleton]%elem_of_app|?].
      * by left.
      * right. apply list_elem_of_here.
      * right. by apply list_elem_of_further.
Qed.

End Encounter.

(** X3.  For an archive with no file directly in a folder named
    [__proto__]: the keys of the grouping object are the folders of the
    enumerated files, in the order in which each is first met, those left
    out whose path is the name of a member that the object inherits from
    [Object.prototype]; such a path never becomes a key.  Directory entries
    create no key, no key occurs twice, and for the folder of every file
    the grouping object has a member, its own or an inherited one. *)
Theorem folders_in_encounter_order p zip :
  Forall (fun f => pollutes f = false) zip ->
  let folders := snd (group_files p zip) in
  map fst folders
  = first_seen [] (List.filter (names_group p) (file_folders zip))
  /\ NoDup (map fst folders)
  /\ (forall k, names_group p k = false -> own_property k folders = None)
  /\ forall f, f ∈ zip -> ZipObject.dir f = false ->
       is_Some (folders_get p (folderPath_of (ZipObject.name f)) folders).
Proof.
  intros Hzip folders.
  assert (Hkeys : map fst folders
                  = first_seen []
                      (List.filter (names_group p) (file_folders zip))).
  { unfold folders, group_files. by rewrite foldl_forEach_keys. }
  split; [exact Hkeys|]. split; [|split].
  - rewrite Hkeys. apply first_seen_NoDup.
  - intros k Hk. by apply group_files_no_group.
  - intros f Hf Hdir.
    destruct (folders_get p _ folders) eqn:Hg; [by eexists|].
    apply folders_get_None in Hg as [Hown Hn].
    apply own_property_None in Hown. exfalso. apply Hown. rewrite Hkeys.
    destruct (first_seen_complete []
                (List.filter (names_group p) (file_folders zip))
                (folderPath_of (ZipObject.name f))) as [Hin|Hin];
      [|by apply elem_of_nil in Hin|done].
    apply list_elem_of_In, List.filter_In. split; [|done].
    unfold file_folders. apply in_map_iff.
    exists f. split; [done|]. apply List.filter_In.
    split; [by apply list_elem_of_In|by rewrite Hdir].
Qed.

Lemma folders_in_encounter_order_witness :
  map fst (snd (group_files Folder.empty
                  (Sample.entry "toString/index.html" "<p>a</p>" "PHA+YTwvcD4="
                   :: Sample.two_html)))
  = ["Screen"].
Proof.
  destruct (folders_in_encounter_order Folder.empty
              (Sample.entry "toString/index.html" "<p>a</p>" "PHA+YTwvcD4="
               :: Sample.two_html)) as (H & _).
  - repeat constructor.
  - exact H.
Defined.



(** * [Object.entries] loses and repeats nothing *)

Section Entries.

Lemma insert_by_index_perm {A} n (x : A) l :
  insert_by_index n x l ≡ₚ (n, x) :: l.
Proof.
  induction l as [|[m y] l IH]; cbn; [done|].
  destruct (n <? m)%N; [done|]. rewrite IH. apply Permutation_swap.
Qed.

Lemma indexed_perm (fs : Folders) acc :
  map snd
    (foldl (fun acc e =>
              match array_index (fst e) with
              | Some n => insert_by_index n e acc
              | None => acc
              end) acc fs)
  ≡ₚ map snd acc
     ++ List.filter (fun e => Js.defined (array_index (fst e))) fs.
Proof.
  revert acc. induction fs as [|e fs IH]; intros acc; cbn.
  - by rewrite app_nil_r.
  - rewrite IH. destruct (array_index (fst e)) as [n|]; cbn; [|done].
    rewrite (Permutation_map snd (insert_by_index_perm n e acc)). cbn.
    by rewrite Permutation_middle.
Qed.

Lemma filter_split_perm {A} (p : A -> bool) l :
  List.filter p l ++ List.filter (fun x => negb (p x)) l ≡ₚ l.
Proof.
  induction l as [|x l IH]; cbn; [done|].
  destruct (p x); cbn.
  - by rewrite IH.
  - by rewrite <- Permutation_middle, IH.
Qed.

Lemma Object_entries_perm fs : Object_entries fs ≡ₚ fs.
Proof.
  unfold Object_entries. rewrite indexed_perm. cbn.
  apply (filter_split_perm (fun e => Js.defined (array_index (fst e)))).
Qed.

Lemma Object_entries_named fs :
  Forall (fun e => array_index (fst e) = None) fs -> Object_entries fs = fs.
Proof.
  intros Hall. unfold Object_entries.
  assert (Hfold : forall acc,
             foldl (fun acc e =>
                      match array_index (fst e) with
                      | Some n => insert_by_index n e acc
                      | None => acc
                      end) acc fs = acc).
  { induction Hall as [|e fs He _ IH]; intros acc; cbn; [done|].
    by rewrite He, IH. }
  rewrite Hfold. cbn.
  induction Hall as [|e fs He _ IH]; cbn; [done|].
  rewrite He. cbn. f_equal. apply IH.
  intros acc. specialize (Hfold acc). cbn in Hfold. by rewrite He in Hfold.
Qed.

End Entries.

(** * One item per folder *)

Section Items.

Variable env : Env.

Lemma reconstruct_group_label src k g w :
  match fst (reconstruct_group env src (k, g) w) with
  | Returned item =>
      decodes (k, inherit (objectPrototype w) g) = true
      /\ label_of <$> item
         = (if has_entry (k, inherit (objectPrototype w) g)
            then Some (group_label src (k, g)) else None)
  | Thrown _ => decodes (k, inherit (objectPrototype w) g) = false
  end.
Proof. group_cases w g; done. Qed.

Lemma reconstruct_groups_labels src entries w :
  match fst (reconstruct_groups env src entries w) with
  | Returned items =>
      Forall (fun e => decodes e = true) (as_read (objectPrototype w) entries)
      /\ map label_of items
         = map (group_label src)
             (List.filter has_entry (as_read (objectPrototype w) entries))
  | Thrown _ =>
      Exists (fun e => decodes e = false)
        (as_read (objectPrototype w) entries)
  end.
Proof.
  revert w. induction entries as [|[k g] entries IH]; intros w; [done|].
  cbn [reconstruct_groups as_read map fst snd]. run.
  pose proof (reconstruct_group_label src k g w) as Hg.
  pose proof (reads_only_prototype _ _
                (reconstruct_group_reads env src (k, g) w)) as Hp.
  destruct (reconstruct_group env src (k, g) w) as [[item|err] w1];
    cbn in Hg, Hp |- *; [|by constructor].
  destruct Hg as [Hd Hl]. specialize (IH w1). rewrite Hp in IH.
  destruct (reconstruct_groups env src entries w1) as [[items|err] w2];
    cbn in IH |- *; [|by apply Exists_cons_tl].
  destruct IH as [Hall Hmap]. split; [by constructor|].
  rewrite map_app, Hmap. unfold as_read.
  destruct (has_entry _), item; cbn in Hl |- *; try done.
  unfold group_label in *. cbn [fst] in *. congruence.
Qed.

Lemma filter_has_entry_perm (l1 l2 : Folders) :
  l1 ≡ₚ l2 -> List.filter has_entry l1 ≡ₚ List.filter has_entry l2.
Proof.
  induction 1 as [|x l1 l2 _ IH|x y l1|l1 l2 l3 _ IH1 _ IH2]; cbn.
  - done.
  - destruct (has_entry x); by rewrite IH.
  - destruct (has_entry x), (has_entry y); try done. apply Permutation_swap.
  - by rewrite IH1.
Qed.

End Items.

(** X4.  When the reconstruction returns, it has emitted exactly one item
    for every key of the grouping object that is read with an HTML or an
    image entry, its own or the one that [Object.prototype] holds when the
    files are grouped; no key is lost and none repeated, and each item is
    titled after its key and carries the source URL it was given.  When no
    key is an array index the items come in the order in which the keys are
    created. *)
Theorem one_item_per_folder env data src w zip items :
  loadAsync env (Js.split "," data !! 1%nat) = Some zip ->
  outcome (reconstruct env data src) w = Returned items ->
  let groups :=
    as_read (fst (group_files (objectPrototype w) zip))
      (snd (group_files (objectPrototype w) zip)) in
  map label_of items
    ≡ₚ map (group_label src) (List.filter has_entry groups)
  /\ (Forall (fun e => array_index (fst e) = None) groups ->
      map label_of items
      = map (group_label src) (List.filter has_entry groups)).
Proof.
  intros Hzip. unfold outcome. rewrite reconstruct_run, Hzip.
  set (p := fst (group_files (objectPrototype w) zip)).
  set (fs := snd (group_files (objectPrototype w) zip)).
  pose proof (reconstruct_groups_labels env src
                (Object_entries fs) (set_objectPrototype p w)) as H.
  change (objectPrototype (set_objectPrototype p w)) with p in H.
  destruct (reconstruct_groups env src _ _) as [[l|err] w1]; cbn in H |- *;
    [|done].
  intros [= ->]. destruct H as [_ ->]. split.
  - apply Permutation_map, filter_has_entry_perm.
    unfold as_read. apply Permutation_map, Object_entries_perm.
  - intros Hnamed. rewrite Object_entries_named; [done|].
    unfold as_read in Hnamed. rewrite Forall_map in Hnamed.
    eapply Forall_impl; [exact Hnamed|]. by intros [k g].
Qed.

Lemma one_item_per_folder_witness :
  match outcome (reconstruct (Sample.browser Sample.titled)
                   Sample.data_url Sample.source) Sample.start with
  | Returned items =>
      map label_of items
      = [ (Some "Home Page", Sample.source); (Some "My Button", Sample.source);
          (Some "Landing", Sample.source) ]
  | Thrown _ => False
  end.
Proof.
  destruct (outcome (reconstruct (Sample.browser Sample.titled)
                       Sample.data_url Sample.source) Sample.start)
    as [items|err] eqn:Hrun; [|vm_compute in Hrun; discriminate Hrun].
  destruct (one_item_per_folder (Sample.browser Sample.titled)
              Sample.data_url Sample.source Sample.start Sample.titled items)
    as [_ H]; [reflexivity|exact Hrun|].
  apply H. repeat constructor.
Defined.

(** * Ingesting archives *)

Section Ingest.

Variable env : Env.

Lemma notifications_app l1 l2 :
  notifications (l1 ++ l2) = notifications l1 ++ notifications l2.
Proof. apply omap_app. Qed.

(** What [processZipData] does once the reconstruction has returned a
    non-empty list. *)
Lemma processZipData_stores data src tab w items :
  fst (reconstruct env data src w) = Returned items -> items <> [] ->
  exists w1,
    grouped_only w w1
    /\ processZipData env data src tab w
       = (Returned tt,
          snd (scheduleNotification (Z.of_nat (length items)) tab
                 (set_calls
                    (calls w1
                     ++ [storage_local_set
                           (items ++ default [] (capturedItems (storage w1)))])
                    (set_storage
                       {| capturedItems :=
                            Some (items
                                  ++ default [] (capturedItems (storage w1)));
                          previewData := previewData (storage w1) |} w1)))).
Proof.
  intros Hrun Hne. rewrite processZipData_run.
  pose proof (reconstruct_grouped env data src w) as Hreads.
  destruct (reconstruct env data src w) as [[l|err] w1]; cbn in Hrun, Hreads;
    simplify_eq.
  exists w1. split; [done|].
  destruct items as [|it items]; [done|]. cbn [length Nat.ltb Nat.leb]. run.
  rewrite storage_prepend_run. cbn zeta.
  by rewrite scheduleNotification_pair.
Qed.


(** Every emitted item carries the source URL of the run. *)
Lemma reconstruct_groups_sourceUrl src entries w items :
  fst (reconstruct_groups env src entries w) = Returned items ->
  Forall (fun it => CapturedItem.sourceUrl it = src) items.
Proof.
  revert w items. induction entries as [|[k g] entries IH]; intros w items.
  - cbn. by intros [= <-].
  - cbn [reconstruct_groups]. run.
    assert (Hg : match fst (reconstruct_group env src (k, g) w) with
                 | Returned (Some it) => CapturedItem.sourceUrl it = src
                 | _ => True
                 end) by (group_cases w g; done).
    destruct (reconstruct_group env src (k, g) w) as [[item|err] w1];
      [|done].
    specialize (IH w1).
    destruct (reconstruct_groups env src entries w1) as [[rest|err] w2];
      [|done].
    cbn in Hg |- *. intros [= <-]. apply Forall_app. split; [|by apply IH].
    destruct item; by repeat constructor.
Qed.

Lemma reconstruct_sourceUrl data src w items :
  fst (reconstruct env data src w) = Returned items ->
  Forall (fun it => CapturedItem.sourceUrl it = src) items.
Proof.
  rewrite reconstruct_run. destruct (loadAsync env _) as [zip|]; [|done].
  apply reconstruct_groups_sourceUrl.
Qed.

(** A flush leaves the stored collection alone. *)
Lemma advance_flush_storage t w b d :
  armed w b d -> d <= t -> storage (snd (advance env t w)) = storage w.
Proof.
  intros (Hb & h & Hh & Ht) Hle. unfold advance. run.
  rewrite Ht. cbn [length fire_due]. run. rewrite Ht. cbn [next_timer due].
  destruct (Z.leb_spec d t); [|lia].
  unfold clearTimeout. run. cbn [handle callback run_callback].
  rewrite (flush_run _ _ b) by done. by cbn.
Qed.

End Ingest.



(** X32.  [processZipData] never throws.  When the archive cannot be
    decoded it changes nothing but the console: the stored collection, the
    batch and the timers are as before, so no notification is scheduled.
    When the archive has no entry at all it changes nothing at all and logs
    no error; the same holds for an archive with only directories and files
    that are neither HTML nor raster images, in a worker whose
    [Object.prototype] has no [html] and no [image]. *)
Theorem failed_and_empty_archives_are_silent env data src tab w :
  outcome (processZipData env data src tab) w = Returned tt
  /\ (loadAsync env (Js.split "," data !! 1%nat) = None ->
      let w' := final (processZipData env data src tab) w in
      w' = set_calls
             (calls w ++ [console_error "[XStitch] Failed to process zip:"]) w
      /\ storage w' = storage w
      /\ notificationBatch w' = notificationBatch w
      /\ timers w' = timers w)
  /\ (loadAsync env (Js.split "," data !! 1%nat) = Some [] ->
      final (processZipData env data src tab) w = w)
  /\ (forall zip,
        loadAsync env (Js.split "," data !! 1%nat) = Some zip ->
        Forall (fun f => non_matching f = true) zip ->
        objectPrototype w = Folder.empty ->
        final (processZipData env data src tab) w = w).
Proof.
  split; [apply processZipData_returns|]. split; [|split].
  - intros Hzip. unfold final.
    by rewrite processZipData_run, reconstruct_run, Hzip.
  - intros Hzip. unfold final.
    rewrite processZipData_run, reconstruct_run, Hzip.
    cbn. by rewrite set_objectPrototype_same.
  - intros zip Hzip Hall Hp. unfold final.
    rewrite processZipData_run, reconstruct_run, Hzip.
    destruct (group_files_non_matching (objectPrototype w) zip Hall)
      as [-> Hg].
    rewrite set_objectPrototype_same.
    rewrite reconstruct_groups_empty; [done|].
    apply Forall_forall. intros e He%Object_entries_elem.
    rewrite Forall_forall in Hg. rewrite (Hg e He), Hp. done.
Qed.

Lemma failed_and_empty_archives_are_silent_witness :
  final (processZipData (Sample.browser Sample.notes_only)
           Sample.data_url Sample.source (Some 7)) Sample.start
  = Sample.start
  /\ storage (final (processZipData (Sample.browser Sample.notes_only)
                       Sample.junk_url Sample.source (Some 7)) Sample.start)
     = Sample.no_storage.
Proof.
  split.
  - destruct (failed_and_empty_archives_are_silent
                (Sample.browser Sample.notes_only)
                Sample.data_url Sample.source (Some 7) Sample.start)
      as (_ & _ & _ & H).
    apply (H Sample.notes_only); [reflexivity| |reflexivity].
    repeat constructor.
  - destruct (failed_and_empty_archives_are_silent
                (Sample.browser Sample.notes_only)
                Sample.junk_url Sample.source (Some 7) Sample.start)
      as (_ & H & _).
    destruct H as (_ & Hs & _); [reflexivity|exact Hs].
Defined.

(** A folder named after a method of [Object.prototype] is no key: its
    undecodable entry is never read, and the other folder is stored. *)
Example method_named_folder_is_skipped :
  let zip := [ ZipObject.mk "constructor/bad.html" false None None;
               Sample.entry "Normal/index.html" "<p>n</p>" "PHA+bjwvcD4=" ] in
  CapturedItem.title <$>
    default []
      (capturedItems
         (storage (final (processZipData (Sample.browser zip)
                            Sample.data_url Sample.source None) Sample.start)))
  = [Some "Normal"].
Proof. reflexivity. Qed.

(** * Paths *)

Section Paths.

Lemma string_app_assoc (a b c : string) : (a +:+ b) +:+ c = a +:+ b +:+ c.
Proof.
  induction a as [|x a IH]; [done|].
  change (String x ((a +:+ b) +:+ c) = String x (a +:+ b +:+ c)).
  by rewrite IH.
Qed.

Lemma join_cons2 sep a b l :
  Js.join sep (a :: b :: l) = a +:+ sep +:+ Js.join sep (b :: l).
Proof. reflexivity. Qed.

Lemma join_split sep s : Js.join (String sep "") (Js.split sep s) = s.
Proof.
  induction s as [|c s IH]; [done|]. cbn [Js.split].
  destruct (split_cons sep s) as (h & t & Hs). rewrite Hs in IH |- *.
  destruct (Ascii.eqb_spec c sep) as [->|Hne].
  - rewrite join_cons2, IH. reflexivity.
  - destruct t as [|b t].
    + cbn in IH |- *. by rewrite IH.
    + rewrite join_cons2 in IH |- *.
      change (String c h +:+ ?x) with (String c (h +:+ x)). by rewrite IH.
Qed.

Lemma join_snoc sep l x :
  l <> [] -> Js.join sep (l ++ [x]) = Js.join sep l +:+ sep +:+ x.
Proof.
  induction l as [|a l IH]; [done|]. intros _.
  destruct l as [|b l]; [done|].
  change ((a :: b :: l) ++ [x]) with (a :: b :: (l ++ [x])).
  rewrite !join_cons2. change (b :: l ++ [x]) with ((b :: l) ++ [x]).
  rewrite IH by done. by rewrite !string_app_assoc.
Qed.

Lemma split_no_sep sep s :
  Forall (fun p => contains_char sep p = false) (Js.split sep s).
Proof.
  induction s as [|c s IH]; [by repeat constructor|]. cbn [Js.split].
  destruct (Ascii.eqb_spec c sep) as [->|Hne].
  - by constructor.
  - destruct (Js.split sep s) as [|h t]; inversion IH; subst.
    + repeat constructor. cbn. by rewrite (proj2 (Ascii.eqb_neq c sep)).
    + constructor; [|done]. cbn. by rewrite (proj2 (Ascii.eqb_neq c sep)).
Qed.

Lemma split_without_sep sep s :
  contains_char sep s = false -> Js.split sep s = [s].
Proof.
  induction s as [|c s IH]; [done|]. cbn.
  intros [Hc Hs]%orb_false_iff. rewrite Hc, (IH Hs). done.
Qed.

Lemma split_with_sep sep s :
  contains_char sep s = true -> (2 <= length (Js.split sep s))%nat.
Proof.
  induction s as [|c s IH]; [done|]. cbn.
  destruct (split_cons sep s) as (h & t & Hs). rewrite Hs in IH |- *.
  destruct (Ascii.eqb c sep); cbn; [lia|]. intros H. specialize (IH H).
  cbn in IH. lia.
Qed.

End Paths.

(** X7.  Splitting a path at the slashes and joining the parts gives the
    path back.  An entry name with a slash is its folder, a slash and its
    file name; a name without one is a file name in the root folder, whose
    key is the empty string.  A file name never contains a slash. *)
Theorem path_round_trip name :
  Js.join "/" (Js.split "/" name) = name
  /\ (if contains_char "/" name
      then name = folderPath_of name +:+ "/" +:+ fileName_of name
      else folderPath_of name = "" /\ fileName_of name = name)
  /\ contains_char "/" (fileName_of name) = false.
Proof.
  split; [apply join_split|].
  unfold folderPath_of, fileName_of, Js.pop. cbn [fst snd]. split.
  - destruct (contains_char "/" name) eqn:Hc.
    + pose proof (split_with_sep _ _ Hc) as Hlen.
      pose proof (join_split "/" name) as Hj.
      destruct (Js.split "/" name) as [|a l] using rev_ind; [cbn in Hlen; lia|].
      clear IHl. rewrite length_app in Hlen. cbn in Hlen.
      rewrite last_snoc, removelast_last. cbn [default].
      rewrite join_snoc in Hj by (intros ->; cbn in Hlen; lia).
      symmetry. exact Hj.
    + by rewrite split_without_sep.
  - pose proof (split_no_sep "/" name) as Hall.
    destruct (last (Js.split "/" name)) as [x|] eqn:Hl; [|done].
    rewrite Forall_forall in Hall. apply Hall.
    apply last_Some in Hl as [l' ->]. set_solver.
Qed.

(** * Characters of titles *)

Section TitleChars.

Lemma contains_char_trimStart c s :
  contains_char c s = false -> contains_char c (Js.trimStart s) = false.
Proof.
  induction s as [|d s IH]; [done|]. cbn [Js.trimStart].
  destruct (Js.is_space d); [|done]. cbn. intros [_ H]%orb_false_iff. auto.
Qed.

Lemma contains_char_strip_prefix_i c lit s rest :
  Re.strip_prefix_i lit s = Some rest ->
  contains_char c s = false -> contains_char c rest = false.
Proof.
  revert s. induction lit as [|a lit IH]; intros [|d s]; cbn; try done.
  - by intros [= <-].
  - by intros [= <-].
  - destruct (Ascii.eqb _ _); [|done]. intros H [_ Hs]%orb_false_iff. eauto.
Qed.

Lemma contains_char_strip_vendor c s :
  contains_char c s = false -> contains_char c (Re.strip_vendor s) = false.
Proof.
  intros Hs. unfold Re.strip_vendor.
  destruct (Re.strip_prefix_i "Stitch" s) as [[|d rest]|] eqn:Hp; try done.
  destruct (Js.is_space d); [|done].
  apply contains_char_trimStart.
  pose proof (contains_char_strip_prefix_i c _ _ _ Hp Hs) as H.
  cbn in H. by apply orb_false_iff in H as [_ H].
Qed.

Lemma toUpperCase_cases c :
  Js.toUpperCase c = c \/ Js.is_upper (Js.toUpperCase c) = true.
Proof.
  destruct c as [[] [] [] [] [] [] [] []]; vm_compute; auto.
Qed.

Lemma contains_char_upper_word_starts x flag s :
  Js.is_upper x = false ->
  contains_char x s = false ->
  contains_char x (Re.upper_word_starts flag s) = false.
Proof.
  intros Hx. revert flag. induction s as [|c s IH]; intros flag; [done|].
  cbn. intros [Hc Hs]%orb_false_iff. rewrite IH by done.
  rewrite orb_false_r. destruct (_ && _); [|done].
  apply Ascii.eqb_neq. intros Hu.
  destruct (toUpperCase_cases c) as [Hsame|Hup]; [|congruence].
  rewrite Hsame in Hu. subst. by rewrite Ascii.eqb_refl in Hc.
Qed.

Lemma underscores_to_spaces_none s :
  contains_char "_" (Re.underscores_to_spaces s) = false.
Proof.
  induction s as [|c s IH]; [done|]. unfold Re.underscores_to_spaces in *.
  cbn. rewrite IH, orb_false_r.
  destruct (Ascii.eqb_spec c "_") as [->|Hne]; [done|].
  by apply Ascii.eqb_neq.
Qed.

Lemma underscores_to_spaces_keeps x s :
  x <> " "%char ->
  contains_char x s = false ->
  contains_char x (Re.underscores_to_spaces s) = false.
Proof.
  intros Hx. induction s as [|c s IH]; [done|].
  unfold Re.underscores_to_spaces in *. cbn.
  intros [Hc Hs]%orb_false_iff. rewrite (IH Hs), orb_false_r.
  destruct (Ascii.eqb c "_"); [|done]. apply Ascii.eqb_neq. congruence.
Qed.

(** The segment a title is derived from contains no slash. *)
Lemma title_segment_no_slash p i :
  contains_char "/" (default "" (Js.split "/" p !! i)) = false.
Proof.
  destruct (Js.split "/" p !! i) as [x|] eqn:Hx; [|done]. cbn.
  pose proof (split_no_sep "/" p) as Hall. rewrite Forall_forall in Hall.
  apply Hall. by eapply list_elem_of_lookup_2.
Qed.

End TitleChars.

(** X8.  A derived title contains no underscore and no slash.  For a file
    in the root folder of the archive the derived title is the empty
    string, which the card and the preview show as [Untitled Design]. *)
Theorem derived_title_characters p :
  contains_char "_" (derive_title p) = false
  /\ contains_char "/" (derive_title p) = false
  /\ (contains_char "/" p = false ->
      derive_title (folderPath_of p) = ""
      /\ Js.or_default (Some (derive_title (folderPath_of p))) "Untitled Design"
         = "Untitled Design").
Proof.
  split; [|split].
  - unfold derive_title. apply contains_char_strip_vendor.
    apply contains_char_upper_word_starts; [done|].
    apply underscores_to_spaces_none.
  - unfold derive_title. apply contains_char_strip_vendor.
    apply contains_char_upper_word_starts; [done|].
    apply underscores_to_spaces_keeps; [done|].
    destruct (_ && _); apply title_segment_no_slash.
  - intros Hp. unfold folderPath_of, Js.pop. cbn [snd].
    by rewrite split_without_sep.
Qed.

Lemma derived_title_characters_witness :
  derive_title (folderPath_of "index.html") = "".
Proof.
  destruct (derived_title_characters "index.html") as (_ & _ & H).
  destruct H as [H _]; [reflexivity|exact H].
Defined.

(** * Substrings *)

Section Substrings.

Lemma prefix_app (n b : string) : String.prefix n (n +:+ b) = true.
Proof.
  induction n as [|c n IH]; [by destruct b|].
  change (String c n +:+ b) with (String c (n +:+ b)). cbn.
  destruct (ascii_dec c c); [exact IH|done].
Qed.

Lemma includes_cons n c s : Js.includes n s = true ->
  Js.includes n (String c s) = true.
Proof. intros H. cbn [Js.includes]. rewrite H. apply orb_true_r. Qed.

Lemma includes_here n s :
  String.prefix n s = true -> Js.includes n s = true.
Proof. intros H. destruct s; cbn [Js.includes]; by rewrite H. Qed.

Lemma includes_app (a n b : string) : Js.includes n (a +:+ n +:+ b) = true.
Proof.
  induction a as [|c a IH].
  - change ("" +:+ n +:+ b) with (n +:+ b). apply includes_here, prefix_app.
  - change (String c a +:+ ?x) with (String c (a +:+ x)).
    by apply includes_cons.
Qed.

Lemma includes_skip (a n s : string) :
  Js.includes n s = true -> Js.includes n (a +:+ s) = true.
Proof.
  intros H. induction a as [|c a IH]; [done|].
  change (String c a +:+ s) with (String c (a +:+ s)). by apply includes_cons.
Qed.

End Substrings.

(** X9.  [saveSingleImageDesign] prepends one item: its title is the base
    name of the file up to the first dot, or [Captured Image] when that is
    empty, so it is never empty and has no slash and no dot; its document
    embeds the image data it was given; and, unlike the ingestion of an
    archive, no notification is scheduled or sent. *)
Theorem single_image_saved env base64Data src filename w :
  let w' := final (saveSingleImageDesign env base64Data src filename) w in
  let t := single_image_title filename in
  (exists it,
      capturedItems (storage w')
      = Some (it :: default [] (capturedItems (storage w)))
      /\ CapturedItem.title it = Some t
      /\ CapturedItem.sourceUrl it = src
      /\ Js.includes base64Data (CapturedItem.html it) = true)
  /\ t <> "" /\ contains_char "/" t = false /\ contains_char "." t = false
  /\ notificationBatch w' = notificationBatch w
  /\ timers w' = timers w
  /\ notifications (calls w') = notifications (calls w).
Proof.
  cbn zeta. split; [|split; [|split; [|split]]].
  - eexists. split; [reflexivity|]. do 2 (split; [reflexivity|]).
    cbn [CapturedItem.html]. unfold single_image_document.
    do 8 apply includes_skip. apply includes_here, prefix_app.
  - unfold single_image_title, Js.or_default.
    destruct (Js.split "." _ !! 0%nat) as [[|c s]|]; done.
  - unfold single_image_title, Js.or_default, Js.pop. cbn [fst].
    destruct (Js.split "." _ !! 0%nat) as [[|c s]|] eqn:Hs; try done.
    cbn [Js.truthy_string].
    assert (Hbase : contains_char "/"
                      (default "" (last (Js.split "/" filename))) = false).
    { destruct (last (Js.split "/" filename)) as [x|] eqn:Hl; [|done].
      pose proof (split_no_sep "/" filename) as Hall.
      rewrite Forall_forall in Hall. apply Hall.
      apply last_Some in Hl as [l' ->]. set_solver. }
    revert Hs Hbase. generalize (default "" (last (Js.split "/" filename))).
    intros base Hs Hbase.
    assert (G : forall b parts h,
               Js.split "." b = h :: parts ->
               contains_char "/" b = false -> contains_char "/" h = false).
    { clear. induction b as [|c b IH]; intros parts h; cbn [Js.split].
      - by intros [= <- <-].
      - destruct (Ascii.eqb c "."); [by intros [= <- <-]|].
        destruct (Js.split "." b) as [|h' t] eqn:Hb; intros [= <- <-].
        + cbn. intros [-> _]%orb_false_iff. done.
        + cbn. intros [-> Hr]%orb_false_iff. cbn. by eapply IH. }
    destruct (Js.split "." base) as [|h parts] eqn:Hsp; [done|].
    cbn in Hs. injection Hs as ->. by eapply G.
  - unfold single_image_title, Js.or_default.
    destruct (Js.split "." _ !! 0%nat) as [[|c s]|] eqn:Hs; try done.
    cbn [Js.truthy_string].
    pose proof (split_no_sep "." (default "" (Js.pop (Js.split "/" filename)).1))
      as Hall.
    rewrite Forall_forall in Hall. apply Hall.
    by eapply list_elem_of_lookup_2.
  - do 2 (split; [reflexivity|]).
    cbn [final snd calls]. unfold saveSingleImageDesign, fresh_id, Date_now,
      Math_random36. run. rewrite storage_prepend_run.
    cbn -[notifications]. rewrite notifications_app.
    cbn. apply app_nil_r.
Qed.

(** * Downloads *)

Section DownloadFacts.

Variable env : Env.
Variable fetchDataUrl : string -> option string.

Lemma saveSingleImageDesign_returns base64Data src filename w :
  fst (saveSingleImageDesign env base64Data src filename w) = Returned tt.
Proof. reflexivity. Qed.

Lemma fetch_then_returns url use message w :
  (forall data v, fst (use data v) = Returned tt) ->
  fst (fetch_then fetchDataUrl url use message w) = Returned tt.
Proof.
  intros Huse. unfold fetch_then. destruct (startsWith "http" url); [|done].
  run. destruct (fetchDataUrl url); [apply Huse|done].
Qed.

Lemma fetch_then_skips url use message w :
  startsWith "http" url = false ->
  fetch_then fetchDataUrl url use message w = (Returned tt, w).
Proof. intros H. unfold fetch_then. by rewrite H. Qed.

End DownloadFacts.

(** X10.  The download listener never throws.  It cancels a download
    exactly when the user enabled cancelling, the referrer or the URL
    contains a Stitch domain, and the download is a ZIP or an image.  It
    touches nothing else unless, besides, the URL starts with [http]: a
    download from a [blob:] or [data:] URL is never fetched or stored by
    this path. *)
Theorem download_interception env fetchDataUrl settings d w :
  let recognised :=
    isStitchOrigin d && (is_zip_download d || is_image_download d) in
  outcome (onCreated env fetchDataUrl settings d) w
  = Returned (if setting Settings.cancelDownloads settings && recognised
              then [DownloadItem.id d] else [])
  /\ (recognised && startsWith "http" (DownloadItem.url d) = false ->
      final (onCreated env fetchDataUrl settings d) w = w).
Proof.
  cbn zeta. unfold outcome, final, onCreated.
  destruct (isStitchOrigin d); cbn [negb andb];
    [|by rewrite andb_false_r].
  destruct (is_zip_download d); cbn [orb].
  - run.
    pose proof (fetch_then_returns fetchDataUrl (DownloadItem.url d)
                  (fun base64data =>
                     processZipData env base64data (DownloadItem.url d) None)
                  "[XStitch] Failed to fetch download URL:" w
                  (fun data v => processZipData_returns env data _ None v))
      as Hret.
    destruct (startsWith "http" (DownloadItem.url d)) eqn:Hhttp.
    + destruct (fetch_then _ _ _ _ w) as [[[]|err] w1]; [|done].
      split; [by rewrite andb_true_r|done].
    + rewrite fetch_then_skips by done. by rewrite andb_true_r.
  - destruct (is_image_download d); [|by rewrite andb_false_r].
    run.
    pose proof (fetch_then_returns fetchDataUrl (DownloadItem.url d)
                  (fun base64data =>
                     saveSingleImageDesign env base64data (DownloadItem.url d)
                       (DownloadItem.filename d))
                  "[XStitch] Failed to fetch image URL:" w
                  (fun data v => eq_refl)) as Hret.
    destruct (startsWith "http" (DownloadItem.url d)) eqn:Hhttp.
    + destruct (fetch_then _ _ _ _ w) as [[[]|err] w1]; [|done].
      split; [by rewrite andb_true_r|done].
    + rewrite fetch_then_skips by done. by rewrite andb_true_r.
Qed.

Lemma download_interception_witness :
  let d := DownloadItem.mk 31 "stitch_export.zip" "application/zip"
             "blob:https://stitch.withgoogle.com/7f3a"
             (Some "https://stitch.withgoogle.com/projects/1") in
  final (onCreated (Sample.browser Sample.titled) (fun _ => None)
           (Some (Settings.mk (Some true) None)) d) Sample.start
  = Sample.start.
Proof.
  intros d.
  destruct (download_interception (Sample.browser Sample.titled)
              (fun _ => None) (Some (Settings.mk (Some true) None)) d
              Sample.start) as [_ H].
  apply H. reflexivity.
Defined.

(** X11.  A ZIP download from a Stitch origin whose URL can be fetched is
    ingested like an intercepted archive, with its URL as the source of the
    items; as the download has no tab, the notification goes to the first
    active tab of the current window, and to nobody when there is none. *)
Theorem zip_download_is_ingested env fetchDataUrl settings d w data items T :
  idle w ->
  isStitchOrigin d = true -> is_zip_download d = true ->
  startsWith "http" (DownloadItem.url d) = true ->
  fetchDataUrl (DownloadItem.url d) = Some data ->
  outcome (reconstruct env data (DownloadItem.url d)) w = Returned items ->
  items <> [] ->
  now w + 1000 <= T ->
  let w' := final (onCreated env fetchDataUrl settings d;; advance env T) w in
  capturedItems (storage w')
  = Some (items ++ default [] (capturedItems (storage w)))
  /\ Forall (fun it => CapturedItem.sourceUrl it = DownloadItem.url d) items
  /\ notifications (calls w')
     = notifications (calls w) ++
       match delivery_target env (now w + 1000) None with
       | Some id => [(id, Z.of_nat (length items))]
       | None => []
       end.
Proof.
  intros Hidle Horigin Hzip Hhttp Hfetch Hrun Hne HT.
  unfold outcome, final, onCreated, fetch_then in *.
  rewrite Horigin, Hzip, Hhttp, Hfetch. cbn [negb]. run.
  set (w0 := set_calls (calls w ++ [fetch (DownloadItem.url d)]) w).
  assert (Hrun0 : fst (reconstruct env data (DownloadItem.url d) w0)
                  = Returned items).
  { rewrite <- Hrun. by apply reconstruct_reads_eq. }
  destruct (processZipData_stores env data (DownloadItem.url d) None w0 items
              Hrun0 Hne) as (v1 & (c1 & r1 & p1 & ->) & Hp).
  rewrite Hp. cbv beta iota.
  match goal with
  | |- context [scheduleNotification ?c ?t ?x] =>
      destruct (schedule_idle c t x) as (Ha & Hc & Hn);
        [by destruct Hidle|]; set (w1 := snd (scheduleNotification c t x)) in *
  end.
  destruct (advance_flush env T w1 _ _ Ha) as (w2 & Hadv & Hi2 & Hc2 & _).
  { cbn in Hn |- *. lia. }
  pose proof (advance_flush_storage env T w1 _ _ Ha) as Hst.
  rewrite Hadv in Hst |- *. cbn [snd] in *. split; [|split].
  - rewrite Hst by (cbn in Hn |- *; lia).
    unfold w1. by rewrite scheduleNotification_run.
  - by apply (reconstruct_sourceUrl env data _ w).
  - rewrite Hc2, Hc. unfold w0. cbn [calls set_calls set_storage set_reads set_objectPrototype].
    rewrite !notifications_app. cbn [notifications omap]. rewrite !app_nil_r.
    f_equal. unfold delivery. cbn [count tabId].
    match goal with
    | |- context [delivery_target env ?t _] =>
        replace t with (now w + 1000) by (cbn in Hn |- *; lia)
    end.
    by destruct (delivery_target _ _ _).
Qed.

Lemma zip_download_is_ingested_witness :
  let env := Sample.browser Sample.titled in
  let d := DownloadItem.mk 31 "stitch_export.zip" "application/zip"
             "https://stitch.withgoogle.com/export/1.zip" None in
  let w' := final (onCreated env (fun _ => Some Sample.data_url) None d;;
                   advance env 1000) Sample.start in
  length (default [] (capturedItems (storage w'))) = 3%nat
  /\ notifications (calls w') = [].
Proof.
  intros env d w'.
  destruct (outcome (reconstruct env Sample.data_url (DownloadItem.url d))
              Sample.start) as [items|err] eqn:Hrun;
    [|vm_compute in Hrun; discriminate Hrun].
  destruct (zip_download_is_ingested env (fun _ => Some Sample.data_url) None
              d Sample.start Sample.data_url items 1000)
    as (Hs & _ & Hn).
  - split; reflexivity.
  - reflexivity.
  - reflexivity.
  - reflexivity.
  - reflexivity.
  - exact Hrun.
  - intros ->. vm_compute in Hrun. discriminate Hrun.
  - simpl. lia.
  - unfold w'. rewrite Hs, Hn. vm_compute in Hrun. injection Hrun as <-.
    split; reflexivity.
Defined.

(** X12.  An image download from a Stitch origin that is not a ZIP and whose
    URL can be fetched is stored as one item at the front of the list: its
    image is the fetched data URL, its source the download URL, its title
    comes from the file name; no notification is scheduled. *)
Theorem image_download_is_saved env fetchDataUrl settings d w data :
  isStitchOrigin d = true -> is_zip_download d = false ->
  is_image_download d = true ->
  startsWith "http" (DownloadItem.url d) = true ->
  fetchDataUrl (DownloadItem.url d) = Some data ->
  let w' := final (onCreated env fetchDataUrl settings d) w in
  (exists it,
      capturedItems (storage w')
      = Some (it :: default [] (capturedItems (storage w)))
      /\ CapturedItem.image it = Some data
      /\ CapturedItem.sourceUrl it = DownloadItem.url d
      /\ CapturedItem.title it
         = Some (single_image_title (DownloadItem.filename d)))
  /\ notificationBatch w' = notificationBatch w
  /\ timers w' = timers w
  /\ notifications (calls w') = notifications (calls w).
Proof.
  intros Horigin Hzip Himage Hhttp Hfetch.
  unfold final, onCreated, fetch_then.
  rewrite Horigin, Hzip, Himage, Hhttp, Hfetch. cbn [negb]. run.
  split; [|split; [|split]].
  - eexists. split; [reflexivity|]. by repeat split.
  - reflexivity.
  - reflexivity.
  - unfold saveSingleImageDesign, fresh_id, Date_now, Math_random36. run.
    rewrite storage_prepend_run. cbn -[notifications].
    rewrite !notifications_app. cbn. by rewrite !app_nil_r.
Qed.

Lemma image_download_is_saved_witness :
  let d := DownloadItem.mk 32 "exports/Home Screen.v2.PNG" "image/png"
             "https://lh3.appspot.com/img/77" None in
  let w' := final (onCreated (Sample.browser []) (fun _ => Some "data:image/png;base64,iVBORw0KGgo=")
                     None d) Sample.start in
  exists it,
    capturedItems (storage w') = Some [it]
    /\ CapturedItem.title it = Some "Home Screen".
Proof.
  intros d w'.
  destruct (image_download_is_saved (Sample.browser [])
              (fun _ => Some "data:image/png;base64,iVBORw0KGgo=") None d
              Sample.start "data:image/png;base64,iVBORw0KGgo=")
    as ((it & Hs & _ & _ & Ht) & _); [reflexivity..|].
  exists it. split; [exact Hs|exact Ht].
Defined.

(** X13.  When cancelling is enabled and the fetch of a recognised download
    fails, the listener cancels the download all the same; nothing is
    stored and no notification is scheduled, and the world changes by the
    fetch and one logged error only. *)
Theorem failed_fetch_still_cancels env fetchDataUrl settings d w :
  setting Settings.cancelDownloads settings = true ->
  isStitchOrigin d = true ->
  is_zip_download d || is_image_download d = true ->
  startsWith "http" (DownloadItem.url d) = true ->
  fetchDataUrl (DownloadItem.url d) = None ->
  outcome (onCreated env fetchDataUrl settings d) w
  = Returned [DownloadItem.id d]
  /\ final (onCreated env fetchDataUrl settings d) w
     = set_calls
         (calls w ++
          [fetch (DownloadItem.url d);
           console_error (if is_zip_download d
                          then "[XStitch] Failed to fetch download URL:"
                          else "[XStitch] Failed to fetch image URL:")]) w.
Proof.
  intros Hcancel Horigin Hkind Hhttp Hfetch.
  unfold outcome, final, onCreated, fetch_then.
  rewrite Hcancel, Horigin, Hhttp, Hfetch. cbn [negb].
  destruct (is_zip_download d); cbn [orb] in Hkind.
  - run. cbn. by rewrite <- app_assoc.
  - rewrite Hkind. run. cbn. by rewrite <- app_assoc.
Qed.

Lemma failed_fetch_still_cancels_witness :
  let d := DownloadItem.mk 33 "stitch_export.zip" "application/zip"
             "https://stitch.withgoogle.com/export/1.zip" None in
  outcome (onCreated (Sample.browser []) (fun _ => None)
             (Some (Settings.mk (Some true) None)) d) Sample.start
  = Returned [33]
  /\ storage (final (onCreated (Sample.browser []) (fun _ => None)
                       (Some (Settings.mk (Some true) None)) d) Sample.start)
     = Sample.no_storage.
Proof.
  intros d.
  destruct (failed_fetch_still_cancels (Sample.browser []) (fun _ => None)
              (Some (Settings.mk (Some true) None)) d Sample.start)
    as [Ho Hf]; [reflexivity..|].
  split; [exact Ho|]. rewrite Hf. reflexivity.
Defined.

(** * Stitch URLs *)

Section StitchUrls.

Lemma prefix_split (n s : string) :
  String.prefix n s = true -> exists b, s = n +:+ b.
Proof.
  revert s. induction n as [|c n IH]; intros s H; [by exists s|].
  destruct s as [|c' s]; [done|]. cbn in H.
  destruct (ascii_dec c c') as [<-|]; [|done].
  destruct (IH s H) as [b ->]. by exists b.
Qed.

Lemma includes_split (n s : string) :
  Js.includes n s = true -> exists a b, s = a +:+ n +:+ b.
Proof.
  induction s as [|c s IH]; cbn [Js.includes]; intros H.
  - rewrite orb_false_r in H. destruct (prefix_split _ _ H) as [b ->].
    by exists "", b.
  - apply orb_true_iff in H as [H|H].
    + destruct (prefix_split _ _ H) as [b ->]. by exists "", b.
    + destruct (IH H) as (a & b & ->). by exists (String c a), b.
Qed.

Lemma includes_iff (n s : string) :
  Js.includes n s = true <-> exists a b, s = a +:+ n +:+ b.
Proof.
  split; [apply includes_split|]. intros (a & b & ->). apply includes_app.
Qed.

Lemma truthy_string_app (a n b : string) :
  n <> "" -> Js.truthy_string (a +:+ n +:+ b) = true.
Proof. intros Hn. destruct a; [|done]. by destruct n. Qed.

End StitchUrls.

(** X14.  A URL counts as a Stitch URL exactly when one of the two domain
    names occurs somewhere in it, wherever that is: in the host, the path
    or the query.  A missing or empty URL never counts.  The download
    listener applies the same test to the referrer and to the URL of the
    download. *)
Theorem stitch_url_is_containment :
  (forall u,
      isStitchUrl (Some u) = true
      <-> exists a b dom, dom ∈ STITCH_DOMAINS /\ u = a +:+ dom +:+ b)
  /\ isStitchUrl None = false
  /\ isStitchUrl (Some "") = false
  /\ (forall d,
        isStitchOrigin d
        = isStitchUrl (DownloadItem.referrer d)
          || isStitchUrl (Some (DownloadItem.url d))).
Proof.
  split; [|split; [done|split; [done|]]].
  - intros u. unfold isStitchUrl, STITCH_DOMAINS. cbn [existsb].
    rewrite orb_false_r. split.
    + intros H. apply andb_true_iff in H as [_ H].
      apply orb_true_iff in H as [H|H];
        apply includes_split in H as (a & b & ->); exists a, b; eexists;
        (split; [|reflexivity]); set_solver.
    + intros (a & b & dom & Hd & ->).
      apply elem_of_cons in Hd as [->|Hd];
        [rewrite truthy_string_app by done; cbn [andb];
         apply orb_true_iff; left; apply includes_app|].
      apply elem_of_cons in Hd as [->|Hd];
        [rewrite truthy_string_app by done; cbn [andb];
         apply orb_true_iff; right; apply includes_app|].
      by apply elem_of_nil in Hd.
  - intros d. unfold isStitchOrigin, isStitchUrl, STITCH_DOMAINS.
    cbn [existsb]. destruct (DownloadItem.referrer d); by rewrite !orb_false_r.
Qed.

(** X15.  What experimental mode widens and what it leaves alone.  With it
    the side panel is enabled on a finished navigation to any URL and the
    content script runs on every page; without it the content script runs
    exactly on the pages whose address contains one of the two Stitch
    domains.  A download whose referrer and URL are not Stitch URLs is left
    alone in either case, whatever the settings. *)
Theorem experimental_mode_scope env fetchDataUrl settings tabId_ url href d w :
  isStitchOrigin d = false ->
  onCreated env fetchDataUrl settings d w = (Returned [], w)
  /\ (setting Settings.experimentalMode settings = true ->
      final (onUpdated settings tabId_
               {| change_status := Some "complete"; change_url := None |} url)
        w
      = set_calls
          (calls w ++ [sidePanel_setOptions tabId_ true (Some "index.html")])
          w
      /\ content_script_runs settings href = true)
  /\ (setting Settings.experimentalMode settings = false ->
      content_script_runs settings href
      = Js.includes "stitch.withgoogle.com" href
        || Js.includes "appspot.com" href).
Proof.
  intros Ho. split; [|split].
  - unfold onCreated. rewrite Ho. by run.
  - intros He.
    unfold final, onUpdated, updateSidePanelVisibility, content_script_runs.
    rewrite He, orb_true_r. by run.
  - intros He. unfold content_script_runs. rewrite He. cbn.
    by rewrite orb_false_r.
Qed.

Lemma experimental_mode_scope_witness :
  let settings := Some (Settings.mk (Some true) (Some true)) in
  let d := DownloadItem.mk 34 "report.zip" "application/zip"
             "https://example.org/report.zip" (Some "https://example.org/") in
  onCreated (Sample.browser []) (fun _ => Some Sample.data_url) settings d
    Sample.start
  = (Returned [], Sample.start)
  /\ content_script_runs settings "https://example.org/" = true.
Proof.
  intros settings d.
  destruct (experimental_mode_scope (Sample.browser [])
              (fun _ => Some Sample.data_url) settings 7
              (Some "https://example.org/") "https://example.org/" d
              Sample.start) as (H1 & H2 & _); [reflexivity|].
  split; [exact H1|]. by destruct H2.
Defined.

(** * The side panel *)

Section Panel.

Variable env : Env.

Lemma broadcast_run windowId isOpen w :
  let w' := final (broadcastSidePanelState env windowId isOpen) w in
  outcome (broadcastSidePanelState env windowId isOpen) w = Returned tt
  /\ calls w' = calls w ++ broadcast env (now w) windowId isOpen
  /\ openSidePanels w' = openSidePanels w
  /\ lastToggleTimes w' = lastToggleTimes w
  /\ timers w' = timers w /\ nextHandle w' = nextHandle w
  /\ now w' = now w /\ clockReads w' = clockReads w
  /\ storage w' = storage w
  /\ notificationBatch w' = notificationBatch w
  /\ notificationTimeout w' = notificationTimeout w.
Proof.
  unfold broadcastSidePanelState, broadcast. run.
  rewrite send_to_first_run. cbn [fst snd].
  destruct (tabsQuery env (now w) (Some windowId)) as [|[i|] ?];
    rewrite ?app_nil_r; try done.
  destruct (Js.truthy_number (Some i)); by rewrite ?app_nil_r.
Qed.

Lemma port_INIT_run windowId w :
  windowId <> 0 ->
  let w' := final (port_INIT env (Some windowId)) w in
  outcome (port_INIT env (Some windowId)) w = Returned (Some windowId)
  /\ calls w' = calls w ++ broadcast env (now w) windowId true
  /\ openSidePanels w' = {[ windowId ]} ∪ openSidePanels w
  /\ lastToggleTimes w' = lastToggleTimes w
  /\ timers w' = timers w /\ nextHandle w' = nextHandle w
  /\ now w' = now w /\ clockReads w' = clockReads w.
Proof.
  intros Hw. unfold port_INIT. run. cbn [Js.truthy_number].
  destruct (Z.eqb_spec windowId 0); [done|]. cbn [negb].
  match goal with
  | |- context [broadcastSidePanelState env windowId true ?x] =>
      pose proof (broadcast_run windowId true x) as H; run;
        destruct H as (Ho & Hc & Hs & Hl & Ht & Hh & Hn & Hr & _);
        destruct (broadcastSidePanelState env windowId true x) as [o v]
  end.
  cbn [fst snd] in *. subst o. cbn [fst snd]. by repeat split.
Qed.

Lemma port_onDisconnect_run windowId w :
  windowId <> 0 ->
  let w' := final (port_onDisconnect env (Some windowId)) w in
  calls w' = calls w ++ broadcast env (now w) windowId false
  /\ openSidePanels w' = openSidePanels w ∖ {[ windowId ]}
  /\ timers w' = timers w.
Proof.
  intros Hw. unfold port_onDisconnect. run. cbn [Js.truthy_number].
  destruct (Z.eqb_spec windowId 0); [done|]. cbn [negb].
  match goal with
  | |- context [broadcastSidePanelState env windowId false ?x] =>
      pose proof (broadcast_run windowId false x) as H; run;
        destruct H as (Ho & Hc & Hs & Hl & Ht & Hh & Hn & Hr & _);
        destruct (broadcastSidePanelState env windowId false x) as [o v]
  end.
  cbn [fst snd] in *. by repeat split.
Qed.

(** A toggle request that finds the panel of its window open. *)
Lemma toggle_open tabId_ windowId w :
  windowId <> 0 -> tabId_ <> 0 ->
  windowId ∈ openSidePanels w ->
  let w' := final (onMessage env TOGGLE_SIDE_PANEL
                     (tab_sender tabId_ windowId)) w in
  calls w' = calls w ++ [sidePanel_setOptions tabId_ false None]
  /\ timers w'
     = timers w ++ [{| handle := nextHandle w; due := now w + 10;
                       callback := reenable_panel tabId_ windowId false |}]
  /\ openSidePanels w' = openSidePanels w
  /\ now w' = now w.
Proof.
  intros Hw Ht Hopen.
  unfold onMessage, tab_sender, Date_now, setTimeout. run. cbn.
  destruct (Z.eqb_spec windowId 0); [done|].
  destruct (Z.eqb_spec tabId_ 0); [done|]. cbn.
  by rewrite bool_decide_eq_true_2 by done.
Qed.

(** The timer of a close fires. *)
Lemma advance_reenable t w h d tabId_ windowId :
  timers w = [{| handle := h; due := d;
                 callback := reenable_panel tabId_ windowId false |}] ->
  d <= t ->
  let w' := final (advance env t) w in
  calls w' = calls w ++ [sidePanel_setOptions tabId_ true (Some "index.html")]
  /\ timers w' = []
  /\ openSidePanels w' = openSidePanels w
  /\ now w' = Z.max (Z.max (now w) d) t.
Proof.
  intros Ht Hle. unfold advance. run. rewrite Ht. cbn [length fire_due]. run.
  rewrite Ht. cbn [next_timer due].
  destruct (Z.leb_spec d t); [|lia].
  unfold clearTimeout. run. cbn [handle callback run_callback]. run.
  cbn. rewrite Ht. cbn. by rewrite Pos.eqb_refl.
Qed.

End Panel.

(** X16.  Closing an open panel with the overlay button: after the panel
    of a window has connected, a toggle from a tab of that window disables
    the panel of the tab, whenever the previous toggle was; ten
    milliseconds later the panel is enabled again, without a broadcast;
    and when the port disconnects the window is no longer recorded as open.
    The active tab of the window is told [open] once at the start and
    [closed] once at the end, and the panel is never opened. *)
Theorem open_panel_is_closed_by_toggle env windowId tabId_ T w :
  windowId <> 0 -> tabId_ <> 0 -> timers w = [] -> now w + 10 <= T ->
  let w' := final (panel_session env windowId tabId_ T) w in
  calls w'
  = calls w ++ broadcast env (now w) windowId true
    ++ [sidePanel_setOptions tabId_ false None;
        sidePanel_setOptions tabId_ true (Some "index.html")]
    ++ broadcast env T windowId false
  /\ openSidePanels w' = openSidePanels w ∖ {[ windowId ]}
  /\ timers w' = [].
Proof.
  intros Hw Ht Hts HT. unfold panel_session. run.
  pose proof (port_INIT_run env windowId w Hw) as H1. run.
  destruct H1 as (Ho1 & Hc1 & Hs1 & _ & Ht1 & Hh1 & Hn1 & _).
  destruct (port_INIT env (Some windowId) w) as [o1 w1].
  cbn [fst snd] in *. subst o1.
  assert (Hopen : windowId ∈ openSidePanels w1) by (rewrite Hs1; apply elem_of_union_l; by apply elem_of_singleton_2).
  pose proof (toggle_open env tabId_ windowId w1 Hw Ht Hopen) as H2. run.
  destruct H2 as (Hc2 & Ht2 & Hs2 & Hn2).
  assert (Ho2 : exists b, fst (onMessage env TOGGLE_SIDE_PANEL
                                 (tab_sender tabId_ windowId) w1)
                          = Returned b).
  { unfold onMessage, tab_sender, Date_now, setTimeout. run. cbn.
    destruct (Z.eqb_spec windowId 0); [done|].
    destruct (Z.eqb_spec tabId_ 0); [done|]. cbn.
    destruct (_ || _); by eexists. }
  destruct Ho2 as [b Ho2].
  destruct (onMessage env TOGGLE_SIDE_PANEL (tab_sender tabId_ windowId) w1)
    as [o2 w2].
  cbn [fst snd] in *. subst o2.
  rewrite Ht1, Hts in Ht2. cbn [app] in Ht2.
  assert (Hle : now w1 + 10 <= T) by lia.
  pose proof (advance_reenable env T w2 _ _ _ _ Ht2 Hle) as H3. run.
  destruct H3 as (Hc3 & Ht3 & Hs3 & Hn3).
  assert (Ho3 : fst (advance env T w2) = Returned tt).
  { unfold advance. run. rewrite Ht2. cbn [length fire_due]. run.
    rewrite Ht2. cbn [next_timer due].
    destruct (Z.leb_spec (now w1 + 10) T); [|lia].
    unfold clearTimeout. run. cbn [handle callback run_callback]. by run. }
  destruct (advance env T w2) as [o3 w3]. cbn [fst snd] in *. subst o3.
  pose proof (port_onDisconnect_run env windowId w3 Hw) as H4. run.
  destruct H4 as (Hc4 & Hs4 & Ht4). split; [|split].
  - rewrite Hc4, Hc3, Hc2, Hc1, Hn3. rewrite <- !app_assoc. cbn [app].
    replace (Z.max (Z.max (now w2) (now w1 + 10)) T) with T by lia. done.
  - rewrite Hs4, Hs3, Hs2, Hs1. apply set_eq. intros x.
    rewrite !elem_of_difference, elem_of_union. tauto.
  - by rewrite Ht4.
Qed.

Lemma open_panel_is_closed_by_toggle_witness :
  let env := {| dateNow := fun n => 1700000000000 + Z.of_nat n;
                mathRandom36 := fun _ => "0.4fzyo82mvyr";
                loadAsync := fun _ => None;
                tabsQuery := fun _ _ => [Some 7] |} in
  calls (final (panel_session env 3 7 10) Sample.start)
  = [tabs_sendMessage 7 (SIDE_PANEL_STATE true);
     sidePanel_setOptions 7 false None;
     sidePanel_setOptions 7 true (Some "index.html");
     tabs_sendMessage 7 (SIDE_PANEL_STATE false)].
Proof.
  intros env.
  destruct (open_panel_is_closed_by_toggle env 3 7 10 Sample.start)
    as (H & _ & _).
  - lia.
  - lia.
  - reflexivity.
  - simpl. lia.
  - exact H.
Defined.

(** X17.  A toggle from a tab whose window has no connected panel, at
    least a second after the previous toggle of that tab (or, for a tab
    never toggled, at a clock reading of at least 1000), enables the panel
    of the tab and opens the panel of the window.  It starts no timer, and
    it does not itself record the window as open: only the INIT message of
    the panel does. *)
Theorem toggle_opens_closed_panel env windowId tabId_ w :
  windowId <> 0 -> tabId_ <> 0 ->
  windowId ∉ openSidePanels w ->
  1000 <= dateNow env (clockReads w) - default 0 (lastToggleTimes w !! tabId_) ->
  let w' := final (onMessage env TOGGLE_SIDE_PANEL
                     (tab_sender tabId_ windowId)) w in
  calls w' = calls w ++ [sidePanel_setOptions tabId_ true (Some "index.html");
                         sidePanel_open windowId]
  /\ timers w' = timers w
  /\ openSidePanels w' = openSidePanels w
  /\ lastToggleTimes w' !! tabId_ = Some (dateNow env (clockReads w)).
Proof.
  intros Hw Ht Hclosed Hlate.
  unfold onMessage, tab_sender, Date_now, setTimeout. run. cbn.
  destruct (Z.eqb_spec windowId 0); [done|].
  destruct (Z.eqb_spec tabId_ 0); [done|]. cbn.
  rewrite bool_decide_eq_false_2 by done. cbn.
  destruct (Z.ltb_spec (dateNow env (clockReads w)
                        - default 0 (lastToggleTimes w !! tabId_)) 1000);
    [lia|].
  cbn. rewrite <- app_assoc. by rewrite lookup_insert_eq.
Qed.

Lemma toggle_opens_closed_panel_witness :
  calls (final (onMessage (Sample.browser []) TOGGLE_SIDE_PANEL
                  (tab_sender 7 3)) Sample.start)
  = [sidePanel_setOptions 7 true (Some "index.html"); sidePanel_open 3].
Proof.
  destruct (toggle_opens_closed_panel (Sample.browser []) 3 7 Sample.start)
    as (H & _).
  - lia.
  - lia.
  - apply not_elem_of_empty.
  - vm_compute. discriminate.
  - exact H.
Defined.

(** X18.  The message listener never throws and promises an asynchronous
    answer to [FETCH_IMAGE_BASE64] only.  No message other than
    [BLOB_DATA_CAPTURED] changes the stored items, the notification batch
    or the set of open panels, or sends a notification.  A request to open
    or toggle the panel from a sender without a window does nothing at
    all. *)
Theorem messages_other_than_blob env request sender w :
  let w' := final (onMessage env request sender) w in
  outcome (onMessage env request sender) w
  = Returned (match request with FETCH_IMAGE_BASE64 _ => true | _ => false end)
  /\ ((forall url data, request <> BLOB_DATA_CAPTURED url data) ->
      storage w' = storage w
      /\ notificationBatch w' = notificationBatch w
      /\ notificationTimeout w' = notificationTimeout w
      /\ openSidePanels w' = openSidePanels w
      /\ notifications (calls w') = notifications (calls w))
  /\ (Js.truthy_number (sender_tab_windowId sender) = false ->
      request = OPEN_SIDE_PANEL \/ request = TOGGLE_SIDE_PANEL ->
      w' = w).
Proof.
  cbn zeta. split; [|split].
  - destruct request as [url data| | |url|p|ty]; try done.
    + unfold onMessage. run.
      pose proof (processZipData_returns env data url (sender_tab_id sender) w)
        as H.
      by destruct (processZipData env data url (sender_tab_id sender) w)
        as [[[]|err] w1].
    + unfold onMessage. run.
      destruct (sender_tab_windowId sender) as [win|]; [|done].
      by destruct (Js.truthy_number (Some win)).
    + unfold onMessage, Date_now, setTimeout. run.
      destruct (sender_tab_windowId sender) as [win|]; [|done].
      destruct (sender_tab_id sender) as [tab|]; [|done].
      destruct (Js.truthy_number (Some win) && Js.truthy_number (Some tab));
        [|done].
      cbn. by destruct (_ || _).
  - intros Hreq.
    destruct request as [url data| | |url|p|ty]; try done.
    + by destruct (Hreq url data).
    + unfold onMessage. run.
      destruct (sender_tab_windowId sender) as [win|]; [|done].
      destruct (Js.truthy_number (Some win)); [|done].
      cbn -[notifications]. rewrite notifications_app. cbn.
      by rewrite app_nil_r.
    + unfold onMessage, Date_now, setTimeout. run.
      destruct (sender_tab_windowId sender) as [win|]; [|done].
      destruct (sender_tab_id sender) as [tab|]; [|done].
      destruct (Js.truthy_number (Some win) && Js.truthy_number (Some tab));
        [|done].
      cbn -[notifications]. destruct (_ || _); cbn -[notifications];
        rewrite ?notifications_app; cbn; by rewrite ?app_nil_r.
    + unfold onMessage. run. cbn -[notifications].
      rewrite notifications_app. cbn. by rewrite app_nil_r.
  - intros Hwin [->| ->]; unfold onMessage; run.
    + destruct (sender_tab_windowId sender) as [win|]; [|done].
      by rewrite Hwin.
    + destruct (sender_tab_windowId sender) as [win|]; [|done].
      destruct (sender_tab_id sender) as [tab|]; [|done].
      by rewrite Hwin.
Qed.

Lemma messages_other_than_blob_witness :
  final (onMessage (Sample.browser []) TOGGLE_SIDE_PANEL
           {| sender_tab_id := None; sender_tab_windowId := None |})
    Sample.start
  = Sample.start.
Proof.
  destruct (messages_other_than_blob (Sample.browser []) TOGGLE_SIDE_PANEL
              {| sender_tab_id := None; sender_tab_windowId := None |}
              Sample.start) as (_ & _ & H).
  apply H; [reflexivity|by right].
Defined.

(** * The notification of the page *)

Section PageNotice.

Import Notice.

Lemma tidy_loaded top : tidy (loaded top).
Proof. by split. Qed.

Lemma tidy_show c t s : tidy s -> tidy (showXStitchNotification c t s).
Proof.
  intros H. unfold showXStitchNotification.
  destruct (isTopFrame s); cbn [negb]; [|done].
  destruct (t - lastNotificationTime s <? 2000); [done|].
  unfold tidy in *. cbn.
  destruct (timers s) as [|tm [|tm' ts]]; [| |done].
  - destruct H as [-> _]. cbn. split; [done|]. split; [done|]. right. by eexists.
  - destruct H as (-> & _). cbn. rewrite Pos.eqb_refl. cbn.
    split; [done|]. split; [done|]. right. by eexists.
Qed.

Lemma tidy_remove e s : tidy s -> tidy (remove e s).
Proof.
  unfold tidy, remove. cbn. destruct (timers s) as [|tm [|tm' ts]]; [| |done].
  - by intros [-> ->].
  - intros (-> & -> & [->|[c ->]]); cbn; [by auto|].
    split; [done|]. split; [done|].
    destruct (negb (target tm =? e)%nat); [right; by eexists|by left].
Qed.

Lemma tidy_advance t s : tidy s -> tidy (advance t s).
Proof.
  unfold advance, tidy. destruct (timers s) as [|tm [|tm' ts]] eqn:Ht; [| |done].
  - cbn. by rewrite Ht.
  - intros H. cbn. rewrite Ht. cbn.
    destruct (due tm <=? t); [|by rewrite Ht].
    cbn. rewrite Ht. cbn. rewrite Pos.eqb_refl. cbn. split; [done|].
    destruct H as (_ & _ & [->|[c ->]]); cbn; [done|].
    by rewrite Nat.eqb_refl.
Qed.

Lemma tidy_handle_event ev t s : tidy s -> tidy (handle_event ev t s).
Proof.
  destruct ev as [[n|b]|e]; cbn; [apply tidy_show|done|apply tidy_remove].
Qed.

Lemma tidy_play history s : tidy s -> tidy (play history s).
Proof.
  revert s. induction history as [|[t ev] history IH]; intros s H; [done|].
  cbn. by apply IH, tidy_handle_event, tidy_advance.
Qed.

Lemma frame_show c t s :
  isTopFrame (showXStitchNotification c t s) = isTopFrame s.
Proof.
  unfold showXStitchNotification. destruct (isTopFrame s) eqn:H; [|done].
  cbn. by destruct (_ <? _).
Qed.

Lemma frame_fire_due n t s : isTopFrame (fire_due n t s) = isTopFrame s.
Proof.
  revert s. induction n as [|n IH]; intros s; [done|]. cbn.
  destruct (next_timer (timers s)) as [tm|]; [|done].
  destruct (due tm <=? t); [|done]. by rewrite IH.
Qed.

Lemma quiet_show c t s :
  isTopFrame s = false -> showXStitchNotification c t s = s.
Proof. intros H. unfold showXStitchNotification. by rewrite H. Qed.

Lemma quiet_fire_due n t s :
  elements s = [] -> elements (fire_due n t s) = [].
Proof.
  revert s. induction n as [|n IHn]; intros s He; [done|]. cbn.
  destruct (next_timer (timers s)) as [tm|]; [|done].
  destruct (due tm <=? t); [|done].
  apply IHn. cbn. by rewrite He.
Qed.

Lemma quiet_play history s :
  isTopFrame s = false -> elements s = [] -> elements (play history s) = [].
Proof.
  revert s. induction history as [|[t ev] history IH]; intros s Hf He; [done|].
  cbn. assert (Hf' : isTopFrame (advance t s) = false).
  { unfold advance. by rewrite frame_fire_due. }
  assert (He' : elements (advance t s) = []).
  { unfold advance. by apply quiet_fire_due. }
  apply IH.
  - destruct ev as [[n|b]|e]; cbn; [|done|done]. by rewrite frame_show.
  - destruct ev as [[n|b]|e]; cbn; [|done|].
    + by rewrite quiet_show.
    + by rewrite He'.
Qed.

Lemma tidy_expires s :
  tidy s -> elements (advance (lastNotificationTime s + 10000) s) = [].
Proof.
  unfold tidy, advance. destruct (timers s) as [|tm [|tm' ts]] eqn:Ht; [| |done].
  - cbn. by intros [_ ->].
  - intros (_ & Hd & He). cbn. rewrite Ht. cbn.
    destruct (Z.leb_spec (due tm) (lastNotificationTime s + 10000)); [|lia].
    cbn. destruct He as [->|[c ->]]; cbn; [done|]. by rewrite Nat.eqb_refl.
Qed.

Lemma tidy_sizes s :
  tidy s -> (length (elements s) <= 1)%nat /\ (length (timers s) <= 1)%nat.
Proof.
  unfold tidy. destruct (timers s) as [|tm [|tm' ts]]; [| |done].
  - intros [_ ->]. cbn. lia.
  - intros (_ & _ & [->|[c ->]]); cbn; lia.
Qed.

(** After an accepted notification from a tidy state. *)
Lemma show_accepted c t s :
  tidy s -> isTopFrame s = true -> 2000 <= t - lastNotificationTime s ->
  let s' := showXStitchNotification c t s in
  elements s' = [{| element_id := nextElement s; count := c |}]
  /\ lastNotificationTime s' = t
  /\ isTopFrame s' = true
  /\ nextElement s' = S (nextElement s).
Proof.
  intros _ Hf Hl. unfold showXStitchNotification. rewrite Hf. cbn [negb].
  destruct (Z.ltb_spec (t - lastNotificationTime s) 2000); [lia|]. done.
Qed.

Lemma advance_keeps t s :
  tidy s ->
  let s' := advance t s in
  lastNotificationTime s' = lastNotificationTime s
  /\ isTopFrame s' = isTopFrame s
  /\ nextElement s' = nextElement s
  /\ (t < lastNotificationTime s + 10000 -> s' = s).
Proof.
  unfold tidy, advance. destruct (timers s) as [|tm [|tm' ts]] eqn:Ht; [| |done].
  - done.
  - intros (_ & Hd & _). cbn. rewrite Ht. cbn.
    destruct (Z.leb_spec (due tm) t); [|done].
    cbn. do 3 (split; [done|]). lia.
Qed.

End PageNotice.

(** X19.  Whatever messages arrive and whichever close buttons are clicked,
    and whenever: the page shows at most one notification and has at most
    one timer pending; a notification that is shown is gone ten seconds
    after it was shown at the latest; and a frame that is not the top frame
    never shows one. *)
Theorem one_notification_at_a_time history top :
  let s := Notice.play history (Notice.loaded top) in
  (length (Notice.elements s) <= 1)%nat
  /\ (length (Notice.timers s) <= 1)%nat
  /\ Notice.elements
       (Notice.advance (Notice.lastNotificationTime s + 10000) s) = []
  /\ (top = false -> Notice.elements s = []).
Proof.
  cbn zeta.
  pose proof (tidy_play history _ (tidy_loaded top)) as H.
  destruct (tidy_sizes _ H) as [He Ht].
  split; [done|]. split; [done|]. split; [by apply tidy_expires|].
  intros ->. by apply quiet_play.
Qed.

(** X20.  A notification that arrives less than two seconds after one was
    shown is dropped: its count is never displayed, and it does not extend
    the two seconds.  The next one that arrives two seconds or more after
    the notification shown replaces it, and announces its own count only. *)
Theorem duplicate_window_is_anchored s c1 t1 c2 t2 c3 t3 :
  Notice.tidy s -> Notice.isTopFrame s = true ->
  2000 <= t1 - Notice.lastNotificationTime s ->
  t1 <= t2 -> t2 < t1 + 2000 -> t1 + 2000 <= t3 ->
  let two := [(t1, Notice.Message (SHOW_XSTITCH_NOTIFICATION c1));
              (t2, Notice.Message (SHOW_XSTITCH_NOTIFICATION c2))] in
  let three := two ++ [(t3, Notice.Message (SHOW_XSTITCH_NOTIFICATION c3))] in
  map Notice.count (Notice.elements (Notice.play two s))
  = [Notice.announced c1]
  /\ map Notice.count (Notice.elements (Notice.play three s))
     = [Notice.announced c3].
Proof.
  intros Htidy Htop H1 H12 H2 H3. cbn zeta. cbn [app Notice.play
    Notice.handle_event Notice.onMessage].
  fold (Notice.announced c1). fold (Notice.announced c2).
  fold (Notice.announced c3).
  destruct (advance_keeps t1 s Htidy) as (Hl0 & Hf0 & _).
  pose proof (tidy_advance t1 s Htidy) as Htidy0.
  set (s0 := Notice.advance t1 s) in *.
  destruct (show_accepted (Notice.announced c1) t1 s0 Htidy0)
    as (He1 & Hl1 & Hf1 & _); [congruence|lia|].
  pose proof (tidy_show (Notice.announced c1) t1 s0 Htidy0) as Htidy1.
  set (s1 := Notice.showXStitchNotification (Notice.announced c1) t1 s0) in *.
  destruct (advance_keeps t2 s1 Htidy1) as (_ & _ & _ & Hsame).
  rewrite Hsame by lia.
  assert (Hdrop : Notice.showXStitchNotification (Notice.announced c2) t2 s1
                  = s1).
  { unfold Notice.showXStitchNotification at 1. rewrite Hf1. cbn [negb].
    destruct (Z.ltb_spec (t2 - Notice.lastNotificationTime s1) 2000); [done|].
    lia. }
  rewrite Hdrop. split; [by rewrite He1|].
  destruct (advance_keeps t3 s1 Htidy1) as (Hl2 & Hf2 & _).
  pose proof (tidy_advance t3 s1 Htidy1) as Htidy2.
  destruct (show_accepted (Notice.announced c3) t3 _ Htidy2)
    as (He3 & _); [congruence|lia|].
  by rewrite He3.
Qed.

Lemma duplicate_window_is_anchored_witness :
  let two := [(1700000000000, Notice.Message (SHOW_XSTITCH_NOTIFICATION 3));
              (1700000001500, Notice.Message (SHOW_XSTITCH_NOTIFICATION 2))] in
  let three :=
    two ++ [(1700000002000, Notice.Message (SHOW_XSTITCH_NOTIFICATION 1))] in
  map Notice.count (Notice.elements (Notice.play two (Notice.loaded true)))
  = [3]
  /\ map Notice.count
       (Notice.elements (Notice.play three (Notice.loaded true)))
     = [1].
Proof.
  intros two three.
  apply (duplicate_window_is_anchored (Notice.loaded true)
           3 1700000000000 2 1700000001500 1 1700000002000).
  - by split.
  - reflexivity.
  - simpl. lia.
  - lia.
  - lia.
  - lia.
Defined.

(** * Saved titles *)

Section SavedTitles.

Lemma filter_chars_id keep s :
  (forall c, contains_char c s = true -> keep c = true) ->
  Js.filter_chars keep s = s.
Proof.
  induction s as [|d s IH]; intros H; [done|]. cbn [Js.filter_chars].
  rewrite (H d) by (cbn; by rewrite Ascii.eqb_refl).
  f_equal. apply IH. intros c Hc. apply H. cbn. rewrite Hc. apply orb_true_r.
Qed.

Lemma contains_char_filter keep c s :
  contains_char c (Js.filter_chars keep s) = true -> keep c = true.
Proof.
  induction s as [|d s IH]; [done|]. cbn [Js.filter_chars].
  destruct (keep d) eqn:Hd; [|exact IH]. cbn [contains_char].
  intros [H%Ascii.eqb_eq|H]%orb_true_iff; [by subst|by apply IH].
Qed.

Lemma contains_char_trimEnd c s :
  contains_char c (Js.trimEnd s) = true -> contains_char c s = true.
Proof.
  induction s as [|d s IH]; [done|]. cbn [Js.trimEnd].
  destruct (Js.trimEnd s) as [|k ks].
  - destruct (Js.is_space d); [done|]. cbn. rewrite orb_false_r.
    intros ->. done.
  - cbn [contains_char] in *.
    intros [->|H]%orb_true_iff; [done|]. rewrite IH by done.
    apply orb_true_r.
Qed.

Lemma contains_char_trimStart_in c s :
  contains_char c (Js.trimStart s) = true -> contains_char c s = true.
Proof.
  induction s as [|d s IH]; [done|]. cbn [Js.trimStart].
  destruct (Js.is_space d); [|done]. intros H. cbn. rewrite IH by done.
  apply orb_true_r.
Qed.

Lemma trimEnd_id s :
  (forall c, last_char s = Some c -> Js.is_space c = false) ->
  Js.trimEnd s = s.
Proof.
  induction s as [|d s IH]; [done|]. intros H. cbn [Js.trimEnd].
  destruct s as [|e s].
  - cbn. by rewrite (H d).
  - rewrite IH by exact H. done.
Qed.

Lemma trim_id s : trimmed s -> Js.trim s = s.
Proof.
  intros [Hf Hl]. unfold Js.trim.
  assert (Hs : Js.trimStart s = s).
  { destruct s as [|d s]; [done|]. cbn. by rewrite (Hf d). }
  rewrite Hs. by apply trimEnd_id.
Qed.

Lemma invalid_char_listed c :
  Re.invalid_filename_char c = true -> c ∈ invalid_chars.
Proof.
  rewrite invalid_filename_char_listed. by intros ?%bool_decide_eq_true.
Qed.

Lemma valid_filename_keeps s :
  valid_filename s -> Re.strip_invalid s = s.
Proof.
  intros H. apply filter_chars_id. intros c Hc.
  destruct (Re.invalid_filename_char c) eqn:Hi; [|done].
  apply invalid_char_listed in Hi. unfold valid_filename in H.
  rewrite Forall_forall in H. by rewrite (H c Hi) in Hc.
Qed.

Lemma sanitize_title_valid s : valid_filename (sanitize_title s).
Proof.
  apply Forall_forall. intros c Hc.
  destruct (contains_char c (sanitize_title s)) eqn:H; [|done].
  unfold sanitize_title, Js.trim in H.
  apply contains_char_trimEnd, contains_char_trimStart_in,
    contains_char_filter in H.
  assert (Hi : Re.invalid_filename_char c = true).
  { rewrite invalid_filename_char_listed. by apply bool_decide_eq_true. }
  by rewrite Hi in H.
Qed.

End SavedTitles.

(** X21.  A sanitised title holds none of the nine stripped characters and
    is a fixed point of sanitising: saving it again, in the card or on the
    preview page, leaves it as it is.  More generally every title without
    those characters and without white space at its ends is kept
    unchanged. *)
Theorem sanitize_title_is_stable input :
  let t := sanitize_title input in
  valid_filename t
  /\ sanitize_title t = t
  /\ (forall u, valid_filename u -> trimmed u -> sanitize_title u = u).
Proof.
  cbn zeta.
  assert (Hfix : forall u, valid_filename u -> trimmed u ->
                           sanitize_title u = u).
  { intros u Hv Ht. unfold sanitize_title. rewrite valid_filename_keeps by done.
    by apply trim_id. }
  split; [apply sanitize_title_valid|]. split; [|exact Hfix].
  apply Hfix; [apply sanitize_title_valid|].
  unfold sanitize_title. apply trim_spec.
Qed.

Lemma sanitize_title_is_stable_witness :
  sanitize_title "Login v2 (final)" = "Login v2 (final)".
Proof.
  destruct (sanitize_title_is_stable "") as (_ & _ & H).
  apply H.
  - repeat constructor.
  - split; intros c [= <-]; reflexivity.
Defined.

(** * Relative times *)

Section RelativeTime.

Lemma div_ltb a b c :
  0 < b -> (a / b <? c) = (a <? b * c).
Proof.
  intros Hb. destruct (Z.ltb_spec (a / b) c), (Z.ltb_spec a (b * c));
    try done.
  - pose proof (Z.mul_div_le a b Hb). pose proof (Z.mod_pos_bound a b Hb).
    pose proof (Z.div_mod a b). nia.
  - pose proof (Z.div_lt_upper_bound a b c Hb). lia.
Qed.

End RelativeTime.

(** X22.  The age label of a card depends on the age in milliseconds by
    fixed thresholds: [just now] below one minute (and for a time stamp in
    the future), then whole minutes below one hour, whole hours below one
    day, and whole days from then on, each rounded down. *)
Theorem relative_time_thresholds now_ timestamp_ :
  let age := now_ - timestamp_ in
  getRelativeTime now_ timestamp_
  = if age <? 60000 then "just now"
    else if age <? 3600000 then plural (age / 60000) "minute"
    else if age <? 86400000 then plural (age / 3600000) "hour"
    else plural (age / 86400000) "day".
Proof.
  cbn zeta. unfold getRelativeTime.
  rewrite !Z.div_div by lia. rewrite !div_ltb by lia.
  change (1000 * 60) with 60000. change (60000 * 60) with 3600000.
  change (3600000 * 24) with 86400000.
  change (1000 * 60 * 60) with 3600000.
  change (1000 * 60 * 60 * 24) with 86400000.
  reflexivity.
Qed.

(** * The export trigger *)

Section Trigger.

Lemma long_selection_nonempty (s : string) :
  (50 < String.length s)%nat -> s <> "".
Proof. intros H ->. cbn in H. lia. Qed.

End Trigger.

(** One outcome of the strategies after the frame check. *)
Ltac trigger_leaf :=
  cbn -[Js.includes]; split; [lia|];
  split;
    [repeat first [apply List.Forall_nil | apply List.Forall_cons];
     (split; [done|]);
     first [by left
           | right; split; [done|]; cbn; intros ->; cbn in *; discriminate]|];
  split;
    [first [done
           | intros _; eexists; split; [reflexivity|];
             first [done | by destruct (Js.includes _ _)]]|];
  split; [done|intros [_ ?]; lia].

(** X23.  Whatever the page is like, the export trigger sends at most one
    message; the message carries the address of the page as its source,
    and unless it is a visual capture it carries no image and a non-empty
    document; it is followed by a toast that reports the capture.  The
    trigger stays silent, without any toast, exactly when no selection is
    longer than 50 characters and the mouse has been idle in the frame for
    more than two seconds. *)
Theorem export_trigger_invariants p :
  let out := Content.handleExportTrigger p in
  (length (sent out) <= 1)%nat
  /\ Forall (fun payload =>
               payload_sourceUrl payload = Content.href p
               /\ (payload_title payload = "Visual Capture"
                   \/ (payload_image payload = None
                       /\ payload_html payload <> "")))
            (sent out)
  /\ (sent out <> [] ->
      exists t, last out = Some (Content.showToast t)
                /\ success_toast t = true)
  /\ (out = []
      <-> (match Content.selection p with
           | Some s => (String.length s <= 50)%nat
           | None => True
           end
           /\ 2000 < Content.page_now p - Content.lastMouseMoveTime p)).
Proof.
  cbn zeta. destruct p as [sel href_ now_ last_ code node].
  unfold Content.handleExportTrigger, Content.visual_capture.
  cbn [Content.href Content.selection Content.page_now
       Content.lastMouseMoveTime Content.codeFromEditor Content.targetNode].
  destruct sel as [s|].
  - destruct (Nat.ltb_spec 50 (String.length s)) as [Hlong|Hshort].
    + cbn. split; [lia|]. split.
      { constructor; [|constructor]. split; [done|]. right.
        split; [done|]. by apply long_selection_nonempty. }
      split; [intros _; by eexists|].
      split; [done|]. intros [? _]. lia.
    + destruct (Z.ltb_spec 2000 (now_ - last_)) as [Hstale|Hfresh].
      * cbn. split; [lia|]. split; [constructor|]. split; [done|]. done.
      * destruct code as [codeContent|];
          [destruct (Js.truthy_string codeContent) eqn:Htruthy|];
          destruct node as [[[wrapper image]|]|]; trigger_leaf.
  - cbn [negb].
    destruct (Z.ltb_spec 2000 (now_ - last_)) as [Hstale|Hfresh].
    + cbn. split; [lia|]. split; [constructor|]. split; [done|]. done.
    + destruct code as [codeContent|];
        [destruct (Js.truthy_string codeContent) eqn:Htruthy|];
        destruct node as [[[wrapper image]|]|]; trigger_leaf.
Qed.

(** * The side panel and the preview page *)

Section PanelAndPreview.

Lemma rehtml_ids id_ v items :
  map CapturedItem.id (Editor.rehtml id_ v items) = map CapturedItem.id items.
Proof.
  unfold Editor.rehtml. induction items as [|it items IH]; [done|]. cbn.
  rewrite IH. by destruct (String.eqb _ _).
Qed.

Lemma rehtml_each id_ v items :
  Forall2 (fun old new =>
             if String.eqb (CapturedItem.id old) id_
             then new = with_html v old else new = old)
          items (Editor.rehtml id_ v items).
Proof.
  unfold Editor.rehtml. induction items as [|it items IH]; cbn; [constructor|].
  constructor; [|exact IH]. by destruct (String.eqb _ _).
Qed.

Lemma find_retitle id_ t items it :
  List.find (fun item => String.eqb (CapturedItem.id item) id_) items = Some it ->
  List.find (fun item => String.eqb (CapturedItem.id item) id_)
            (retitle id_ t items)
  = Some (CapturedItem.with_title (Some t) it).
Proof.
  unfold retitle. induction items as [|x items IH]; [done|]. cbn.
  destruct (String.eqb (CapturedItem.id x) id_) eqn:Hx.
  - intros [= <-]. cbn. by rewrite Hx.
  - rewrite Hx. exact IH.
Qed.

Lemma find_id_elem id_ (items : list CapturedItem.t) it :
  it ∈ items -> CapturedItem.id it = id_ ->
  is_Some (List.find (fun item => String.eqb (CapturedItem.id item) id_) items).
Proof.
  intros Hin Hid. induction Hin as [it items|it x items Hin IH]; cbn.
  - rewrite Hid, String.eqb_refl. by eexists.
  - destruct (String.eqb _ _); [by eexists|]. by apply IH.
Qed.

Lemma filter_sublist {A} (p : A -> bool) (l : list A) :
  List.filter p l `sublist_of` l.
Proof.
  induction l as [|x l IH]; cbn; [constructor|].
  destruct (p x); [by apply sublist_skip|by apply sublist_cons].
Qed.

End PanelAndPreview.

(** X24.  Deleting in the side panel removes every item with the given id
    and no other, keeping the order, and writes the list of the panel
    itself to the store: an item that is in the store but not in the list
    of the panel is gone from the store afterwards.  The preview data is
    left alone.  Clearing empties both. *)
Theorem panel_delete_writes_own_list id_ s :
  let s' := App_handleDelete id_ s in
  capturedItems (App.store s') = Some (App.items s')
  /\ previewData (App.store s') = previewData (App.store s)
  /\ (forall it, it ∈ App.items s'
                 <-> it ∈ App.items s /\ CapturedItem.id it <> id_)
  /\ App.items s' `sublist_of` App.items s
  /\ (forall it, it ∉ App.items s ->
                 it ∉ default [] (capturedItems (App.store s')))
  /\ App.items (App_clearAll s) = []
  /\ capturedItems (App.store (App_clearAll s)) = Some [].
Proof.
  cbn zeta. unfold App_handleDelete. cbn.
  assert (Hmem : forall it,
             it ∈ List.filter
                    (fun item => negb (String.eqb (CapturedItem.id item) id_))
                    (App.items s)
             <-> it ∈ App.items s /\ CapturedItem.id it <> id_).
  { intros it. rewrite !list_elem_of_In, filter_In.
    split; intros [Hin Hid]; (split; [done|]).
    - intros Heq. by rewrite Heq, String.eqb_refl in Hid.
    - by destruct (String.eqb_spec (CapturedItem.id it) id_). }
  split; [done|]. split; [done|]. split; [exact Hmem|]. split.
  - apply filter_sublist.
  - split; [|done]. intros it Hout Hin. apply Hmem in Hin as [Hin _]. done.
Qed.

Lemma panel_delete_writes_own_list_witness :
  let late :=
    CapturedItem.mk "1700000000500xyz" 1700000000500 "<p>late</p>" None
      Sample.source (Some "Late") None in
  let s := {| App.items := [Sample.login];
              App.store := {| capturedItems := Some [late; Sample.login];
                              previewData := None |} |} in
  late ∉ default []
           (capturedItems (App.store (App_handleDelete "no such id" s))).
Proof.
  intros late s.
  destruct (panel_delete_writes_own_list "no such id" s)
    as (_ & _ & _ & _ & H & _).
  apply H. intros Hin. apply list_elem_of_singleton in Hin. discriminate Hin.
Defined.

(** X25.  Opening the preview of an item, editing its code and saving
    stores the edited document for every stored item with that id and
    leaves the rest of each item and all other items as they are; no item
    is added or removed, so an item deleted meanwhile stays deleted.  The
    preview data holds the edited item.  An edit marks the page as changed
    and saving clears the mark; an editor event without a value changes
    nothing. *)
Theorem code_edit_is_saved tab item v st :
  let st1 := ExportCard_openPreview tab item st in
  let s0 := Editor.loadData st1 Editor.opened in
  let s1 := Editor.handleEditorChange (Some v) s0 in
  let s2 := fst (Editor.handleSaveCode s1 st1) in
  let st2 := snd (Editor.handleSaveCode s1 st1) in
  let before := default [] (capturedItems st) in
  let after := default [] (capturedItems st2) in
  map CapturedItem.id after = map CapturedItem.id before
  /\ Forall2 (fun old new =>
                if String.eqb (CapturedItem.id old) (CapturedItem.id item)
                then new = with_html v old else new = old)
             before after
  /\ previewData st2
     = Some (with_html v
               (CapturedItem.mk (CapturedItem.id item)
                  (CapturedItem.timestamp item) (CapturedItem.html item)
                  (CapturedItem.image item) (CapturedItem.sourceUrl item)
                  (CapturedItem.title item) (Some tab)))
  /\ Editor.hasUnsavedChanges s1 = true
  /\ Editor.hasUnsavedChanges s2 = false
  /\ Editor.handleEditorChange None s0 = s0.
Proof.
  cbn. split; [apply rehtml_ids|]. split; [apply rehtml_each|]. done.
Qed.

(** X26.  A rename in a card of the side panel reaches the preview page
    that shows the same item: after the change event the title of the
    preview, its title field and the stored preview data all hold the
    sanitised title, whatever had been typed into the title field of the
    preview; the document being edited in the preview and its unsaved mark
    are kept. *)
Theorem panel_rename_reaches_preview item card app s pd :
  Js.truthy_string (sanitize_title (ExportCard.newTitle card)) = true ->
  item ∈ App.items app ->
  previewData (App.store app) = Some pd ->
  CapturedItem.id pd = CapturedItem.id item ->
  CapturedItem.id item <> "" ->
  let t := sanitize_title (ExportCard.newTitle card) in
  let app' := snd (ExportCard.handleSaveTitle item card app) in
  let s' := fst (Editor.handleStorageChange (App.items app') s
                   (App.store app')) in
  let st' := snd (Editor.handleStorageChange (App.items app') s
                    (App.store app')) in
  PreviewApp.data (Editor.page s')
  = CapturedItem.with_title (Some t) <$> PreviewApp.data (Editor.page s)
  /\ PreviewApp.titleInput (Editor.page s') = t
  /\ previewData st' = Some (CapturedItem.with_title (Some t) pd)
  /\ capturedItems st'
     = Some (retitle (CapturedItem.id item) t (App.items app))
  /\ CapturedItem.html <$> PreviewApp.data (Editor.page s')
     = CapturedItem.html <$> PreviewApp.data (Editor.page s)
  /\ Editor.hasUnsavedChanges s' = Editor.hasUnsavedChanges s.
Proof.
  intros Ht Hin Hpd Hid Hne. cbn zeta.
  unfold ExportCard.handleSaveTitle. rewrite Ht. cbn [snd].
  unfold App.handleRename, Editor.handleStorageChange.
  cbn [App.items App.store previewData capturedItems]. rewrite Hpd.
  assert (Htruthy : Js.truthy_string (CapturedItem.id pd) = true).
  { rewrite Hid. by destruct (CapturedItem.id item). }
  rewrite Htruthy, Hid.
  destruct (find_id_elem (CapturedItem.id item) (App.items app) item Hin
              eq_refl) as [cur Hcur].
  rewrite (find_retitle _ _ _ _ Hcur). cbn.
  unfold Js.or_default. rewrite Ht.
  do 4 (split; [done|]). split; [|done].
  by destruct (PreviewApp.data (Editor.page s)).
Qed.

Lemma panel_rename_reaches_preview_witness :
  let app := {| App.items := [Sample.login];
                App.store := {| capturedItems := Some [Sample.login];
                                previewData := Some Sample.login |} |} in
  let card := {| ExportCard.newTitle := " Sign in? ";
                 ExportCard.isEditing := true |} in
  let s := {| Editor.page :=
                {| PreviewApp.data := Some Sample.login;
                   PreviewApp.titleInput := "Logi";
                   PreviewApp.isEditingTitle := true |};
              Editor.hasUnsavedChanges := false |} in
  let app' := snd (ExportCard.handleSaveTitle Sample.login card app) in
  PreviewApp.titleInput
    (Editor.page (fst (Editor.handleStorageChange (App.items app') s
                         (App.store app'))))
  = "Sign in".
Proof.
  intros app card s app'.
  destruct (panel_rename_reaches_preview Sample.login card app s Sample.login)
    as (_ & H & _).
  - reflexivity.
  - apply list_elem_of_here.
  - reflexivity.
  - reflexivity.
  - discriminate.
  - exact H.
Defined.

(** * The service worker as a whole *)

Section Worker.

Variable env : Env.

Lemma grown_refl st : grown st st.
Proof. split; [by exists []|done]. Qed.

Lemma grown_trans st1 st2 st3 : grown st1 st2 -> grown st2 st3 -> grown st1 st3.
Proof.
  intros [[n1 H1] P1] [[n2 H2] P2]. split; [|congruence].
  exists (n2 ++ n1). by rewrite H2, H1, app_assoc.
Qed.

Lemma keeps_refl w : keeps w w.
Proof. split; [done|apply grown_refl]. Qed.

Lemma keeps_trans w1 w2 w3 : keeps w1 w2 -> keeps w2 w3 -> keeps w1 w3.
Proof.
  intros [A1 G1] [A2 G2]. split; [auto|by eapply grown_trans].
Qed.

(** A step that leaves the batch and the notifications sent alone. *)
Lemma keeps_quiet w w' :
  notificationBatch w' = notificationBatch w ->
  notifications (calls w') = notifications (calls w) ->
  grown (storage w) (storage w') ->
  keeps w w'.
Proof.
  intros Hb Hn Hg. split; [|done]. intros [H1 H2].
  split; [by rewrite Hb|by rewrite Hn].
Qed.

Lemma keeps_reads c r w : keeps w (set_reads c r w).
Proof. apply keeps_quiet; try done. apply grown_refl. Qed.

Lemma keeps_grouped c r p w :
  keeps w (set_reads c r (set_objectPrototype p w)).
Proof. apply keeps_quiet; try done. apply grown_refl. Qed.

Lemma keeps_set_now t w : keeps w (set_now t w).
Proof. apply keeps_quiet; try done. apply grown_refl. Qed.

Lemma keeps_call c w :
  notifications [c] = [] -> keeps w (set_calls (calls w ++ [c]) w).
Proof.
  intros Hc. apply keeps_quiet; [done| |apply grown_refl].
  cbn [calls set_calls]. by rewrite notifications_app, Hc, app_nil_r.
Qed.

Lemma keeps_broadcast windowId isOpen w :
  keeps w (final (broadcastSidePanelState env windowId isOpen) w).
Proof.
  destruct (broadcast_run env windowId isOpen w)
    as (_ & Hc & _ & _ & _ & _ & _ & _ & Hs & Hb & _).
  apply keeps_quiet; [done| |rewrite Hs; apply grown_refl].
  rewrite Hc, notifications_app. unfold broadcast.
  destruct (tabsQuery env (now w) (Some windowId)) as [|[i|] ?];
    cbn; rewrite ?app_nil_r; try done.
  destruct (negb (i =? 0)); cbn; by rewrite app_nil_r.
Qed.

Lemma keeps_storage_prepend items w :
  keeps w (final (storage_prepend items) w).
Proof.
  unfold final. rewrite storage_prepend_run. cbn [snd].
  apply keeps_quiet; [done| |].
  - cbn. rewrite notifications_app. cbn. by rewrite app_nil_r.
  - cbn. split; [by exists items|done].
Qed.

Lemma keeps_schedule n tab w :
  1 <= n -> keeps w (final (scheduleNotification n tab) w).
Proof.
  intros Hn. unfold final. rewrite scheduleNotification_run. cbn [snd].
  split; [|apply grown_refl]. intros [H1 H2]. split; [|done].
  cbn. intros b [= <-]. unfold merged.
  destruct (notificationBatch w) as [b0|] eqn:Hb; cbn; [|done].
  specialize (H1 b0 eq_refl). lia.
Qed.

Lemma keeps_processZipData data src tab w :
  keeps w (final (processZipData env data src tab) w).
Proof.
  unfold final. rewrite processZipData_run.
  destruct (reconstruct_grouped env data src w) as (c & r & p & Hw1).
  destruct (reconstruct env data src w) as [[items|err] w1]; cbn [snd] in *.
  - subst w1. destruct (Nat.ltb_spec 0 (length items)) as [Hlen|Hlen].
    + eapply keeps_trans; [apply keeps_grouped|].
      run. rewrite storage_prepend_run. cbn zeta. cbv beta iota.
      eapply keeps_trans.
      * pose proof (keeps_storage_prepend items
                      (set_reads c r (set_objectPrototype p w))) as H.
        unfold final in H. rewrite storage_prepend_run in H. exact H.
      * apply keeps_schedule. lia.
    + apply keeps_grouped.
  - subst w1. eapply keeps_trans; [apply keeps_grouped|]. by apply keeps_call.
Qed.

Lemma keeps_saveSingleImageDesign data src filename w :
  keeps w (final (saveSingleImageDesign env data src filename) w).
Proof.
  unfold final, saveSingleImageDesign, fresh_id, Date_now, Math_random36. run.
  match goal with
  | |- keeps _ (snd (storage_prepend ?items ?x)) =>
      eapply keeps_trans; [|apply (keeps_storage_prepend items x)];
        apply (keeps_reads _ _ w)
  end.
Qed.

Lemma delivery_target_real t remembered id :
  delivery_target env t remembered = Some id -> id <> 0.
Proof.
  unfold delivery_target.
  destruct remembered as [r|]; cbn.
  - destruct (Z.eqb_spec r 0); cbn.
    + destruct (tabsQuery env t None) as [|[i|] ?]; try done.
      destruct (Z.eqb_spec i 0); cbn; [done|]. by intros [= <-].
    + by intros [= <-].
  - destruct (tabsQuery env t None) as [|[i|] ?]; try done.
    destruct (Z.eqb_spec i 0); cbn; [done|]. by intros [= <-].
Qed.

Lemma keeps_flush w :
  keeps w (final (flush_notification_callback env) w).
Proof.
  unfold final. destruct (notificationBatch w) as [b|] eqn:Hb.
  - rewrite (flush_run env w b Hb). cbn [snd].
    split; [|apply grown_refl]. intros [H1 H2]. split; [done|].
    cbn. rewrite notifications_app. apply Forall_app. split; [done|].
    unfold delivery.
    destruct (delivery_target env (now w) (tabId b)) as [id|] eqn:Hd;
      cbn; [|constructor].
    constructor; [|constructor]. cbn.
    split; [exact (delivery_target_real _ _ _ Hd)|by apply H1].
  - unfold flush_notification_callback. run. rewrite Hb. apply keeps_refl.
Qed.

Lemma keeps_run_callback cb w : keeps w (final (run_callback env cb) w).
Proof.
  destruct cb as [|tabId_ windowId isStuck]; [apply keeps_flush|].
  unfold final, run_callback. run. destruct isStuck; cbn [snd].
  - eapply keeps_trans;
      [by apply (keeps_call
                   (sidePanel_setOptions tabId_ true (Some "index.html")))|].
    apply (keeps_broadcast windowId false).
  - by apply keeps_call.
Qed.

Lemma keeps_set_timers ts n w : keeps w (set_timers ts n w).
Proof. apply keeps_quiet; try done. apply grown_refl. Qed.

Lemma keeps_fire_due n t w : keeps w (final (fire_due env n t) w).
Proof.
  revert w. induction n as [|n IH]; intros w; [apply keeps_refl|].
  unfold final. cbn [fire_due]. run.
  destruct (next_timer (timers w)) as [tm|]; [|apply keeps_refl].
  destruct (due tm <=? t); [|apply keeps_refl].
  unfold clearTimeout. run.
  match goal with
  | |- context [run_callback env ?cb ?x] =>
      pose proof (keeps_run_callback cb x) as Hcb; unfold final in Hcb;
        destruct (run_callback env cb x) as [[[]|err] v]
  end; cbn [fst snd] in *.
  - eapply keeps_trans; [|apply IH].
    eapply keeps_trans; [|exact Hcb].
    eapply keeps_trans; [apply keeps_set_timers|apply keeps_set_now].
  - eapply keeps_trans; [|exact Hcb].
    eapply keeps_trans; [apply keeps_set_timers|apply keeps_set_now].
Qed.

Lemma keeps_advance t w : keeps w (final (advance env t) w).
Proof.
  unfold final, advance. run.
  pose proof (keeps_fire_due (length (timers w)) t w) as H. unfold final in H.
  destruct (fire_due env (length (timers w)) t w) as [[[]|err] v];
    cbn [fst snd] in *; [|done].
  eapply keeps_trans; [exact H|apply keeps_set_now].
Qed.

Lemma keeps_onMessage request sender w :
  keeps w (final (onMessage env request sender) w).
Proof.
  unfold final. destruct request as [url data| | |url|p|ty];
    try apply keeps_refl.
  - unfold onMessage. run.
    pose proof (keeps_processZipData data url (sender_tab_id sender) w) as H.
    unfold final in H.
    by destruct (processZipData env data url (sender_tab_id sender) w)
      as [[[]|err] v].
  - unfold onMessage. run.
    destruct (sender_tab_windowId sender) as [win|]; [|apply keeps_refl].
    destruct (Js.truthy_number (Some win)); [|apply keeps_refl].
    by apply keeps_call.
  - unfold onMessage, Date_now, setTimeout. run.
    destruct (sender_tab_windowId sender) as [win|]; [|apply keeps_refl].
    destruct (sender_tab_id sender) as [tab|]; [|apply keeps_refl].
    destruct (Js.truthy_number (Some win) && Js.truthy_number (Some tab));
      [|apply keeps_refl].
    cbn -[notifications]. destruct (_ || _); cbn -[notifications];
      (apply keeps_quiet; [done| |apply grown_refl]);
      cbn -[notifications]; rewrite ?notifications_app; cbn;
      by rewrite ?app_nil_r.
  - unfold onMessage. run. by apply keeps_call.
Qed.

Lemma keeps_onCreated fetched settings d w :
  keeps w (final (onCreated env (fun _ => fetched) settings d) w).
Proof.
  unfold final, onCreated, fetch_then.
  destruct (isStitchOrigin d); cbn [negb]; [|apply keeps_refl].
  destruct (is_zip_download d).
  - destruct (startsWith "http" (DownloadItem.url d)); [|apply keeps_refl].
    run. destruct fetched as [data|].
    + match goal with
      | |- context [processZipData env ?a ?b ?c ?x] =>
          pose proof (keeps_processZipData a b c x) as H; unfold final in H;
            destruct (processZipData env a b c x) as [[[]|err] v]
      end; cbn [fst snd] in *;
        (eapply keeps_trans; [|exact H]); by apply keeps_call.
    + cbn [snd]. eapply keeps_trans; [by apply (keeps_call (fetch (DownloadItem.url d)))|].
      by apply keeps_call.
  - destruct (is_image_download d); [|apply keeps_refl].
    destruct (startsWith "http" (DownloadItem.url d)); [|apply keeps_refl].
    run. destruct fetched as [data|].
    + match goal with
      | |- context [saveSingleImageDesign env ?a ?b ?c ?x] =>
          pose proof (keeps_saveSingleImageDesign a b c x) as H;
            unfold final in H;
            destruct (saveSingleImageDesign env a b c x) as [[[]|err] v]
      end; cbn [fst snd] in *;
        (eapply keeps_trans; [|exact H]); by apply keeps_call.
    + cbn [snd]. eapply keeps_trans; [by apply (keeps_call (fetch (DownloadItem.url d)))|].
      by apply keeps_call.
Qed.

Lemma keeps_set_openSidePanels s w : keeps w (set_openSidePanels s w).
Proof. apply keeps_quiet; try done. apply grown_refl. Qed.

Lemma keeps_port_INIT windowId w :
  keeps w (final (port_INIT env windowId) w).
Proof.
  unfold final, port_INIT. destruct windowId as [id|]; [|apply keeps_refl].
  run. destruct (Js.truthy_number (Some id)); [|apply keeps_refl].
  match goal with
  | |- context [broadcastSidePanelState env id true ?x] =>
      pose proof (keeps_broadcast id true x) as H; unfold final in H;
        destruct (broadcastSidePanelState env id true x) as [[[]|err] v]
  end; cbn [fst snd] in *;
    (eapply keeps_trans; [apply keeps_set_openSidePanels|exact H]).
Qed.

Lemma keeps_port_onDisconnect winId w :
  keeps w (final (port_onDisconnect env winId) w).
Proof.
  unfold final, port_onDisconnect. destruct winId as [id|]; [|apply keeps_refl].
  run. destruct (Js.truthy_number (Some id)); [|apply keeps_refl].
  match goal with
  | |- context [broadcastSidePanelState env id false ?x] =>
      pose proof (keeps_broadcast id false x) as H; unfold final in H;
        destruct (broadcastSidePanelState env id false x) as [[[]|err] v]
  end; cbn [fst snd] in *;
    (eapply keeps_trans; [apply keeps_set_openSidePanels|exact H]).
Qed.

Lemma keeps_onUpdated settings tabId_ changeInfo url w :
  keeps w (final (onUpdated settings tabId_ changeInfo url) w).
Proof.
  unfold final, onUpdated, updateSidePanelVisibility.
  destruct (_ || _); [|apply keeps_refl].
  destruct (_ || _); run; by apply keeps_call.
Qed.

Lemma keeps_onActivated settings tabId_ tab w :
  keeps w (final (onActivated settings tabId_ tab) w).
Proof.
  unfold final, onActivated, updateSidePanelVisibility.
  destruct tab as [url|]; [|apply keeps_refl].
  destruct (_ || _); run; by apply keeps_call.
Qed.

Lemma keeps_worker_step ev w : keeps w (final (worker_step env ev) w).
Proof.
  destruct ev as [request sender|settings d fetched|settings tabId_ ci url
                 |settings tabId_ tab|windowId|winId|t]; cbn [worker_step].
  - pose proof (keeps_onMessage request sender w) as H. unfold final in *.
    run. by destruct (onMessage env request sender w) as [[b|err] v].
  - pose proof (keeps_onCreated fetched settings d w) as H. unfold final in *.
    run. by destruct (onCreated env _ settings d w) as [[b|err] v].
  - apply keeps_onUpdated.
  - apply keeps_onActivated.
  - pose proof (keeps_port_INIT windowId w) as H. unfold final in *.
    run. by destruct (port_INIT env windowId w) as [[b|err] v].
  - apply keeps_port_onDisconnect.
  - apply keeps_advance.
Qed.

Lemma keeps_worker_run history w : keeps w (worker_run env history w).
Proof.
  revert w. induction history as [|ev history IH]; intros w;
    [apply keeps_refl|].
  cbn [worker_run]. eapply keeps_trans; [apply keeps_worker_step|apply IH].
Qed.

End Worker.

(** X27.  Through any history of messages, downloads, tab updates and
    activations, connections and disconnections of the panel and passing
    time, from the start of the service worker on: every notification it
    sends goes to a tab with a non-zero id and announces at least one item,
    and an open batch counts at least one item. *)
Theorem notifications_announce_items env history st t :
  let w := worker_run env history (fresh_world st t) in
  Forall (fun n => fst n <> 0 /\ 1 <= snd n) (notifications (calls w))
  /\ (forall b, notificationBatch w = Some b -> 1 <= count b).
Proof.
  cbn zeta.
  destruct (keeps_worker_run env history (fresh_world st t)) as [H _].
  destruct H as [H1 H2]; [|done]. split; [done|]. constructor.
Qed.

(** * The settings *)

Section SettingsInSync.

Import SettingsViews.

Lemma in_sync_mounted st : in_sync (mounted st).
Proof.
  destruct st as [[[[]|] [[]|]]|]; by repeat split.
Qed.

Lemma in_sync_step ev s :
  in_sync s ->
  in_sync (step ev s)
  /\ setting Settings.experimentalMode (stored (step ev s))
     = match ev with
       | OptionsChanged v => v
       | _ => setting Settings.experimentalMode (stored s)
       end
  /\ setting Settings.cancelDownloads (stored (step ev s))
     = match ev with
       | OptionsChanged _ => setting Settings.cancelDownloads (stored s)
       | _ => negb (setting Settings.cancelDownloads (stored s))
       end.
Proof.
  destruct s as [st p o x]. unfold in_sync. cbn. intros (-> & -> & ->).
  destruct ev as [| |v], st as [[[[]|] [[]|]]|]; cbn; try destruct v;
    by repeat split.
Qed.

Lemma in_sync_play history s :
  in_sync s ->
  in_sync (play history s)
  /\ setting Settings.experimentalMode (stored (play history s))
     = foldl (fun e ev => match ev with OptionsChanged v => v | _ => e end)
             (setting Settings.experimentalMode (stored s)) history
  /\ setting Settings.cancelDownloads (stored (play history s))
     = foldl (fun c ev => match ev with
                          | OptionsChanged _ => c
                          | _ => negb c
                          end)
             (setting Settings.cancelDownloads (stored s)) history.
Proof.
  unfold play. revert s.
  induction history as [|ev history IH]; intros s Hs; [done|].
  cbn [foldl].
  destruct (in_sync_step ev s Hs) as (Hs' & He & Hc).
  destruct (IH _ Hs') as (H1 & H2 & H3).
  split; [done|]. split.
  - rewrite H2, He. by destruct ev.
  - rewrite H3, Hc. by destruct ev.
Qed.

End SettingsInSync.

(** X29.  The side panel, the overlay of the page and the options page
    always show what is stored: after any sequence of toggles in the panel,
    flips of the switch in the overlay and changes on the options page,
    started with any stored settings (or none), each of the three states
    equals the stored setting it displays.  The writers do not disturb each
    other: experimental mode is what the options page set last, and
    cancelling is flipped by each toggle and flip and by nothing else. *)
Theorem settings_views_in_sync st history :
  let s := SettingsViews.play history (SettingsViews.mounted st) in
  SettingsViews.in_sync s
  /\ setting Settings.experimentalMode (SettingsViews.stored s)
     = foldl (fun e ev => match ev with
                          | SettingsViews.OptionsChanged v => v
                          | _ => e
                          end)
             (setting Settings.experimentalMode st) history
  /\ setting Settings.cancelDownloads (SettingsViews.stored s)
     = foldl (fun c ev => match ev with
                          | SettingsViews.OptionsChanged _ => c
                          | _ => negb c
                          end)
             (setting Settings.cancelDownloads st) history.
Proof.
  exact (in_sync_play history (SettingsViews.mounted st) (in_sync_mounted st)).
Qed.

(** * The media type of an image *)

Section MediaType.

Variable env : Env.

Lemma endsWith_split suffix s :
  Js.endsWith suffix s = true -> exists a, s = a +:+ suffix.
Proof.
  induction s as [|c s IH]; cbn [Js.endsWith].
  - rewrite orb_false_r. intros H%String.eqb_eq. exists "". by subst.
  - intros [H%String.eqb_eq|H]%orb_true_iff.
    + exists "". by subst.
    + destruct (IH H) as [a ->]. by exists (String c a).
Qed.

Lemma map_chars_app_inv g s a' b' :
  Js.map_chars g s = a' +:+ b' ->
  exists a b, s = a +:+ b /\ Js.map_chars g a = a' /\ Js.map_chars g b = b'.
Proof.
  revert s. induction a' as [|c a' IH]; intros s H.
  - by exists "", s.
  - destruct s as [|d s]; [done|].
    change (String c a' +:+ b') with (String c (a' +:+ b')) in H.
    cbn in H. injection H as Hc H.
    destruct (IH s H) as (a & b & -> & Ha & Hb).
    exists (String d a), b. cbn. by rewrite Hc, Ha.
Qed.

Lemma toLowerCase_dot c : Js.toLowerCase c = "."%char -> c = "."%char.
Proof.
  destruct c as [[] [] [] [] [] [] [] []]; vm_compute; congruence.
Qed.

Lemma lower_no_dot e :
  contains_char "." (Js.map_chars Js.toLowerCase e) = false ->
  contains_char "." e = false.
Proof.
  induction e as [|c e IH]; [done|]. cbn.
  intros [Hc He]%orb_false_iff. rewrite (IH He), orb_false_r.
  destruct (Ascii.eqb_spec c "."); [|done]. by subst.
Qed.

(** A name whose lower-case form ends in a dot and [x], where [x] has no
    dot: its last segment between dots is [x] up to letter case. *)
Lemma lower_suffix_ext x s :
  contains_char "." x = false ->
  Js.endsWith (String "." x) (Js.map_chars Js.toLowerCase s) = true ->
  exists a e, s = a +:+ String "." e
              /\ Js.map_chars Js.toLowerCase e = x
              /\ contains_char "." e = false.
Proof.
  intros Hx [a' H]%endsWith_split.
  apply map_chars_app_inv in H as (a & b & -> & _ & Hb).
  destruct b as [|d e]; [done|]. cbn in Hb. injection Hb as Hd He.
  apply toLowerCase_dot in Hd as ->.
  exists a, e. split; [done|]. split; [done|].
  apply lower_no_dot. by rewrite He.
Qed.

Lemma image_ext_split s :
  Re.image_ext s = true ->
  exists a e, s = a +:+ String "." e
              /\ Js.map_chars Js.toLowerCase e ∈ raster_extensions
              /\ contains_char "." e = false.
Proof.
  unfold Re.image_ext, raster_extensions.
  intros [[[H|H]%orb_true_iff|H]%orb_true_iff|H]%orb_true_iff;
    apply lower_suffix_ext in H as (a & e & -> & He & Hd); try done;
    exists a, e; (split; [done|]); (split; [|done]); rewrite He; set_solver.
Qed.

Lemma last_split_ext a e :
  contains_char "." e = false ->
  last (Js.split "." (a +:+ String "." e)) = Some e.
Proof.
  intros He. rewrite split_append, (split_without_sep _ _ He).
  apply last_snoc.
Qed.

(** The name of an entry ends in its file name. *)
Lemma fileName_suffix name : exists pre, name = pre +:+ fileName_of name.
Proof.
  unfold fileName_of, Js.pop. cbn [fst].
  pose proof (join_split "/" name) as Hj.
  destruct (split_cons "/" name) as (h & t & Hs).
  assert (Hne : Js.split "/" name <> []) by (by rewrite Hs).
  clear Hs. destruct (Js.split "/" name) as [|x l _] using rev_ind; [done|].
  rewrite last_snoc. cbn [default].
  destruct l as [|b l].
  - exists "". cbn in Hj. by rewrite Hj.
  - rewrite join_snoc in Hj by done. eexists. symmetry. rewrite <- Hj.
    by rewrite <- string_app_assoc.
Qed.

Lemma image_ext_name name :
  Re.image_ext (fileName_of name) = true ->
  exists e, fst (Js.pop (Js.split "." name)) = Some e
            /\ Js.map_chars Js.toLowerCase e ∈ raster_extensions.
Proof.
  intros (a & e & Hf & He & Hd)%image_ext_split.
  destruct (fileName_suffix name) as [pre Hn]. rewrite Hf in Hn.
  exists e. split; [|done]. unfold Js.pop. cbn [fst].
  rewrite Hn, <- string_app_assoc. by apply last_split_ext.
Qed.

Lemma image_from_mono zip x e : image_from zip e -> image_from (zip ++ [x]) e.
Proof.
  intros H f Hf. destruct (H f Hf) as (Hin & ?). split; [|done].
  apply elem_of_app. by left.
Qed.

Lemma Forall_folders_alter (R : string * Folder.t -> Prop) h k fs :
  Forall R fs -> (forall g, R (k, g) -> R (k, h g)) ->
  Forall R (folders_alter h k fs).
Proof.
  intros Hfs Hh. induction Hfs as [|[k0 g] fs Hg Hfs IH]; cbn; [constructor|].
  destruct (String.eqb_spec k k0) as [->|Hne]; constructor; auto.
Qed.

Lemma Forall_folders_ensure (R : string * Folder.t -> Prop) p k fs :
  Forall R fs -> R (k, Folder.empty) -> Forall R (folders_ensure p k fs).
Proof.
  intros Hfs Hk. unfold folders_ensure.
  destruct (folders_get p k fs); [done|].
  apply Forall_app. split; [done|]. by constructor.
Qed.

(** The image a group holds as its own is a file of the archive. *)
Lemma group_files_image_from p zip :
  Forall (image_from zip) (snd (group_files p zip)).
Proof.
  induction zip as [|x zip IH] using rev_ind; [constructor|].
  rewrite group_files_snoc.
  assert (IH' : Forall (image_from (zip ++ [x])) (snd (group_files p zip))).
  { eapply Forall_impl; [exact IH|]. intros e. apply image_from_mono. }
  clear IH. destruct (group_files p zip) as [p' fs]. cbn [snd] in IH'.
  unfold forEach_callback.
  destruct (ZipObject.dir x) eqn:Hdir; [done|].
  set (k := folderPath_of (ZipObject.name x)).
  assert (He : Forall (image_from (zip ++ [x])) (folders_ensure p' k fs)).
  { apply Forall_folders_ensure; [done|]. by intros f. }
  destruct (is_html_name _);
    [|destruct (Re.image_ext _) eqn:Himg; [|done]];
    callback_cases p' k fs; try done;
    apply Forall_folders_alter; try done.
  all: try (intros g0 Hg0 f Hf; by apply Hg0).
  all: intros g0 _ f [= <-]; split; [|done];
    apply elem_of_app; right; by apply list_elem_of_singleton.
Qed.

(** The image [Object.prototype] holds after the grouping is the one it
    held before, or a file of the archive. *)
Lemma prototype_image_from p zip f :
  prototype_image p zip = Some f ->
  Folder.image p = Some f
  \/ (f ∈ zip /\ ZipObject.dir f = false
      /\ Re.image_ext (fileName_of (ZipObject.name f)) = true).
Proof.
  unfold prototype_image. destruct (Folder.image p); [by left|].
  unfold first_entry. intros [Hin Hf]%List.find_some. right.
  split; [by apply list_elem_of_In|].
  unfold image_entry, in_group in Hf.
  apply andb_true_iff in Hf as [[Hd _]%andb_true_iff Hi].
  split; [by apply negb_true_iff|done].
Qed.

Lemma reconstruct_group_image src k g w it u :
  fst (reconstruct_group env src (k, g) w) = Returned (Some it) ->
  CapturedItem.image it = Some u ->
  exists f imgData,
    Folder.image (inherit (objectPrototype w) g) = Some f
    /\ ZipObject.async_base64 f = Some imgData
    /\ u = image_data_url (ZipObject.name f) imgData.
Proof.
  group_cases w g; intros [= <-]; cbn; intros [= <-]; by eexists _, _.
Qed.

Lemma reconstruct_groups_image src entries w items it u :
  fst (reconstruct_groups env src entries w) = Returned items ->
  it ∈ items -> CapturedItem.image it = Some u ->
  exists e f imgData,
    e ∈ entries
    /\ Folder.image (inherit (objectPrototype w) (snd e)) = Some f
    /\ ZipObject.async_base64 f = Some imgData
    /\ u = image_data_url (ZipObject.name f) imgData.
Proof.
  revert w items. induction entries as [|[k g] entries IH]; intros w items.
  - cbn. intros [= <-] Hin. by apply elem_of_nil in Hin.
  - cbn [reconstruct_groups]. run.
    pose proof (reconstruct_group_image src k g w) as Hg.
    pose proof (reads_only_prototype _ _
                  (reconstruct_group_reads env src (k, g) w)) as Hp.
    destruct (reconstruct_group env src (k, g) w) as [[item|err] w1]; [|done].
    specialize (IH w1). cbn [snd] in Hp. rewrite Hp in IH.
    destruct (reconstruct_groups env src entries w1) as [[rest|err] w2];
      [|done].
    cbn [fst] in *. intros [= <-] Hin Hu.
    apply elem_of_app in Hin as [Hin|Hin].
    + destruct item as [item|]; [|by apply elem_of_nil in Hin].
      apply list_elem_of_singleton in Hin as ->.
      destruct (Hg item u eq_refl Hu) as (f & d & ?).
      exists (k, g), f, d. split; [apply list_elem_of_here|done].
    + destruct (IH rest eq_refl Hin Hu) as (e' & f & d & He' & ?).
      exists e', f, d. split; [by apply list_elem_of_further|done].
Qed.

(** The extension of a name like that of a raster image. *)
Lemma image_name_extension name :
  Re.image_ext (fileName_of name) = true ->
  exists ext,
    fst (Js.pop (Js.split "." name)) = Some ext
    /\ Js.map_chars Js.toLowerCase ext ∈ raster_extensions
    /\ Js.endsWith ("." +:+ ext) name = true.
Proof.
  intros Himg.
  destruct (image_ext_name _ Himg) as (ext & Hext & Hlow).
  exists ext. do 2 (split; [done|]).
  apply image_ext_split in Himg as (a & e' & Hfn & He' & Hdot).
  destruct (fileName_suffix name) as [pre Hn].
  rewrite Hfn in Hn. unfold Js.pop in Hext. cbn [fst] in Hext.
  rewrite Hn, <- string_app_assoc, last_split_ext in Hext by done.
  injection Hext as <-. rewrite Hn, <- string_app_assoc.
  clear. generalize (pre +:+ a). intros p.
  induction p as [|c p IH].
  - change (Js.endsWith (String "." e') (String "." e') = true).
    by rewrite endsWith_cons, String.eqb_refl.
  - change (Js.endsWith ("." +:+ e') (String c (p +:+ String "." e')) = true).
    rewrite endsWith_cons, IH. apply orb_true_r.
Qed.

End MediaType.

(** X30.  The image of every item that the reconstruction emits is a data
    URL of the form [data:image/EXT;base64,DATA], where [DATA] is the
    base64 content of a file of the archive, or of the image that
    [Object.prototype] held when the run started, and [EXT] is what follows
    the last dot of the name of that file: one of [png], [jpg], [jpeg] and
    [webp] in the letter case of the name, without a dot.  This holds for a
    run that starts where the image [Object.prototype] holds, if it holds
    one, is named like a raster image; every run, also one that fails,
    ends where that is so again. *)
Theorem image_is_typed_data_url env data src w :
  prototype_image_named w ->
  prototype_image_named (final (reconstruct env data src) w)
  /\ forall zip items it u,
       loadAsync env (Js.split "," data !! 1%nat) = Some zip ->
       outcome (reconstruct env data src) w = Returned items ->
       it ∈ items -> CapturedItem.image it = Some u ->
       exists f ext imgData,
         (f ∈ zip /\ ZipObject.dir f = false
          \/ Folder.image (objectPrototype w) = Some f)
         /\ ZipObject.async_base64 f = Some imgData
         /\ u = "data:image/" +:+ ext +:+ ";base64," +:+ imgData
         /\ Js.map_chars Js.toLowerCase ext ∈ raster_extensions
         /\ Js.endsWith ("." +:+ ext) (ZipObject.name f) = true.
Proof.
  intros Hnamed. unfold outcome, final in *.
  set (p := objectPrototype w) in *.
  assert (Hproto : forall zip f,
             Folder.image (fst (group_files p zip)) = Some f ->
             (f ∈ zip /\ ZipObject.dir f = false \/ Folder.image p = Some f)
             /\ Re.image_ext (fileName_of (ZipObject.name f)) = true).
  { intros zip f Hf. rewrite group_files_prototype_image in Hf.
    apply prototype_image_from in Hf as [Hf|(Hin & Hdir & Himg)].
    - split; [by right|by apply Hnamed].
    - split; [by left|done]. }
  split.
  { intros f. rewrite reconstruct_prototype. fold p.
    destruct (loadAsync env _) as [zip|]; [|apply Hnamed].
    intros Hf. by apply (Hproto zip). }
  intros zip items it u Hzip Hrun Hin Hu.
  rewrite reconstruct_run, Hzip in Hrun. fold p in Hrun.
  destruct (reconstruct_groups_image env src _ _ items it u Hrun Hin Hu)
    as ([k g] & f & imgData & He & Hf & Hd & ->).
  change (objectPrototype (set_objectPrototype _ w))
    with (fst (group_files p zip)) in Hf.
  apply Object_entries_elem in He.
  assert (Hfrom : (f ∈ zip /\ ZipObject.dir f = false
                   \/ Folder.image p = Some f)
                  /\ Re.image_ext (fileName_of (ZipObject.name f)) = true).
  { unfold inherit in Hf. cbn [Folder.image snd] in Hf.
    destruct (Folder.image g) as [i|] eqn:Hg.
    - injection Hf as ->.
      pose proof (group_files_image_from p zip) as Hall.
      rewrite Forall_forall in Hall.
      destruct (Hall (k, g) He f Hg) as (Hfz & Hdir & Himg).
      split; [by left|done].
    - by apply (Hproto zip). }
  destruct Hfrom as [Hfrom Himg].
  destruct (image_name_extension _ Himg) as (ext & Hext & Hlow & Hends).
  exists f, ext, imgData. do 2 (split; [done|]).
  split; [unfold image_data_url; by rewrite Hext|]. done.
Qed.

Lemma image_is_typed_data_url_witness :
  exists f ext imgData,
    (f ∈ Sample.image_only /\ ZipObject.dir f = false
     \/ Folder.image (objectPrototype Sample.start) = Some f)
    /\ ZipObject.async_base64 f = Some imgData
    /\ "data:image/png;base64,iVBORw0KGgo="
       = "data:image/" +:+ ext +:+ ";base64," +:+ imgData
    /\ Js.map_chars Js.toLowerCase ext ∈ raster_extensions
    /\ Js.endsWith ("." +:+ ext) (ZipObject.name f) = true.
Proof.
  set (env := Sample.browser Sample.image_only).
  destruct (outcome (reconstruct env Sample.data_url Sample.source)
              Sample.start) as [items|err] eqn:Hrun;
    [|vm_compute in Hrun; discriminate Hrun].
  assert (Hitems : exists it,
             it ∈ items
             /\ CapturedItem.image it
                = Some "data:image/png;base64,iVBORw0KGgo=").
  { vm_compute in Hrun. injection Hrun as <-.
    eexists. split; [apply list_elem_of_here|reflexivity]. }
  destruct Hitems as (it & Hin & Hu).
  destruct (image_is_typed_data_url env Sample.data_url Sample.source
              Sample.start) as [_ H]; [by intros f|].
  exact (H Sample.image_only items it _ eq_refl Hrun Hin Hu).
Defined.
